(** * Scam keyword detector: the detection engine

    A shallow embedding of the detection engine of the browser extension:
    the categorised keyword scanner and the heuristic classifier of
    [src/scanner.ts], and the two result combiners of [src/background.ts]
    and of its sibling version ([combineResults]).

    Conventions of the embedding.
    - A JavaScript string is a [string]; its code units are the characters
      of the ASCII range, on which [toLowerCase] and the case folding of a
      regular expression with the [i] flag only move the letters A-Z / a-z.
    - The scanner's scores and weights are integers ([Z]); the classifier's
      confidence and the blended scores are IEEE 754 binary64 numbers
      ([float]), as JavaScript numbers are.
    - The body of a response of the classification service is a JSON
      value ([Json.t]); [AIClassifier.classifyWithAI] takes a body of the
      declared types, [Delegated.classifyWithAI] any body.
    - The [while] loop of [scan] runs on fuel, one unit per call of
      [regex.exec]; [None] stands for a call of [scan] that yields no
      result. Fuel above the length of the text is enough whenever the
      loop ends at all. *)

From Stdlib Require Import ZArith List Bool Ascii String Lia Permutation.
From Stdlib Require Import Floats.
From Stdlib Require Uint63.
Import ListNotations.

Set Warnings "-inexact-float,-register-all".

Open Scope string_scope.
Open Scope list_scope.

(* ================================================================== *)
(** ** types.ts *)

Inductive Severity : Type := low | medium | high | critical.

Definition Severity_eqb (a b : Severity) : bool :=
  match a, b with
  | low, low | medium, medium | high, high | critical, critical => true
  | _, _ => false
  end.

Module KeywordCategory.
Record t : Type := mk
  { keywords : list string;
    severity : Severity;
    weight : Z }.
End KeywordCategory.

Module MatchDetail.
Record t : Type := mk
  { keyword : string;
    severity : Severity;
    position : nat;
    context : string }.
End MatchDetail.

Module DetectionResult.
Record t : Type := mk
  { flagged : bool;
    score : Z;
    matches : list string;
    severity : Severity;
    details : list MatchDetail.t }.
End DetectionResult.

Module AIVerdict.
Record t : Type := mk
  { isSuspicious : bool;
    reason : string;
    confidence : float }.
End AIVerdict.

(** The fields of [CombinedAnalysis] that the combiners compute from their
    two inputs; [recommendation], [timestamp] and [messageText] are display
    data and are left out. *)
Module CombinedAnalysis.
Record t : Type := mk
  { isSuspicious : bool;
    overallSeverity : Severity;
    keywordDetection : DetectionResult.t;
    aiDetection : AIVerdict.t;
    finalScore : float }.
End CombinedAnalysis.

(* ================================================================== *)
(** ** JavaScript strings *)

Module Js.

Definition code (c : ascii) : nat := nat_of_ascii c.

Definition between (lo hi : nat) (c : ascii) : bool :=
  (lo <=? code c)%nat && (code c <=? hi)%nat.

Definition isUpperAZ : ascii -> bool := between 65 90.
Definition isLowerAZ : ascii -> bool := between 97 122.
Definition isDigit : ascii -> bool := between 48 57.

Definition toLowerUnit (c : ascii) : ascii :=
  if isUpperAZ c then ascii_of_nat (code c + 32) else c.

Definition toUpperUnit (c : ascii) : ascii :=
  if isLowerAZ c then ascii_of_nat (code c - 32) else c.

(** [String.prototype.toLowerCase] on a string whose units are in the
    ASCII range; beyond it the method moves other letters as well (it turns
    U+212A, the Kelvin sign, into k). *)
Fixpoint toLowerCase (s : string) : string :=
  match s with
  | EmptyString => EmptyString
  | String c r => String (toLowerUnit c) (toLowerCase r)
  end.

Definition units (s : string) : list ascii := list_ascii_of_string s.
Definition ofUnits (l : list ascii) : string := string_of_list_ascii l.

Fixpoint startsWith (p s : list ascii) : bool :=
  match p, s with
  | [], _ => true
  | _ :: _, [] => false
  | a :: p', b :: s' => Ascii.eqb a b && startsWith p' s'
  end.

Fixpoint includesUnits (s p : list ascii) : bool :=
  startsWith p s ||
  match s with
  | [] => false
  | _ :: r => includesUnits r p
  end.

(** [String.prototype.includes]. *)
Definition includes (s p : string) : bool := includesUnits (units s) (units p).

(** [String.prototype.substring]: both indices are clamped to the length
    and swapped when out of order. *)
Definition substring (s : string) (a b : nat) : string :=
  let len := String.length s in
  let a' := Nat.min a len in
  let b' := Nat.min b len in
  let lo := Nat.min a' b' in
  let hi := Nat.max a' b' in
  ofUnits (firstn (hi - lo) (skipn lo (units s))).

(** [Array.prototype.includes] and [indexOf] on an array of strings. *)
Definition arrayIncludes (l : list string) (k : string) : bool :=
  existsb (String.eqb k) l.

Fixpoint indexOf (l : list string) (k : string) : option nat :=
  match l with
  | [] => None
  | x :: r => if String.eqb x k then Some 0%nat else option_map S (indexOf r k)
  end.

(** [splice(index, 1)]. *)
Fixpoint splice1 (l : list string) (index : nat) : list string :=
  match l, index with
  | [], _ => []
  | _ :: r, O => r
  | x :: r, S i => x :: splice1 r i
  end.

(** [Array.prototype.join]. *)
Definition join (sep : string) (l : list string) : string := String.concat sep l.

(** [Set.prototype.add] on an insertion-ordered set of strings. *)
Definition setAdd (s : list string) (k : string) : list string :=
  if arrayIncludes s k then s else s ++ [k].

End Js.

(* ================================================================== *)
(** ** Regular expressions: the fragment the scanner builds

    [new RegExp(src, 'gi')] for a source made of [\b], escaped
    metacharacters and plain characters. *)

Module RegExp.

Inductive atom : Type :=
| WordBoundary
| Literal (c : ascii).

Definition t : Type := list atom.

(** The characters of the class [[.*+?^${}()|[\]\\]]. *)
Definition metachars : list ascii := Js.units ".*+?^${}()|[]\".

Definition isMeta (c : ascii) : bool := existsb (Ascii.eqb c) metachars.

Definition backslash : ascii := "\"%char.

(** [new RegExp(src)]: [None] for a source outside the fragment. *)
Fixpoint compileUnits (src : list ascii) : option t :=
  match src with
  | [] => Some []
  | c :: r =>
      if Ascii.eqb c backslash then
        match r with
        | [] => None
        | d :: r' =>
            if Ascii.eqb d "b"%char then option_map (cons WordBoundary) (compileUnits r')
            else if isMeta d then option_map (cons (Literal d)) (compileUnits r')
            else None
        end
      else if isMeta c then None
      else option_map (cons (Literal c)) (compileUnits r)
  end.

Definition compile (src : string) : option t := compileUnits (Js.units src).

(** Word characters of [\b]: [[A-Za-z0-9_]]. *)
Definition isWordChar (c : ascii) : bool :=
  Js.isUpperAZ c || Js.isLowerAZ c || Js.isDigit c || Ascii.eqb c "_"%char.

Definition wordAt (text : list ascii) (i : nat) : bool :=
  match nth_error text i with
  | Some c => isWordChar c
  | None => false
  end.

Definition isBoundary (text : list ascii) (pos : nat) : bool :=
  let a := match pos with O => false | S p => wordAt text p end in
  let b := wordAt text pos in
  xorb a b.

(** Case folding under the [i] flag. *)
Definition canonicalize (c : ascii) : ascii := Js.toUpperUnit c.

(** Matching at a fixed position; the result is the end index. *)
Fixpoint matchAt (re : t) (text : list ascii) (pos : nat) : option nat :=
  match re with
  | [] => Some pos
  | WordBoundary :: r =>
      if isBoundary text pos then matchAt r text pos else None
  | Literal c :: r =>
      match nth_error text pos with
      | Some d =>
          if Ascii.eqb (canonicalize d) (canonicalize c)
          then matchAt r text (S pos) else None
      | None => None
      end
  end.

Fixpoint searchFrom (n : nat) (re : t) (text : list ascii) (i : nat)
  : option (nat * nat) :=
  match n with
  | O => None
  | S n' =>
      match matchAt re text i with
      | Some e => Some (i, e)
      | None => searchFrom n' re text (S i)
      end
  end.

(** [regex.exec(text)] with the [g] flag, from [lastIndex]: the index of
    the leftmost match at or after [lastIndex] and the new [lastIndex];
    [None] is the [null] result. *)
Definition exec (re : t) (text : list ascii) (lastIndex : nat)
  : option (nat * nat) :=
  if (List.length text <? lastIndex)%nat then None
  else searchFrom (S (List.length text) - lastIndex) re text lastIndex.

End RegExp.

(* ================================================================== *)
(** ** scanner.ts: class KeywordScanner

    The object's only field that changes is [categories]; the methods take
    it as an argument and the two mutators return the new list. *)

Module KeywordScanner.

Import KeywordCategory.

(** The initial value of the private field [categories]. *)
Definition categories : list KeywordCategory.t :=
  [ mk [ "verify account"; "verify your account"; "account suspended"; "account locked";
         "confirm identity"; "update payment"; "payment failed"; "billing problem";
         "unusual activity"; "suspicious activity"; "unauthorized access";
         "security alert"; "verify payment"; "confirm payment" ]
       critical 10;
    mk [ "urgent"; "immediate action"; "act now"; "limited time"; "expires today";
         "verify now"; "click here now"; "respond immediately"; "final notice";
         "last chance"; "time sensitive"; "action required" ]
       high 8;
    mk [ "gift card"; "gift cards"; "iTunes card"; "Google Play card"; "Amazon card";
         "prepaid card"; "wire transfer"; "send money"; "western union"; "moneygram";
         "bitcoin"; "cryptocurrency"; "crypto wallet" ]
       critical 10;
    mk [ "password"; "social security"; "ssn"; "social security number";
         "bank account"; "routing number"; "credit card"; "cvv"; "pin number";
         "bank login"; "online banking"; "account number"; "tax id" ]
       critical 10;
    mk [ "IRS"; "internal revenue service"; "tax refund"; "tax return";
         "tax investigation"; "federal agent"; "government official";
         "department of justice"; "FBI"; "police department" ]
       high 9;
    mk [ "Apple ID"; "iCloud account"; "Microsoft account"; "Google account";
         "Amazon account"; "PayPal account"; "Netflix account"; "Facebook account" ]
       high 8;
    mk [ "click this link"; "click here"; "download attachment"; "open attachment";
         "verify here"; "login here"; "reset password"; "change password";
         "update information"; "confirm details" ]
       medium 6;
    mk [ "congratulations"; "you've won"; "prize"; "lottery"; "winner";
         "claim your"; "free gift"; "bonus"; "reward"; "compensation" ]
       medium 7;
    mk [ "refund"; "reimbursement"; "overpayment"; "owed money";
         "unclaimed funds"; "pending payment"; "payment processing" ]
       medium 6;
    mk [ "suspended"; "deactivated"; "disabled"; "restricted"; "blocked";
         "terminated"; "cancelled"; "expired"; "invalid" ]
       medium 5;
    mk [ "confirm"; "verify"; "validate"; "authenticate"; "review";
         "update"; "renew"; "reactivate" ]
       low 3 ].

Definition severityScores (s : Severity) : Z :=
  match s with
  | low => 1
  | medium => 3
  | high => 6
  | critical => 10
  end.

(** [str.replace(/[.*+?^${}()|[\]\\]/g, '\\$&')]. *)
Definition escapeRegex (str : string) : string :=
  Js.ofUnits
    (flat_map (fun c => if RegExp.isMeta c then [RegExp.backslash; c] else [c])
              (Js.units str)).

Definition extractContext (text : string) (position length : nat) : string :=
  let start := Nat.max 0 (position - 30) in
  let end_ := Nat.min (String.length text) (position + length + 30) in
  let context := Js.substring text start end_ in
  let context := if (0 <? start)%nat then String.append "..." context else context in
  let context :=
    if (end_ <? String.length text)%nat then String.append context "..." else context in
  context.

Definition severityRanks (s : Severity) : nat :=
  match s with
  | low => 1
  | medium => 2
  | high => 3
  | critical => 4
  end.

(** The loop variables [maxRank], [criticalCount], [highCount]. *)
Definition rankStep (acc : nat * nat * nat) (detail : MatchDetail.t)
  : nat * nat * nat :=
  let '(maxRank, criticalCount, highCount) := acc in
  let rank := severityRanks (MatchDetail.severity detail) in
  ( if (maxRank <? rank)%nat then rank else maxRank,
    if Severity_eqb (MatchDetail.severity detail) critical
    then S criticalCount else criticalCount,
    if Severity_eqb (MatchDetail.severity detail) high
    then S highCount else highCount ).

Definition calculateOverallSeverity (details : list MatchDetail.t) : Severity :=
  if (List.length details =? 0)%nat then low
  else
    let '(maxRank, criticalCount, highCount) :=
      fold_left rankStep details (0, 0, 0)%nat in
    if (2 <=? criticalCount)%nat || ((1 <=? criticalCount)%nat && (1 <=? highCount)%nat)
    then critical
    else if (maxRank =? 4)%nat then critical
    else if (maxRank =? 3)%nat then high
    else if (maxRank =? 2)%nat then medium
    else low.

(** The variables [details], [matchedKeywords] and [totalScore] of [scan]. *)
Record ScanState : Type := mkState
  { details : list MatchDetail.t;
    matchedKeywords : list string;
    totalScore : Z }.

Definition initialState : ScanState := mkState [] [] 0.

(** The body of the [while] loop, for a match at [position]. *)
Definition record (text : string) (category : KeywordCategory.t) (keyword : string)
           (position : nat) (st : ScanState) : ScanState :=
  let context := extractContext text position (String.length keyword) in
  mkState
    (details st ++ [MatchDetail.mk keyword (severity category) position context])
    (Js.setAdd (matchedKeywords st) keyword)
    (totalScore st + severityScores (severity category) * weight category).

(** [while ((match = regex.exec(text)) !== null) { ... }]. *)
Fixpoint whileExec (fuel : nat) (regex : RegExp.t) (text : string)
         (category : KeywordCategory.t) (keyword : string)
         (lastIndex : nat) (st : ScanState) : option ScanState :=
  match fuel with
  | O => None
  | S fuel' =>
      match RegExp.exec regex (Js.units text) lastIndex with
      | None => Some st
      | Some (position, lastIndex') =>
          whileExec fuel' regex text category keyword lastIndex'
                    (record text category keyword position st)
      end
  end.

Definition regexSource (keyword : string) : string :=
  String.append "\b" (String.append (escapeRegex keyword) "\b").

Definition scanKeyword (fuel : nat) (text : string) (category : KeywordCategory.t)
           (st : option ScanState) (keyword : string) : option ScanState :=
  match st with
  | None => None
  | Some st =>
      match RegExp.compile (regexSource keyword) with
      | None => None
      | Some regex => whileExec fuel regex text category keyword 0 st
      end
  end.

Definition scanCategory (fuel : nat) (text : string)
           (st : option ScanState) (category : KeywordCategory.t) : option ScanState :=
  fold_left (scanKeyword fuel text category) (keywords category) st.

(** [scan(text)]; the local [normalizedText] is never read. *)
Definition scan (fuel : nat) (cats : list KeywordCategory.t) (text : string)
  : option DetectionResult.t :=
  match fold_left (scanCategory fuel text) cats (Some initialState) with
  | None => None
  | Some st =>
      let flagged := (0 <? List.length (details st))%nat in
      let severity := calculateOverallSeverity (details st) in
      Some (DetectionResult.mk flagged (totalScore st) (matchedKeywords st)
                               severity (details st))
  end.

Definition defaultWeight : Z := 5.

(** The conditional [push] on the category that [find] returned: the
    first one of that severity. *)
Fixpoint pushToFound (sev : Severity) (k : string) (cats : list KeywordCategory.t)
  : list KeywordCategory.t :=
  match cats with
  | [] => []
  | cat :: rest =>
      if Severity_eqb (severity cat) sev then
        (if Js.arrayIncludes (keywords cat) k then cat
         else mk (keywords cat ++ [k]) (severity cat) (weight cat)) :: rest
      else cat :: pushToFound sev k rest
  end.

Definition addCustomKeyword (keyword : string) (sev : Severity) (weight : option Z)
           (cats : list KeywordCategory.t) : list KeywordCategory.t :=
  let weight := match weight with Some w => w | None => defaultWeight end in
  let cats :=
    if existsb (fun cat => Severity_eqb (severity cat) sev) cats then cats
    else cats ++ [mk [] sev weight] in
  pushToFound sev (Js.toLowerCase keyword) cats.

Definition removeFrom (normalized : string) (cat : KeywordCategory.t)
  : bool * KeywordCategory.t :=
  match Js.indexOf (keywords cat) normalized with
  | Some index => (true, mk (Js.splice1 (keywords cat) index) (severity cat) (weight cat))
  | None => (false, cat)
  end.

Fixpoint removeLoop (normalized : string) (cats : list KeywordCategory.t)
  : bool * list KeywordCategory.t :=
  match cats with
  | [] => (false, [])
  | cat :: rest =>
      let (hit, cat') := removeFrom normalized cat in
      let (removed, rest') := removeLoop normalized rest in
      (hit || removed, cat' :: rest')
  end.

Definition removeKeyword (keyword : string) (cats : list KeywordCategory.t)
  : bool * list KeywordCategory.t :=
  removeLoop (Js.toLowerCase keyword) cats.

(** [result[severity].push(...keywords)] on the object of the four arrays,
    keyed by severity. *)
Definition pushAll (result : Severity -> list string) (sev : Severity)
           (kws : list string) : Severity -> list string :=
  fun s => if Severity_eqb s sev then result s ++ kws else result s.

Definition getAllKeywords (cats : list KeywordCategory.t) : Severity -> list string :=
  fold_left (fun result category => pushAll result (severity category) (keywords category))
            cats (fun _ => []).

End KeywordScanner.

(* ================================================================== *)
(** ** JavaScript numbers *)

Module Number.

Open Scope float_scope.

(** [Math.min] of two numbers. *)
Definition min (a b : float) : float :=
  if is_nan a || is_nan b then nan
  else if a <? b then a
  else if b <? a then b
  else if get_sign a then a else b.

(** A number is truthy unless it is [0], [-0] or [NaN]. *)
Definition truthy (a : float) : bool := negb (PrimFloat.is_zero a || PrimFloat.is_nan a).

(** The number an integer denotes (exact below 2^53). *)
Definition ofZ (z : Z) : float :=
  if (z <? 0)%Z then - of_uint63 (Uint63.of_Z (- z)) else of_uint63 (Uint63.of_Z z).

End Number.

(* ================================================================== *)
(** ** JSON values

    What [await response.json()] delivers is any JSON value, whatever the
    type [AIVerdict] declares for the fields of the answer. *)

Module Json.

Inductive t : Type :=
| JNull
| JBool (b : bool)
| JNumber (n : float)
| JString (s : string)
| JArray (items : list t)
| JObject (members : list (string * t)).

(** [ToBoolean]: what [||] tests. *)
Definition truthy (v : t) : bool :=
  match v with
  | JNull => false
  | JBool b => b
  | JNumber n => Number.truthy n
  | JString s => negb (String.eqb s "")
  | JArray _ => true
  | JObject _ => true
  end.

(** The member called [name]; of several members of one name [JSON.parse]
    keeps the last. *)
Definition member (name : string) (members : list (string * t)) : option t :=
  fold_left (fun found m => if String.eqb (fst m) name then Some (snd m) else found)
            members None.

(** [data.name] on a value other than [null], [None] for [undefined]: a
    boolean, a number, a string and an array have no property of the names
    read here. *)
Definition field (data : t) (name : string) : option t :=
  match data with
  | JObject members => member name members
  | _ => None
  end.

(** [field || default]. *)
Definition orDefault (field : option t) (default : t) : t :=
  match field with
  | Some v => if truthy v then v else default
  | None => default
  end.

End Json.

(* ================================================================== *)
(** ** scanner.ts: class AIClassifier *)

Module AIClassifier.

Open Scope float_scope.

(** The fields [apiEndpoint], [apiKey], [mockMode]. *)
Record Settings : Type := mkSettings
  { apiEndpoint : string;
    apiKey : string;
    mockMode : bool }.

(** The field initialisers, in force until [loadSettings] has answered. *)
Definition initialSettings : Settings := mkSettings "" "" true.

Definition configureAPI (endpoint key : string) (_ : Settings) : Settings :=
  mkSettings endpoint key false.

Definition enableMockMode (s : Settings) : Settings :=
  mkSettings (apiEndpoint s) (apiKey s) true.

Definition disableMockMode (s : Settings) : Settings :=
  mkSettings (apiEndpoint s) (apiKey s) false.

(** The number of matches of [/https?:\/\//g]: after a match the search
    resumes behind it ([skip] counts the units still to pass over). *)
Fixpoint countUrls (skip : nat) (s : list ascii) : nat :=
  match s with
  | [] => O
  | _ :: r =>
      match skip with
      | S k => countUrls k r
      | O =>
          if Js.startsWith (Js.units "http://") s then S (countUrls 6 r)
          else if Js.startsWith (Js.units "https://") s then S (countUrls 7 r)
          else countUrls 0 r
      end
  end.

(** One [if (cond) { suspicionScore += inc; reasons.push(fragment) }]. *)
Definition signal (cond : bool) (inc : float) (fragment : string)
           (acc : float * list string) : float * list string :=
  if cond then (fst acc + inc, snd acc ++ [fragment]) else acc.

Definition nothingDetected : string := "No significant suspicious patterns detected".

(** The values of [suspicionScore] and [reasons] after the eight tests. *)
Definition evaluateSignals (message : string) : float * list string :=
  let lowerMsg := Js.toLowerCase message in
  let has := Js.includes lowerMsg in
  let acc := (0, @nil string) in
  let acc := signal (has "urgent" || has "immediate") 0.3 "Uses urgent language" acc in
  let acc := signal (has "click" && has "link") 0.25 "Contains clickable link request" acc in
  let acc := signal (has "verify" || has "confirm") 0.2 "Requests verification" acc in
  let acc := signal (has "account" && (has "suspend" || has "lock")) 0.4
                    "Threatens account suspension" acc in
  let acc := signal (has "password" || has "credit card" || has "ssn") 0.5
                    "Requests sensitive information" acc in
  let acc := signal (has "gift card" || has "wire transfer") 0.6
                    "Requests unusual payment method" acc in
  let urlCount := countUrls 0 (Js.units message) in
  let acc := signal (2 <=? urlCount)%nat 0.2 "Contains multiple URLs" acc in
  let acc := signal ((500 <? String.length message)%nat && (0.3 <? fst acc)) 0.1
                    "Long message with suspicious content" acc in
  acc.

Definition mockClassify (message : string) : AIVerdict.t :=
  let (suspicionScore, reasons) := evaluateSignals message in
  let isSuspicious := 0.4 <=? suspicionScore in
  let confidence := Number.min suspicionScore 1.0 in
  AIVerdict.mk isSuspicious
               (if isSuspicious then Js.join "; " reasons else nothingDetected)
               confidence.

(** The body of a response that keeps to the types [AIVerdict] declares:
    an object whose fields, each of which may be missing, are a boolean, a
    string and a number. Module [Delegated] below has the request on any
    body, and [Delegated.classifyWithAI_typed] relates the two. *)
Record Data : Type := mkData
  { data_isSuspicious : option bool;
    data_reason : option string;
    data_confidence : option float }.

Inductive Body : Type :=
| NotJson            (* the body does not parse *)
| JsonNull           (* the body is the JSON value null *)
| Json (data : Data).

(** What the request does. *)
Inductive Fetch : Type :=
| TransportError
| Response (ok : bool) (body : Body).

(** The exceptions of the [try] block. *)
Inductive Exn : Type :=
| FetchRejected      (* [await fetch(...)] rejects *)
| ApiError           (* [throw new Error(`AI API error: ...`)] *)
| JsonRejected       (* [await response.json()] rejects *)
| TypeError.         (* a property of [null] is read *)

Definition Try (A : Type) : Type := (Exn + A)%type.

Definition bind {A B : Type} (m : Try A) (k : A -> Try B) : Try B :=
  match m with
  | inl e => inl e
  | inr a => k a
  end.

Definition awaitFetch (net : Fetch) : Try (bool * Body) :=
  match net with
  | TransportError => inl FetchRejected
  | Response ok body => inr (ok, body)
  end.

Definition awaitJson (body : Body) : Try (option Data) :=
  match body with
  | NotJson => inl JsonRejected
  | JsonNull => inr None
  | Json data => inr (Some data)
  end.

(** [field || default]. *)
Definition orElse {A : Type} (truthy : A -> bool) (field : option A) (default : A) : A :=
  match field with
  | Some v => if truthy v then v else default
  | None => default
  end.

Definition readVerdict (data : option Data) : Try AIVerdict.t :=
  match data with
  | None => inl TypeError
  | Some data =>
      inr (AIVerdict.mk
             (orElse (fun b => b) (data_isSuspicious data) false)
             (orElse (fun r => negb (String.eqb r "")) (data_reason data)
                     "No explanation provided")
             (orElse Number.truthy (data_confidence data) 0.5))
  end.

Definition tryRequest (net : Fetch) : Try AIVerdict.t :=
  bind (awaitFetch net) (fun response =>
    if negb (fst response) then inl ApiError
    else bind (awaitJson (snd response)) readVerdict).

(** [classifyWithAI(message)], given what the request it may issue does. *)
Definition classifyWithAI (s : Settings) (message : string) (net : Fetch) : AIVerdict.t :=
  if mockMode s || String.eqb (apiEndpoint s) "" then mockClassify message
  else
    match tryRequest net with
    | inr verdict => verdict
    | inl error => mockClassify message
    end.

End AIClassifier.

(* ================================================================== *)
(** ** scanner.ts: [classifyWithAI] on any response

    The same method, with the body of the response as the JSON value it is
    at run time: the fields of the verdict returned hold whatever values
    the body has under their names. *)

Module Delegated.

Open Scope float_scope.

(** The object that [classifyWithAI] returns, field by field. *)
Record Verdict : Type := mkVerdict
  { isSuspicious : Json.t;
    reason : Json.t;
    confidence : Json.t }.

(** A verdict of the heuristic evaluator as such an object. *)
Definition ofVerdict (v : AIVerdict.t) : Verdict :=
  mkVerdict (Json.JBool (AIVerdict.isSuspicious v))
            (Json.JString (AIVerdict.reason v))
            (Json.JNumber (AIVerdict.confidence v)).

(** What the request does: [fetch] rejects, or it answers with a status
    and a body, [None] for a body that is not JSON. *)
Inductive Reply : Type :=
| Rejected
| Answered (ok : bool) (body : option Json.t).

Definition awaitFetch (reply : Reply) : AIClassifier.Try (bool * option Json.t) :=
  match reply with
  | Rejected => inl AIClassifier.FetchRejected
  | Answered ok body => inr (ok, body)
  end.

Definition awaitJson (body : option Json.t) : AIClassifier.Try Json.t :=
  match body with
  | None => inl AIClassifier.JsonRejected
  | Some data => inr data
  end.

(** [data.name]: reading a property of [null] throws. *)
Definition get (data : Json.t) (name : string) : AIClassifier.Try (option Json.t) :=
  match data with
  | Json.JNull => inl AIClassifier.TypeError
  | _ => inr (Json.field data name)
  end.

Definition readVerdict (data : Json.t) : AIClassifier.Try Verdict :=
  AIClassifier.bind (get data "isSuspicious") (fun suspicious =>
  AIClassifier.bind (get data "reason") (fun reason =>
  AIClassifier.bind (get data "confidence") (fun confidence =>
    inr (mkVerdict (Json.orDefault suspicious (Json.JBool false))
                   (Json.orDefault reason (Json.JString "No explanation provided"))
                   (Json.orDefault confidence (Json.JNumber 0.5)))))).

Definition tryRequest (reply : Reply) : AIClassifier.Try Verdict :=
  AIClassifier.bind (awaitFetch reply) (fun response =>
    if negb (fst response) then inl AIClassifier.ApiError
    else AIClassifier.bind (awaitJson (snd response)) readVerdict).

(** [classifyWithAI(message)], given what the request it may issue does. *)
Definition classifyWithAI (s : AIClassifier.Settings) (message : string) (reply : Reply)
  : Verdict :=
  if AIClassifier.mockMode s || String.eqb (AIClassifier.apiEndpoint s) ""
  then ofVerdict (AIClassifier.mockClassify message)
  else
    match tryRequest reply with
    | inr verdict => verdict
    | inl error => ofVerdict (AIClassifier.mockClassify message)
    end.

(** A body of the declared types as a JSON value. *)
Definition present {A : Type} (name : string) (make : A -> Json.t) (field : option A)
  : list (string * Json.t) :=
  match field with
  | Some v => [(name, make v)]
  | None => []
  end.

Definition ofData (data : AIClassifier.Data) : Json.t :=
  Json.JObject
    (present "isSuspicious" Json.JBool (AIClassifier.data_isSuspicious data)
     ++ present "reason" Json.JString (AIClassifier.data_reason data)
     ++ present "confidence" Json.JNumber (AIClassifier.data_confidence data)).

Definition ofBody (body : AIClassifier.Body) : option Json.t :=
  match body with
  | AIClassifier.NotJson => None
  | AIClassifier.JsonNull => Some Json.JNull
  | AIClassifier.Json data => Some (ofData data)
  end.

Definition ofFetch (net : AIClassifier.Fetch) : Reply :=
  match net with
  | AIClassifier.TransportError => Rejected
  | AIClassifier.Response ok body => Answered ok (ofBody body)
  end.

End Delegated.

(* ================================================================== *)
(** ** background.ts *)

Module Background.

Open Scope float_scope.

Definition normalizeScore (rawScore : float) : float :=
  let maxExpectedScore := 200 in
  Number.min (rawScore / maxExpectedScore) 1.0.

Definition determineOverallSeverity (keywordSeverity : Severity) (aiSuspicious : bool)
           (score : float) : Severity :=
  if Severity_eqb keywordSeverity critical || (aiSuspicious && (0.8 <=? score))
  then critical
  else if Severity_eqb keywordSeverity high || (aiSuspicious && (0.6 <=? score))
  then high
  else if Severity_eqb keywordSeverity medium || (0.4 <=? score)
  then medium
  else low.

(** The analysis [analyzeText] builds from the scanner's and the
    classifier's results. *)
Definition analyzeText (keywordResult : DetectionResult.t) (aiResult : AIVerdict.t)
  : CombinedAnalysis.t :=
  let keywordScore := normalizeScore (Number.ofZ (DetectionResult.score keywordResult)) in
  let aiScore := AIVerdict.confidence aiResult in
  let combinedScore := (keywordScore * 0.6) + (aiScore * 0.4) in
  let isSuspicious :=
    (0.5 <=? combinedScore)
    || Severity_eqb (DetectionResult.severity keywordResult) critical
    || AIVerdict.isSuspicious aiResult in
  let overallSeverity :=
    determineOverallSeverity (DetectionResult.severity keywordResult)
                             (AIVerdict.isSuspicious aiResult) combinedScore in
  CombinedAnalysis.mk isSuspicious overallSeverity keywordResult aiResult combinedScore.

(** A [StoredAnalysis]: the analysis and its [id]. *)
Definition StoredAnalysis : Type := (CombinedAnalysis.t * string)%type.

(** The keys of [chrome.storage.local] the script keeps; a key that was
    never set reads as [undefined], here [None]. The callbacks of two
    analyses are taken one after the other. *)
Record Storage : Type := mkStorage
  { scanHistory : option (list StoredAnalysis);
    totalScans : option Z;
    scamsDetected : option Z }.

(** What [onInstalled] and [CLEAR_HISTORY] write. *)
Definition cleared : Storage := mkStorage (Some []) (Some 0%Z) (Some 0%Z).

(** [saveToHistory]: the history that is written back. *)
Definition saveToHistory {E : Type} (newEntry : E) (stored : option (list E)) : list E :=
  let history := match stored with Some h => h | None => [] end in
  let history := newEntry :: history in
  if (100 <? List.length history)%nat then firstn 100 history else history.

(** [value || 0]. *)
Definition orZero (value : option Z) : Z :=
  match value with
  | Some n => n
  | None => 0%Z
  end.

(** [updateStats]: the two counters that are written back. *)
Definition updateStats (wasScam : bool) (total scams : option Z) : Z * Z :=
  ((orZero total + 1)%Z, (orZero scams + (if wasScam then 1 else 0))%Z).

(** The storage after [analyzeText] has saved [analysis] under [id]. *)
Definition record (analysis : CombinedAnalysis.t) (id : string) (s : Storage) : Storage :=
  let stats := updateStats (CombinedAnalysis.isSuspicious analysis)
                           (totalScans s) (scamsDetected s) in
  mkStorage (Some (saveToHistory (analysis, id) (scanHistory s)))
            (Some (fst stats)) (Some (snd stats)).

(** [analyzeText] calls [showNotification] when the analysis is suspicious. *)
Definition notifies (analysis : CombinedAnalysis.t) : bool :=
  CombinedAnalysis.isSuspicious analysis.

End Background.

(* ================================================================== *)
(** ** The sibling version of background.ts: [combineResults] *)

Module BackgroundCombine.

Open Scope float_scope.

Definition combineResults (keywordResult : DetectionResult.t) (aiResult : AIVerdict.t)
  : CombinedAnalysis.t :=
  let keywordScore := Number.ofZ (DetectionResult.score keywordResult) in
  let aiScore := AIVerdict.confidence aiResult * 100 in
  let finalScore := (keywordScore * 0.6) + (aiScore * 0.4) in
  let isSuspicious :=
    DetectionResult.flagged keywordResult || AIVerdict.isSuspicious aiResult in
  let overallSeverity :=
    if Severity_eqb (DetectionResult.severity keywordResult) critical
       || (AIVerdict.isSuspicious aiResult && (0.8 <? AIVerdict.confidence aiResult))
    then critical
    else if Severity_eqb (DetectionResult.severity keywordResult) high
            || (AIVerdict.isSuspicious aiResult && (0.6 <? AIVerdict.confidence aiResult))
    then high
    else if Severity_eqb (DetectionResult.severity keywordResult) medium
            || AIVerdict.isSuspicious aiResult
    then medium
    else low in
  CombinedAnalysis.mk isSuspicious overallSeverity keywordResult aiResult finalScore.

(** [saveToHistory] of this version: the history that is written back. *)
Definition saveToHistory {E : Type} (storedAnalysis : E) (stored : option (list E)) : list E :=
  let history := match stored with Some h => h | None => [] end in
  let history := storedAnalysis :: history in
  if (100 <? List.length history)%nat then removelast history else history.

(** [analyzeText] of this version calls [showNotification] when the analysis
    is suspicious and its overall severity is not low. *)
Definition notifies (analysis : CombinedAnalysis.t) : bool :=
  CombinedAnalysis.isSuspicious analysis
  && negb (Severity_eqb (CombinedAnalysis.overallSeverity analysis) low).

End BackgroundCombine.


(* ================================================================== *)
(** ** The notions the properties are stated with *)

Module Spec.

Open Scope nat_scope.

Definition countOf (s : Severity) (l : list Severity) : nat :=
  List.length (filter (Severity_eqb s) l).

(** The order [low < medium < high < critical]. *)
Definition rank (s : Severity) : nat :=
  match s with
  | low => 0
  | medium => 1
  | high => 2
  | critical => 3
  end.

Definition maxSeverity (a b : Severity) : Severity :=
  if rank a <? rank b then b else a.

Definition highest (l : list Severity) : Severity := fold_right maxSeverity low l.

(** The escalation policy of the overall severity. *)
Definition escalate (l : list Severity) : Severity :=
  if (2 <=? countOf critical l) || ((1 <=? countOf critical l) && (1 <=? countOf high l))
  then critical
  else highest l.

(** What [new RegExp] makes of the source that [scan] builds for a
    keyword: the keyword's units, taken literally, between two word
    boundaries. *)
Definition wordPattern (keyword : string) : RegExp.t :=
  RegExp.WordBoundary :: map RegExp.Literal (Js.units keyword) ++ [RegExp.WordBoundary].

(** The units of [l] stand in [text] from [pos] on, up to case. *)
Fixpoint literalsAt (l text : list ascii) (pos : nat) : bool :=
  match l with
  | [] => true
  | c :: r =>
      match nth_error text pos with
      | Some d =>
          Ascii.eqb (RegExp.canonicalize d) (RegExp.canonicalize c)
          && literalsAt r text (S pos)
      | None => false
      end
  end.

(** The keyword matches at [pos] as a whole word. *)
Definition occursAt (keyword : string) (text : list ascii) (pos : nat) : bool :=
  RegExp.isBoundary text pos
  && literalsAt (Js.units keyword) text pos
  && RegExp.isBoundary text (pos + List.length (Js.units keyword)).

(** No category holds the empty phrase. *)
Definition nonEmptyKeywords (cats : list KeywordCategory.t) : bool :=
  forallb (fun c => forallb (fun k => negb (String.eqb k ""))
                            (KeywordCategory.keywords c)) cats.

(** The offsets at which the phrase [keyword] is matched in [text], from
    the left: the first whole-word occurrence at or after the current
    offset, then the first one at or after its end, and so on. [n] offsets
    are left to visit from [i] on; the first [skip] of them lie inside the
    occurrence found last. *)
Fixpoint matchesFrom (keyword : string) (text : list ascii) (n i skip : nat) : list nat :=
  match n with
  | O => []
  | S n' =>
      match skip with
      | S k => matchesFrom keyword text n' (S i) k
      | O =>
          if occursAt keyword text i
          then i :: matchesFrom keyword text n' (S i) (List.length (Js.units keyword) - 1)
          else matchesFrom keyword text n' (S i) 0
      end
  end.

Definition matchOffsets (keyword text : string) : list nat :=
  matchesFrom keyword (Js.units text) (S (String.length text)) 0 0.

(** A match occurrence: a category, one of its phrases, and an offset at
    which the phrase is matched. *)
Definition Occurrence : Type := (KeywordCategory.t * string * nat)%type.

(** Every match occurrence in [text], category by category, phrase by
    phrase, offset by offset; a phrase matched at several offsets occurs
    once for each. *)
Definition occurrences (cats : list KeywordCategory.t) (text : string) : list Occurrence :=
  flat_map (fun c =>
    flat_map (fun k => map (fun p => (c, k, p)) (matchOffsets k text))
             (KeywordCategory.keywords c)) cats.

(** The detail reported for an occurrence. *)
Definition detailOf (text : string) (o : Occurrence) : MatchDetail.t :=
  let '(c, k, p) := o in
  MatchDetail.mk k (KeywordCategory.severity c) p
                 (KeywordScanner.extractContext text p (String.length k)).

(** The term of one occurrence in the aggregate score. *)
Definition matchScore (o : Occurrence) : Z :=
  let '(c, _, _) := o in
  (KeywordScanner.severityScores (KeywordCategory.severity c) * KeywordCategory.weight c)%Z.

(** The sum of the terms of the occurrences. *)
Definition sumOfScores (occs : list Occurrence) : Z :=
  fold_right (fun o acc => (matchScore o + acc)%Z) 0%Z occs.

(** The loop state after the occurrences [occs] have been recorded, in
    order. *)
Definition recordEach (text : string) (occs : list Occurrence)
           (st : KeywordScanner.ScanState) : KeywordScanner.ScanState :=
  fold_left (fun st o => let '(c, k, p) := o in KeywordScanner.record text c k p st)
            occs st.

(** Two sequences of units that differ in the case of letters only. *)
Definition sameUpToCase (a b : list ascii) : Prop :=
  map Js.toLowerUnit a = map Js.toLowerUnit b.

Definition endsOutsideWord (pre : list ascii) : bool :=
  match rev pre with
  | [] => true
  | c :: _ => negb (RegExp.isWordChar c)
  end.

Definition startsOutsideWord (post : list ascii) : bool :=
  match post with
  | [] => true
  | c :: _ => negb (RegExp.isWordChar c)
  end.

(** [text] contains [phrase] as a whole word: an occurrence of the phrase,
    up to case, with no word character next to it on either side. *)
Definition containsWholeWord (phrase text : string) : Prop :=
  exists pre occ post,
    Js.units text = pre ++ occ ++ post /\
    sameUpToCase occ (Js.units phrase) /\
    endsOutsideWord pre = true /\
    startsOutsideWord post = true.

(** Every unit of the string is in the ASCII range. *)
Definition isAscii (s : string) : bool :=
  forallb (fun c => Js.code c <? 128) (Js.units s).

(** The phrase begins and ends with a word character. *)
Definition wordEdged (phrase : string) : bool :=
  match Js.units phrase with
  | [] => false
  | c :: _ => RegExp.isWordChar c
  end
  && match rev (Js.units phrase) with
     | [] => false
     | c :: _ => RegExp.isWordChar c
     end.

(** No array of phrases holds a phrase twice. *)
Fixpoint distinct (l : list string) : bool :=
  match l with
  | [] => true
  | x :: r => negb (Js.arrayIncludes r x) && distinct r
  end.

Definition distinctKeywords (cats : list KeywordCategory.t) : bool :=
  forallb (fun c => distinct (KeywordCategory.keywords c)) cats.

(** Some category stores the phrase [k], as written. *)
Definition stored (cats : list KeywordCategory.t) (k : string) : bool :=
  existsb (fun c => Js.arrayIncludes (KeywordCategory.keywords c) k) cats.





(** The largest rank of [severityRanks] in a list, [0] for none. *)
Definition rankMax (l : list Severity) : nat :=
  fold_right Nat.max 0 (map KeywordScanner.severityRanks l).

End Spec.

(** The combiner and the classifier, as the specification words them. *)

Module CombinerSpec.

Open Scope float_scope.

(** A ladder of tiers tested in priority order. *)
Definition ladder (isCritical isHigh isMedium : bool) : Severity :=
  if isCritical then critical
  else if isHigh then high
  else if isMedium then medium
  else low.

(** The overall severity: critical for a critical keyword severity or a
    suspicious verdict of confidence at least 0.8, then high likewise at
    0.6, then medium for a medium keyword severity or any suspicious
    verdict, else low. *)
Definition overallSeverity (keywordSeverity : Severity) (suspicious : bool)
           (confidence : float) : Severity :=
  ladder (Severity_eqb keywordSeverity critical || (suspicious && (0.8 <=? confidence)))
         (Severity_eqb keywordSeverity high || (suspicious && (0.6 <=? confidence)))
         (Severity_eqb keywordSeverity medium || suspicious).

(** The suspicion flag: a flagged keyword result of severity other than
    low, or a suspicious verdict, or a blended score across the threshold. *)
Definition isSuspicious (d : DetectionResult.t) (v : AIVerdict.t)
           (crossesThreshold : bool) : bool :=
  (DetectionResult.flagged d && negb (Severity_eqb (DetectionResult.severity d) low))
  || AIVerdict.isSuspicious v
  || crossesThreshold.

(** [Math.max]. *)
Definition max (a b : float) : float :=
  if is_nan a || is_nan b then nan
  else if a <? b then b
  else if b <? a then a
  else if get_sign a then b else a.

(** The raw keyword score capped at the expected maximum of 200 and
    clamped to [0,1]. *)
Definition normalizedKeywordScore (rawScore : float) : float :=
  max 0 (Number.min (Number.min rawScore 200 / 200) 1).

(** The blend of the two signals on the scale [0,1]. *)
Definition finalScore (d : DetectionResult.t) (v : AIVerdict.t) : float :=
  0.6 * normalizedKeywordScore (Number.ofZ (DetectionResult.score d))
  + 0.4 * AIVerdict.confidence v.

(** The body the specification expects of the service: an object whose
    fields [isSuspicious], [reason] and [confidence], each of which may be
    missing, are a boolean, a string and a number. *)
Definition isBool (v : Json.t) : bool :=
  match v with Json.JBool _ => true | _ => false end.

Definition isString (v : Json.t) : bool :=
  match v with Json.JString _ => true | _ => false end.

Definition isNumber (v : Json.t) : bool :=
  match v with Json.JNumber _ => true | _ => false end.

Definition ofType (isType : Json.t -> bool) (field : option Json.t) : bool :=
  match field with
  | Some v => isType v
  | None => true
  end.

Definition wellFormed (data : Json.t) : bool :=
  match data with
  | Json.JObject _ =>
      ofType isBool (Json.field data "isSuspicious")
      && ofType isString (Json.field data "reason")
      && ofType isNumber (Json.field data "confidence")
  | _ => false
  end.

(** A delegated request that fails in the specification's sense: transport
    error, non-success status, or malformed response. *)
Definition failed (reply : Delegated.Reply) : bool :=
  match reply with
  | Delegated.Rejected => true
  | Delegated.Answered false _ => true
  | Delegated.Answered true None => true
  | Delegated.Answered true (Some data) => negb (wellFormed data)
  end.

(** The failures that the code recovers from: transport error,
    non-success status, a body that is not JSON, and the JSON value
    [null]. *)
Definition throws (reply : Delegated.Reply) : bool :=
  match reply with
  | Delegated.Rejected => true
  | Delegated.Answered false _ => true
  | Delegated.Answered true None => true
  | Delegated.Answered true (Some Json.JNull) => true
  | Delegated.Answered true (Some _) => false
  end.

(** The verdict read off a body: each field the body's value of that name
    when it is truthy, and the default otherwise. *)
Definition fromFields (data : Json.t) : Delegated.Verdict :=
  Delegated.mkVerdict
    (Json.orDefault (Json.field data "isSuspicious") (Json.JBool false))
    (Json.orDefault (Json.field data "reason") (Json.JString "No explanation provided"))
    (Json.orDefault (Json.field data "confidence") (Json.JNumber 0.5)).

(** The reason of a heuristic verdict: the triggered fragments joined, or
    the fixed message when none triggered. *)
Definition reasonOf (reasons : list string) : string :=
  match reasons with
  | [] => AIClassifier.nothingDetected
  | _ :: _ => Js.join "; " reasons
  end.

(** The accumulation of [evaluateSignals], by the outcome of its eight
    tests ([long] is the length test of the last one). *)
Definition accumulate (urgency link verification suspension sensitive payment urls long : bool)
  : float * list string :=
  let acc := (0, @nil string) in
  let acc := AIClassifier.signal urgency 0.3 "Uses urgent language" acc in
  let acc := AIClassifier.signal link 0.25 "Contains clickable link request" acc in
  let acc := AIClassifier.signal verification 0.2 "Requests verification" acc in
  let acc := AIClassifier.signal suspension 0.4 "Threatens account suspension" acc in
  let acc := AIClassifier.signal sensitive 0.5 "Requests sensitive information" acc in
  let acc := AIClassifier.signal payment 0.6 "Requests unusual payment method" acc in
  let acc := AIClassifier.signal urls 0.2 "Contains multiple URLs" acc in
  let acc := AIClassifier.signal (long && (0.3 <? fst acc)) 0.1
                                 "Long message with suspicious content" acc in
  acc.

End CombinerSpec.

(** Further notions, for the properties of the code beside the claims. *)

Module Props.

(** Two details of the same match: same phrase, severity and offset. *)
Definition sameMatch (d d' : MatchDetail.t) : Prop :=
  MatchDetail.keyword d = MatchDetail.keyword d' /\
  MatchDetail.severity d = MatchDetail.severity d' /\
  MatchDetail.position d = MatchDetail.position d'.

(** The units of [text] from [pos] on, [len] of them. *)
Definition slice (text : list ascii) (pos len : nat) : list ascii :=
  firstn len (skipn pos text).

(** Some stored phrase of a category of severity at least [s] occurs in
    the text as its pattern matches it. *)
Definition occursFrom (cats : list KeywordCategory.t) (text : string) (s : Severity) : Prop :=
  exists c k p,
    In c cats /\ In k (KeywordCategory.keywords c) /\
    (Spec.rank s <= Spec.rank (KeywordCategory.severity c))%nat /\
    (p <= String.length text)%nat /\
    Spec.occursAt k (Js.units text) p = true.

(** Every category has a weight of at least 1. *)
Definition positiveWeights (cats : list KeywordCategory.t) : bool :=
  forallb (fun c => (1 <=? KeywordCategory.weight c)%Z) cats.

(** The severity and weight of each category, in order. *)
Definition skeleton (cats : list KeywordCategory.t) : list (Severity * Z) :=
  map (fun c => (KeywordCategory.severity c, KeywordCategory.weight c)) cats.

(** A call of one of the two mutators. *)
Inductive Op : Type :=
| Add (keyword : string) (sev : Severity) (weight : option Z)
| Remove (keyword : string).

Definition apply (cats : list KeywordCategory.t) (op : Op) : list KeywordCategory.t :=
  match op with
  | Add keyword sev weight => KeywordScanner.addCustomKeyword keyword sev weight cats
  | Remove keyword => snd (KeywordScanner.removeKeyword keyword cats)
  end.

Definition run (ops : list Op) (cats : list KeywordCategory.t) : list KeywordCategory.t :=
  fold_left apply ops cats.

(** The storage after a sequence of analyses, each saved under its id. *)
Definition recordAll (entries : list Background.StoredAnalysis) (s : Background.Storage)
  : Background.Storage :=
  fold_left (fun st e => Background.record (fst e) (snd e) st) entries s.

(** The number of suspicious analyses among the entries. *)
Definition suspiciousCount (entries : list Background.StoredAnalysis) : nat :=
  List.length (filter (fun e => CombinedAnalysis.isSuspicious (fst e)) entries).

(** The tests of the heuristic evaluator on a message. *)
Definition mentions (message phrase : string) : bool :=
  Js.includes (Js.toLowerCase message) phrase.

(** A field that [||] replaces by the default: missing, or falsy. *)
Definition falsy (field : option Json.t) : bool :=
  match field with
  | Some v => negb (Json.truthy v)
  | None => true
  end.

(** Two loop states of [scan] that record the same matches. *)
Definition sameState (st st' : KeywordScanner.ScanState) : Prop :=
  KeywordScanner.totalScore st = KeywordScanner.totalScore st' /\
  KeywordScanner.matchedKeywords st = KeywordScanner.matchedKeywords st' /\
  Forall2 sameMatch (KeywordScanner.details st) (KeywordScanner.details st').

(** Two runs that both end, in states recording the same matches, or both
    do not. *)
Definition sameRun (o o' : option KeywordScanner.ScanState) : Prop :=
  match o, o' with
  | Some st, Some st' => sameState st st'
  | None, None => True
  | _, _ => False
  end.

End Props.

(* ================================================================== *)
(** * Proofs *)

(** ** Severities *)

Lemma Severity_eqb_eq (a b : Severity) : Severity_eqb a b = true <-> a = b.
Proof. destruct a, b; simpl; split; intro H; congruence. Qed.

Lemma Severity_eqb_refl (a : Severity) : Severity_eqb a a = true.
Proof. now destruct a. Qed.

Section Escalation.

Import KeywordScanner.
Open Scope nat_scope.

Lemma rankStep_fold (ds : list MatchDetail.t) :
  forall m c h,
    fold_left rankStep ds (m, c, h) =
    (Nat.max m (Spec.rankMax (map MatchDetail.severity ds)),
     c + Spec.countOf critical (map MatchDetail.severity ds),
     h + Spec.countOf high (map MatchDetail.severity ds)).
Proof.
  induction ds as [|d ds IH]; intros m c h.
  - cbn. now rewrite Nat.max_0_r, !Nat.add_0_r.
  - cbn [fold_left map]. unfold rankStep at 2. rewrite IH.
    unfold Spec.rankMax, Spec.countOf. cbn [map fold_right filter].
    destruct (MatchDetail.severity d); cbn [Severity_eqb severityRanks List.length];
      match goal with |- context [m <? ?r] => destruct (Nat.ltb_spec m r) end;
      rewrite !pair_equal_spec; repeat split; lia.
Qed.

Lemma rankMax_highest (l : list Severity) :
  l <> [] -> Spec.rankMax l = severityRanks (Spec.highest l).
Proof.
  induction l as [|a l IH]; [congruence|intros _].
  destruct l as [|b l].
  - now destruct a.
  - specialize (IH ltac:(discriminate)).
    change (Spec.rankMax (a :: b :: l))
      with (Nat.max (severityRanks a) (Spec.rankMax (b :: l))).
    change (Spec.highest (a :: b :: l)) with (Spec.maxSeverity a (Spec.highest (b :: l))).
    rewrite IH. now destruct a, (Spec.highest (b :: l)).
Qed.

(** The loop of [calculateOverallSeverity] computes the escalation policy. *)
Lemma calculateOverallSeverity_escalate (ds : list MatchDetail.t) :
  calculateOverallSeverity ds = Spec.escalate (map MatchDetail.severity ds).
Proof.
  unfold calculateOverallSeverity, Spec.escalate.
  destruct ds as [|d ds]; [reflexivity|].
  cbn [List.length Nat.eqb]. rewrite rankStep_fold. cbn [Nat.add Nat.max].
  destruct (_ || _); [reflexivity|].
  rewrite rankMax_highest by discriminate.
  now destruct (Spec.highest _).
Qed.

Lemma maxSeverity_swap (a b c : Severity) :
  Spec.maxSeverity a (Spec.maxSeverity b c) = Spec.maxSeverity b (Spec.maxSeverity a c).
Proof. now destruct a, b, c. Qed.

Lemma highest_Permutation (l l' : list Severity) :
  Permutation l l' -> Spec.highest l = Spec.highest l'.
Proof.
  induction 1; cbn [Spec.highest fold_right] in *.
  - reflexivity.
  - now f_equal.
  - apply maxSeverity_swap.
  - congruence.
Qed.

Lemma countOf_Permutation (s : Severity) (l l' : list Severity) :
  Permutation l l' -> Spec.countOf s l = Spec.countOf s l'.
Proof.
  intro H. unfold Spec.countOf.
  apply Permutation_length.
  induction H; cbn; try (destruct (Severity_eqb s x)); auto.
  - destruct (Severity_eqb s y); auto. apply perm_swap.
  - eapply perm_trans; eauto.
Qed.

Lemma escalate_Permutation (l l' : list Severity) :
  Permutation l l' -> Spec.escalate l = Spec.escalate l'.
Proof.
  intro H. unfold Spec.escalate.
  now rewrite (countOf_Permutation critical _ _ H), (countOf_Permutation high _ _ H),
    (highest_Permutation _ _ H).
Qed.

Lemma highest_critical (l : list Severity) :
  1 <= Spec.countOf critical l -> Spec.highest l = critical.
Proof.
  unfold Spec.countOf. induction l as [|a l IH]; cbn [filter List.length]; [lia|].
  change (Spec.highest (a :: l)) with (Spec.maxSeverity a (Spec.highest l)).
  destruct a; cbn [Severity_eqb]; intro H;
    try (rewrite (IH H); reflexivity).
  now destruct (Spec.highest l).
Qed.

(** The escalation never lifts the result above the highest severity
    present: a critical detail already makes the maximum critical. *)
Lemma escalate_highest (l : list Severity) : Spec.escalate l = Spec.highest l.
Proof.
  unfold Spec.escalate.
  destruct (Nat.leb_spec 1 (Spec.countOf critical l)) as [H|H].
  - rewrite (highest_critical l H). now destruct (_ || _).
  - destruct (Nat.leb_spec 2 (Spec.countOf critical l)); [lia|reflexivity].
Qed.

End Escalation.

(** ** Strings and the regular expression of a keyword *)

Section Patterns.

Import RegExp.
Open Scope nat_scope.

Lemma units_append (a b : string) :
  Js.units (String.append a b) = Js.units a ++ Js.units b.
Proof. induction a as [|c a IH]; cbn; [reflexivity|now f_equal]. Qed.

Lemma units_ofUnits (l : list ascii) : Js.units (Js.ofUnits l) = l.
Proof. apply list_ascii_of_string_of_list_ascii. Qed.

Lemma ofUnits_units (s : string) : Js.ofUnits (Js.units s) = s.
Proof. apply string_of_list_ascii_of_string. Qed.

Lemma length_units (s : string) : List.length (Js.units s) = String.length s.
Proof. induction s as [|c s IH]; cbn; [reflexivity|now f_equal]. Qed.

Lemma isMeta_not_b (c : ascii) : isMeta c = true -> Ascii.eqb c "b" = false.
Proof.
  destruct (Ascii.eqb_spec c "b") as [->|]; [|reflexivity].
  vm_compute. congruence.
Qed.

Lemma not_isMeta_not_backslash (c : ascii) :
  isMeta c = false -> Ascii.eqb c backslash = false.
Proof.
  destruct (Ascii.eqb_spec c backslash) as [->|]; [|reflexivity].
  vm_compute. congruence.
Qed.

(** Escaped units compile to themselves, as literals. *)
Lemma compileUnits_escaped (l rest : list ascii) :
  compileUnits
    (flat_map (fun c => if isMeta c then [backslash; c] else [c]) l ++ rest) =
  option_map (app (map Literal l)) (compileUnits rest).
Proof.
  induction l as [|c l IH]; cbn [flat_map map app].
  - now destruct (compileUnits rest).
  - destruct (isMeta c) eqn:Hm; cbn [app compileUnits].
    + rewrite Ascii.eqb_refl, (isMeta_not_b _ Hm), Hm, IH.
      now destruct (compileUnits rest).
    + rewrite (not_isMeta_not_backslash _ Hm), Hm, IH.
      now destruct (compileUnits rest).
Qed.

(** Metacharacters of a keyword are matched as literal text. *)
Lemma compile_regexSource (keyword : string) :
  compile (KeywordScanner.regexSource keyword) = Some (Spec.wordPattern keyword).
Proof.
  unfold compile, KeywordScanner.regexSource, KeywordScanner.escapeRegex.
  rewrite !units_append, units_ofUnits.
  change (Js.units "\b") with [backslash; "b"%char].
  cbn [app compileUnits]. rewrite Ascii.eqb_refl. cbn [Ascii.eqb Bool.eqb andb].
  rewrite compileUnits_escaped. reflexivity.
Qed.

Lemma matchAt_literals (l : list ascii) (rest : RegExp.t) (text : list ascii) :
  forall pos,
    matchAt (map Literal l ++ rest) text pos =
    if Spec.literalsAt l text pos then matchAt rest text (pos + List.length l) else None.
Proof.
  induction l as [|c l IH]; intro pos; cbn [map app matchAt Spec.literalsAt List.length].
  - now rewrite Nat.add_0_r.
  - destruct (nth_error text pos) as [d|]; [|reflexivity].
    destruct (Ascii.eqb _ _); [|reflexivity].
    cbn [andb]. rewrite IH. now rewrite Nat.add_succ_r.
Qed.

Lemma matchAt_wordPattern (keyword : string) (text : list ascii) (pos : nat) :
  matchAt (Spec.wordPattern keyword) text pos =
  if Spec.occursAt keyword text pos
  then Some (pos + List.length (Js.units keyword)) else None.
Proof.
  unfold Spec.wordPattern, Spec.occursAt. cbn [matchAt].
  destruct (isBoundary text pos); [|reflexivity].
  rewrite matchAt_literals. cbn [andb].
  destruct (Spec.literalsAt _ _ _); [|reflexivity].
  cbn [matchAt andb]. now destruct (isBoundary _ _).
Qed.

Lemma literalsAt_bound (l text : list ascii) :
  forall pos,
    Spec.literalsAt l text pos = true -> pos <= List.length text ->
    pos + List.length l <= List.length text.
Proof.
  induction l as [|c l IH]; intros pos H Hp; cbn in *; [lia|].
  destruct (nth_error text pos) as [d|] eqn:Hn; [|discriminate].
  assert (pos < List.length text) by (apply nth_error_Some; congruence).
  apply andb_true_iff in H as [_ H]. apply IH in H; lia.
Qed.

Lemma searchFrom_Some (re : RegExp.t) (text : list ascii) (n : nat) :
  forall i p e,
    searchFrom n re text i = Some (p, e) ->
    i <= p < i + n /\ matchAt re text p = Some e /\
    forall j, i <= j < p -> matchAt re text j = None.
Proof.
  induction n as [|n IH]; intros i p e H; cbn in H; [discriminate|].
  destruct (matchAt re text i) as [e'|] eqn:Hm.
  - inversion H; subst. repeat split; try lia. exact Hm.
  - apply IH in H as (Hr & Hp & Hj). repeat split; try lia; [exact Hp|].
    intros j Hji. destruct (Nat.eq_dec j i) as [->|]; [exact Hm|apply Hj; lia].
Qed.

Lemma searchFrom_None (re : RegExp.t) (text : list ascii) (n : nat) :
  forall i,
    searchFrom n re text i = None ->
    forall j, i <= j < i + n -> matchAt re text j = None.
Proof.
  induction n as [|n IH]; intros i H j Hj; [lia|]. cbn in H.
  destruct (matchAt re text i) eqn:Hm; [discriminate|].
  destruct (Nat.eq_dec j i) as [->|]; [exact Hm|]. apply (IH (S i)); [exact H|lia].
Qed.

Lemma exec_Some (re : RegExp.t) (text : list ascii) (lastIndex p e : nat) :
  exec re text lastIndex = Some (p, e) ->
  lastIndex <= p <= List.length text /\ matchAt re text p = Some e /\
  forall j, lastIndex <= j < p -> matchAt re text j = None.
Proof.
  unfold exec. destruct (Nat.ltb_spec (List.length text) lastIndex); [discriminate|].
  intro H0. apply searchFrom_Some in H0 as (Hr & Hp & Hj).
  repeat split; try lia; assumption.
Qed.

Lemma exec_None (re : RegExp.t) (text : list ascii) (lastIndex : nat) :
  exec re text lastIndex = None ->
  forall j, lastIndex <= j <= List.length text -> matchAt re text j = None.
Proof.
  unfold exec. destruct (Nat.ltb_spec (List.length text) lastIndex); [lia|].
  intros H0 j Hj. apply (searchFrom_None _ _ _ _ H0). lia.
Qed.

(** A match of a keyword's pattern spans the keyword's length. *)
Lemma exec_wordPattern (keyword : string) (text : list ascii) (lastIndex p e : nat) :
  exec (Spec.wordPattern keyword) text lastIndex = Some (p, e) ->
  lastIndex <= p /\ e = p + String.length keyword /\ e <= List.length text /\
  Spec.occursAt keyword text p = true.
Proof.
  intro H. apply exec_Some in H as (Hr & Hm & _).
  rewrite matchAt_wordPattern in Hm.
  destruct (Spec.occursAt keyword text p) eqn:Ho; [|discriminate].
  inversion Hm; subst. rewrite length_units.
  unfold Spec.occursAt in Ho. apply andb_true_iff in Ho as [Ho _].
  apply andb_true_iff in Ho as [_ Ho]. apply literalsAt_bound in Ho; [|lia].
  rewrite length_units in Ho. repeat split; lia.
Qed.

Lemma isBoundary_le (text : list ascii) (p : nat) :
  RegExp.isBoundary text p = true -> p <= List.length text.
Proof.
  intros H. destruct (Nat.le_gt_cases p (List.length text)) as [|Hgt]; [assumption|].
  exfalso. unfold RegExp.isBoundary, RegExp.wordAt in H.
  rewrite (proj2 (nth_error_None text p)) in H by lia.
  destruct p as [|q]; [discriminate|].
  rewrite (proj2 (nth_error_None text q)) in H by lia. discriminate.
Qed.

Lemma occursAt_le (keyword : string) (text : list ascii) (p : nat) :
  Spec.occursAt keyword text p = true -> p <= List.length text.
Proof.
  unfold Spec.occursAt. intros H. apply andb_true_iff in H as [H _].
  apply andb_true_iff in H as [H _]. now apply isBoundary_le.
Qed.

Lemma nonEmptyKeywords_iff (cats : list KeywordCategory.t) :
  Spec.nonEmptyKeywords cats = true <->
  forall c k, In c cats -> In k (KeywordCategory.keywords c) -> k <> "".
Proof.
  unfold Spec.nonEmptyKeywords. rewrite forallb_forall. split.
  - intros H c k Hc Hk. specialize (H c Hc). rewrite forallb_forall in H.
    specialize (H k Hk). intros ->. discriminate.
  - intros H c Hc. apply forallb_forall. intros k Hk.
    destruct (String.eqb_spec k ""); [|reflexivity]. exfalso. eapply H; eauto.
Qed.

End Patterns.

(** ** The loops of [scan] *)

Section ScanLoops.

Import KeywordScanner.
Open Scope nat_scope.

Variable fuel : nat.
Variable text : string.

Lemma scanKeyword_step (category : KeywordCategory.t) (st : ScanState) (keyword : string) :
  scanKeyword fuel text category (Some st) keyword =
  whileExec fuel (Spec.wordPattern keyword) text category keyword 0 st.
Proof. unfold scanKeyword. now rewrite compile_regexSource. Qed.

Lemma scanKeywords_None (category : KeywordCategory.t) (kws : list string) :
  fold_left (scanKeyword fuel text category) kws None = None.
Proof. induction kws; cbn; auto. Qed.

Lemma scanCategories_None (cats : list KeywordCategory.t) :
  fold_left (scanCategory fuel text) cats None = None.
Proof.
  induction cats as [|c cats IH]; cbn; [reflexivity|].
  unfold scanCategory at 2. now rewrite scanKeywords_None.
Qed.

(** Every iteration of the [while] loop records a whole-word occurrence
    of the keyword. *)
Lemma whileExec_ind (P : ScanState -> Prop) (category : KeywordCategory.t)
      (keyword : string) :
  (forall pos st,
      Spec.occursAt keyword (Js.units text) pos = true ->
      P st -> P (record text category keyword pos st)) ->
  forall n lastIndex st st',
    P st ->
    whileExec n (Spec.wordPattern keyword) text category keyword lastIndex st = Some st' ->
    P st'.
Proof.
  intros Hstep. induction n as [|n IH]; intros lastIndex st st' HP H; [discriminate|].
  cbn [whileExec] in H.
  destruct (RegExp.exec _ _ lastIndex) as [[p e]|] eqn:He.
  - apply exec_wordPattern in He as (_ & _ & _ & Ho).
    eapply IH; [|exact H]. now apply Hstep.
  - now inversion H; subst.
Qed.

Lemma scanKeywords_ind (P : ScanState -> Prop) (category : KeywordCategory.t)
      (kws : list string) :
  (forall keyword pos st,
      In keyword kws ->
      Spec.occursAt keyword (Js.units text) pos = true ->
      P st -> P (record text category keyword pos st)) ->
  forall st st',
    P st ->
    fold_left (scanKeyword fuel text category) kws (Some st) = Some st' ->
    P st'.
Proof.
  induction kws as [|k kws IH]; intros Hstep st st' HP H; cbn [fold_left] in H.
  - now inversion H; subst.
  - rewrite scanKeyword_step in H.
    destruct (whileExec fuel _ text category k 0 st) as [st1|] eqn:Hw;
      [|now rewrite scanKeywords_None in H].
    eapply IH; [| |exact H].
    + intros; apply Hstep; auto. now right.
    + eapply whileExec_ind; [|exact HP|exact Hw].
      intros; apply Hstep; auto. now left.
Qed.

Lemma scanCategories_ind (P : ScanState -> Prop) (cats : list KeywordCategory.t) :
  (forall category keyword pos st,
      In category cats -> In keyword (KeywordCategory.keywords category) ->
      Spec.occursAt keyword (Js.units text) pos = true ->
      P st -> P (record text category keyword pos st)) ->
  forall st st',
    P st ->
    fold_left (scanCategory fuel text) cats (Some st) = Some st' ->
    P st'.
Proof.
  induction cats as [|c cats IH]; intros Hstep st st' HP H; cbn [fold_left] in H.
  - now inversion H; subst.
  - destruct (scanCategory fuel text (Some st) c) as [st1|] eqn:Hc;
      [|now rewrite scanCategories_None in H].
    eapply IH; [| |exact H].
    + intros; eapply Hstep; eauto. now right.
    + eapply scanKeywords_ind; [|exact HP|exact Hc].
      intros; eapply Hstep; eauto. now left.
Qed.

(** The loop for a non-empty keyword ends: every match moves [lastIndex]
    forward. *)
Lemma whileExec_total (category : KeywordCategory.t) (keyword : string) :
  keyword <> "" ->
  forall n lastIndex st,
    0 < n -> String.length text < n + lastIndex ->
    exists st',
      whileExec n (Spec.wordPattern keyword) text category keyword lastIndex st = Some st'.
Proof.
  intros Hne.
  assert (0 < String.length keyword) by (destruct keyword; cbn; [congruence|lia]).
  induction n as [|n IH]; intros lastIndex st H0 Hn; [lia|]. cbn [whileExec].
  destruct (RegExp.exec _ _ lastIndex) as [[p e]|] eqn:He; [|eauto].
  apply exec_wordPattern in He as (Hp & -> & He & _). rewrite length_units in He.
  apply IH; lia.
Qed.

Lemma scanKeywords_total (category : KeywordCategory.t) (kws : list string) :
  forallb (fun k => negb (String.eqb k "")) kws = true ->
  String.length text < fuel ->
  forall st, exists st',
    fold_left (scanKeyword fuel text category) kws (Some st) = Some st'.
Proof.
  intros Hk Hf. induction kws as [|k kws IH]; intro st; cbn [fold_left]; [eauto|].
  cbn [forallb] in Hk. apply andb_true_iff in Hk as [Hk Hks].
  rewrite scanKeyword_step.
  destruct (whileExec_total category k) with (n := fuel) (lastIndex := 0) (st := st)
    as [st1 ->]; try lia.
  - intros ->. discriminate.
  - now apply IH.
Qed.

Lemma scanCategories_total (cats : list KeywordCategory.t) :
  Spec.nonEmptyKeywords cats = true ->
  String.length text < fuel ->
  forall st, exists st',
    fold_left (scanCategory fuel text) cats (Some st) = Some st'.
Proof.
  intros Hk Hf. induction cats as [|c cats IH]; intro st; cbn [fold_left]; [eauto|].
  cbn [Spec.nonEmptyKeywords forallb] in Hk. apply andb_true_iff in Hk as [Hk Hks].
  destruct (scanKeywords_total c _ Hk Hf st) as [st1 H1].
  unfold scanCategory at 2. rewrite H1. now apply IH.
Qed.

(** [scan] returns a result when no phrase is empty. *)
Lemma scan_total (cats : list KeywordCategory.t) :
  Spec.nonEmptyKeywords cats = true ->
  String.length text < fuel ->
  exists r, scan fuel cats text = Some r.
Proof.
  intros Hk Hf. unfold scan.
  destruct (scanCategories_total cats Hk Hf initialState) as [st ->]. eauto.
Qed.

(** What [scan] returns, in terms of the final loop state. *)
Lemma scan_Some (cats : list KeywordCategory.t) (r : DetectionResult.t) :
  scan fuel cats text = Some r ->
  exists st,
    fold_left (scanCategory fuel text) cats (Some initialState) = Some st /\
    r = DetectionResult.mk (0 <? List.length (details st)) (totalScore st)
                           (matchedKeywords st)
                           (calculateOverallSeverity (details st)) (details st).
Proof.
  unfold scan. destruct (fold_left _ _ _) as [st|]; [|discriminate].
  intro H. inversion H. eauto.
Qed.

End ScanLoops.

(** ** The overall severity and the score of a scan *)

Section ScanResults.

Import KeywordScanner.
Open Scope nat_scope.

Lemma scan_severity (fuel : nat) (cats : list KeywordCategory.t) (text : string)
      (r : DetectionResult.t) :
  scan fuel cats text = Some r ->
  DetectionResult.severity r = calculateOverallSeverity (DetectionResult.details r).
Proof. intro H. apply scan_Some in H as (st & _ & ->). reflexivity. Qed.

(** *** The loops record every match occurrence *)

Lemma matchesFrom_skip (keyword : string) (t : list ascii) :
  forall skip n i,
    Spec.matchesFrom keyword t n i skip =
    Spec.matchesFrom keyword t (n - skip) (i + skip) 0.
Proof.
  induction skip as [|k IH]; intros n i.
  - now rewrite Nat.sub_0_r, Nat.add_0_r.
  - destruct n as [|n]; [reflexivity|]. cbn [Spec.matchesFrom]. rewrite IH.
    now rewrite Nat.add_succ_r.
Qed.

(** The offsets are those that the search of [exec] finds. *)
Lemma matchesFrom_search (keyword : string) (t : list ascii) (n : nat) :
  forall i,
    Spec.matchesFrom keyword t n i 0 =
    match RegExp.searchFrom n (Spec.wordPattern keyword) t i with
    | None => []
    | Some (p, e) =>
        p :: Spec.matchesFrom keyword t (i + n - S p) (S p)
                              (List.length (Js.units keyword) - 1)
    end.
Proof.
  induction n as [|n IH]; intro i; [reflexivity|].
  cbn [Spec.matchesFrom RegExp.searchFrom]. rewrite matchAt_wordPattern.
  destruct (Spec.occursAt keyword t i).
  - replace (i + S n - S i) with n by lia. reflexivity.
  - rewrite IH. destruct (RegExp.searchFrom _ _ _ _) as [[p e]|]; [|reflexivity].
    replace (S i + n - S p) with (i + S n - S p) by lia. reflexivity.
Qed.

Lemma matchesFrom_sound (keyword : string) (t : list ascii) :
  forall n i skip p,
    In p (Spec.matchesFrom keyword t n i skip) ->
    i + skip <= p < i + n /\ Spec.occursAt keyword t p = true.
Proof.
  induction n as [|n IH]; intros i skip p H; [destruct H|].
  cbn [Spec.matchesFrom] in H. destruct skip as [|k].
  - destruct (Spec.occursAt keyword t i) eqn:Ho.
    + destruct H as [<-|H]; [split; [lia|exact Ho]|].
      apply IH in H as [H1 H2]. split; [lia|exact H2].
    + apply IH in H as [H1 H2]. split; [lia|exact H2].
  - apply IH in H as [H1 H2]. split; [lia|exact H2].
Qed.

(** An occurrence is among the offsets, unless it begins inside an
    earlier one. *)
Lemma matchesFrom_complete (keyword : string) (t : list ascii) :
  0 < List.length (Js.units keyword) ->
  forall n i skip q,
    i + skip <= q < i + n ->
    Spec.occursAt keyword t q = true ->
    In q (Spec.matchesFrom keyword t n i skip) \/
    exists p, In p (Spec.matchesFrom keyword t n i skip) /\
              p < q < p + List.length (Js.units keyword).
Proof.
  intros Hlen. induction n as [|n IH]; intros i skip q Hq Ho; [lia|].
  cbn [Spec.matchesFrom]. destruct skip as [|k].
  - destruct (Spec.occursAt keyword t i) eqn:Hi.
    + destruct (Nat.eq_dec q i) as [->|Hne]; [left; now left|].
      destruct (Nat.lt_ge_cases q (i + List.length (Js.units keyword))) as [Hin|Hout].
      * right. exists i. split; [now left|lia].
      * destruct (IH (S i) (List.length (Js.units keyword) - 1) q) as [H|(p & H & Hp)];
          [lia|exact Ho| |].
        -- left. now right.
        -- right. exists p. split; [now right|exact Hp].
    + assert (q <> i) by (intros ->; congruence).
      apply IH; [lia|exact Ho].
  - apply IH; [lia|exact Ho].
Qed.

Lemma recordEach_app (text : string) (a b : list Spec.Occurrence) (st : ScanState) :
  Spec.recordEach text (a ++ b) st = Spec.recordEach text b (Spec.recordEach text a st).
Proof. apply fold_left_app. Qed.

Lemma recordEach_offsets (text : string) (c : KeywordCategory.t) (k : string)
      (ps : list nat) :
  forall st,
    fold_left (fun st p => record text c k p st) ps st =
    Spec.recordEach text (map (fun p => (c, k, p)) ps) st.
Proof. induction ps as [|p ps IH]; intro st; cbn; [reflexivity|apply IH]. Qed.

(** The [while] loop of a non-empty phrase records the phrase at each of
    its offsets from [lastIndex] on, and ends. *)
Lemma whileExec_offsets (text : string) (category : KeywordCategory.t) (keyword : string) :
  keyword <> "" ->
  forall fuel lastIndex st,
    0 < fuel -> String.length text < fuel + lastIndex ->
    whileExec fuel (Spec.wordPattern keyword) text category keyword lastIndex st =
    Some (fold_left (fun st p => record text category keyword p st)
                    (Spec.matchesFrom keyword (Js.units text)
                                      (S (String.length text) - lastIndex) lastIndex 0)
                    st).
Proof.
  intros Hne.
  assert (Hlen : 0 < String.length keyword) by (destruct keyword; cbn; [congruence|lia]).
  induction fuel as [|fuel IH]; intros lastIndex st H0 Hn; [lia|]. cbn [whileExec].
  destruct (RegExp.exec _ _ lastIndex) as [[p e]|] eqn:He.
  - pose proof (exec_wordPattern _ _ _ _ _ He) as (Hp & -> & Hle & _).
    rewrite length_units in Hle.
    unfold RegExp.exec in He. rewrite length_units in He.
    destruct (Nat.ltb_spec (String.length text) lastIndex) as [|Hli]; [discriminate|].
    rewrite matchesFrom_search, He. cbn [fold_left].
    rewrite matchesFrom_skip, length_units.
    replace (lastIndex + (S (String.length text) - lastIndex) - S p
             - (String.length keyword - 1))
      with (S (String.length text) - (p + String.length keyword)) by lia.
    replace (S p + (String.length keyword - 1)) with (p + String.length keyword) by lia.
    apply IH; lia.
  - unfold RegExp.exec in He. rewrite length_units in He.
    destruct (Nat.ltb_spec (String.length text) lastIndex) as [Hli|Hli].
    + replace (S (String.length text) - lastIndex) with 0 by lia. reflexivity.
    + rewrite matchesFrom_search, He. reflexivity.
Qed.

Lemma scanKeywords_offsets (fuel : nat) (text : string) (c : KeywordCategory.t)
      (kws : list string) :
  forallb (fun k => negb (String.eqb k "")) kws = true ->
  String.length text < fuel ->
  forall st,
    fold_left (scanKeyword fuel text c) kws (Some st) =
    Some (Spec.recordEach text
            (flat_map (fun k => map (fun p => (c, k, p)) (Spec.matchOffsets k text)) kws)
            st).
Proof.
  intros Hk Hf. induction kws as [|k kws IH]; intro st; [reflexivity|].
  cbn [forallb] in Hk. apply andb_true_iff in Hk as [Hk Hks].
  cbn [fold_left flat_map].
  rewrite scanKeyword_step, whileExec_offsets; try lia.
  - rewrite Nat.sub_0_r, recordEach_offsets, (IH Hks), recordEach_app. reflexivity.
  - intros ->. discriminate.
Qed.

(** The loops of [scan] record every match occurrence, in order. *)
Lemma scanCategories_offsets (fuel : nat) (text : string) (cats : list KeywordCategory.t) :
  Spec.nonEmptyKeywords cats = true ->
  String.length text < fuel ->
  forall st,
    fold_left (scanCategory fuel text) cats (Some st) =
    Some (Spec.recordEach text (Spec.occurrences cats text) st).
Proof.
  intros Hk Hf. induction cats as [|c cats IH]; intro st; [reflexivity|].
  cbn [Spec.nonEmptyKeywords forallb] in Hk. apply andb_true_iff in Hk as [Hk Hks].
  cbn [fold_left]. unfold scanCategory at 2.
  rewrite (scanKeywords_offsets _ _ _ _ Hk Hf), (IH Hks).
  unfold Spec.occurrences. cbn [flat_map]. now rewrite recordEach_app.
Qed.

Lemma recordEach_details (text : string) (occs : list Spec.Occurrence) :
  forall st,
    details (Spec.recordEach text occs st) = details st ++ map (Spec.detailOf text) occs.
Proof.
  induction occs as [|[[c k] p] occs IH]; intro st.
  - cbn. now rewrite app_nil_r.
  - change (Spec.recordEach text (((c, k), p) :: occs) st)
      with (Spec.recordEach text occs (record text c k p st)).
    rewrite IH. cbn [record details map Spec.detailOf]. now rewrite <- app_assoc.
Qed.

Lemma recordEach_totalScore (text : string) (occs : list Spec.Occurrence) :
  forall st,
    totalScore (Spec.recordEach text occs st) = (totalScore st + Spec.sumOfScores occs)%Z.
Proof.
  induction occs as [|[[c k] p] occs IH]; intro st.
  - cbn. lia.
  - change (Spec.recordEach text (((c, k), p) :: occs) st)
      with (Spec.recordEach text occs (record text c k p st)).
    rewrite IH.
    change (Spec.sumOfScores (((c, k), p) :: occs))
      with (Spec.matchScore (c, k, p) + Spec.sumOfScores occs)%Z.
    cbn [record totalScore Spec.matchScore]. lia.
Qed.

Lemma occurrences_In (cats : list KeywordCategory.t) (text : string)
      (c : KeywordCategory.t) (k : string) (p : nat) :
  In (c, k, p) (Spec.occurrences cats text) <->
  In c cats /\ In k (KeywordCategory.keywords c) /\ In p (Spec.matchOffsets k text).
Proof.
  unfold Spec.occurrences. rewrite in_flat_map. split.
  - intros (c' & Hc & H). apply in_flat_map in H as (k' & Hk & H).
    apply in_map_iff in H as (p' & He & Hp). inversion He; subst. auto.
  - intros (Hc & Hk & Hp). exists c. split; [exact Hc|].
    apply in_flat_map. exists k. split; [exact Hk|]. now apply in_map.
Qed.

End ScanResults.

(** C1. For every text, the overall severity of [scan text] is the
    escalation policy applied to the severities of its details: critical
    when at least two details are critical, or one is critical and one is
    high; otherwise the highest severity among the details; low when there
    are none. It does not depend on the order of the details. *)
Theorem scan_severity_escalation
        (cats : list KeywordCategory.t) (text : string) (fuel : nat) :
  Spec.nonEmptyKeywords cats = true ->
  (String.length text < fuel)%nat ->
  exists r,
    KeywordScanner.scan fuel cats text = Some r /\
    DetectionResult.severity r =
      Spec.escalate (map MatchDetail.severity (DetectionResult.details r)) /\
    (DetectionResult.details r = [] -> DetectionResult.severity r = low) /\
    (forall ds,
        Permutation (map MatchDetail.severity ds)
                    (map MatchDetail.severity (DetectionResult.details r)) ->
        KeywordScanner.calculateOverallSeverity ds = DetectionResult.severity r).
Proof.
  intros Hk Hf. destruct (scan_total fuel text cats Hk Hf) as [r Hr].
  exists r. pose proof (scan_severity _ _ _ _ Hr) as Hs.
  rewrite calculateOverallSeverity_escalate in Hs.
  repeat split; auto.
  - intros Hd. rewrite Hs, Hd. reflexivity.
  - intros ds Hp. rewrite Hs, calculateOverallSeverity_escalate.
    now apply escalate_Permutation.
Qed.

Lemma scan_severity_escalation_witness :
  exists r,
    KeywordScanner.scan 40 KeywordScanner.categories
                        "urgent: your password and SSN" = Some r /\
    DetectionResult.severity r =
      Spec.escalate (map MatchDetail.severity (DetectionResult.details r)) /\
    (DetectionResult.details r = [] -> DetectionResult.severity r = low) /\
    (forall ds,
        Permutation (map MatchDetail.severity ds)
                    (map MatchDetail.severity (DetectionResult.details r)) ->
        KeywordScanner.calculateOverallSeverity ds = DetectionResult.severity r).
Proof.
  apply (scan_severity_escalation KeywordScanner.categories
                                  "urgent: your password and SSN" 40).
  - reflexivity.
  - cbn. lia.
Defined.

(** C2. For every text, [scan text] reports every match occurrence, a
    phrase matched at several offsets once for each, and its score is the
    sum over these occurrences of the severity score of the occurrence's
    category times that category's weight, with severity scores low 1,
    medium 3, high 6, critical 10. The occurrences of a phrase are its
    whole-word occurrences in the text, but for one that begins inside an
    earlier occurrence of the same phrase. *)
Theorem scan_score_sums_every_occurrence
        (cats : list KeywordCategory.t) (text : string) (fuel : nat) :
  Spec.nonEmptyKeywords cats = true ->
  (String.length text < fuel)%nat ->
  exists r,
    KeywordScanner.scan fuel cats text = Some r /\
    DetectionResult.details r = map (Spec.detailOf text) (Spec.occurrences cats text) /\
    DetectionResult.score r = Spec.sumOfScores (Spec.occurrences cats text) /\
    (forall c k p,
        In (c, k, p) (Spec.occurrences cats text) ->
        In c cats /\ In k (KeywordCategory.keywords c) /\
        Spec.occursAt k (Js.units text) p = true) /\
    (forall c k p,
        In c cats -> In k (KeywordCategory.keywords c) ->
        Spec.occursAt k (Js.units text) p = true ->
        In (c, k, p) (Spec.occurrences cats text) \/
        exists p', In (c, k, p') (Spec.occurrences cats text) /\
                   (p' < p < p' + String.length k)%nat) /\
    KeywordScanner.severityScores low = 1%Z /\
    KeywordScanner.severityScores medium = 3%Z /\
    KeywordScanner.severityScores high = 6%Z /\
    KeywordScanner.severityScores critical = 10%Z.
Proof.
  intros Hk Hf. unfold KeywordScanner.scan.
  rewrite (scanCategories_offsets _ _ _ Hk Hf).
  eexists. split; [reflexivity|]. cbn [DetectionResult.details DetectionResult.score].
  rewrite recordEach_details, recordEach_totalScore.
  split; [reflexivity|]. split; [reflexivity|]. split; [|split; [|repeat split]].
  - intros c k p H. apply occurrences_In in H as (Hc & Hin & Hp).
    apply matchesFrom_sound in Hp as [_ Hp]. auto.
  - intros c k p Hc Hin Ho.
    assert (Hne : k <> "") by (eapply nonEmptyKeywords_iff; eauto).
    assert (Hlen : (0 < List.length (Js.units k))%nat)
      by (rewrite length_units; destruct k; cbn; [congruence|lia]).
    pose proof (occursAt_le _ _ _ Ho) as Hle. rewrite length_units in Hle.
    destruct (matchesFrom_complete k (Js.units text) Hlen
                (S (String.length text)) 0 0 p) as [H|(p' & H & Hp')];
      [lia|exact Ho| |].
    + left. apply occurrences_In. auto.
    + right. exists p'. rewrite length_units in Hp'. split; [|exact Hp'].
      apply occurrences_In. auto.
Qed.

Lemma scan_score_sums_every_occurrence_witness :
  (exists r,
    KeywordScanner.scan 40 KeywordScanner.categories
                        "irs says: refund, refund, refund" = Some r /\
    DetectionResult.details r =
      map (Spec.detailOf "irs says: refund, refund, refund")
          (Spec.occurrences KeywordScanner.categories "irs says: refund, refund, refund") /\
    DetectionResult.score r =
      Spec.sumOfScores
        (Spec.occurrences KeywordScanner.categories "irs says: refund, refund, refund") /\
    (forall c k p,
        In (c, k, p)
           (Spec.occurrences KeywordScanner.categories "irs says: refund, refund, refund") ->
        In c KeywordScanner.categories /\ In k (KeywordCategory.keywords c) /\
        Spec.occursAt k (Js.units "irs says: refund, refund, refund") p = true) /\
    (forall c k p,
        In c KeywordScanner.categories -> In k (KeywordCategory.keywords c) ->
        Spec.occursAt k (Js.units "irs says: refund, refund, refund") p = true ->
        In (c, k, p)
           (Spec.occurrences KeywordScanner.categories "irs says: refund, refund, refund") \/
        exists p',
          In (c, k, p')
             (Spec.occurrences KeywordScanner.categories "irs says: refund, refund, refund") /\
          (p' < p < p' + String.length k)%nat) /\
    KeywordScanner.severityScores low = 1%Z /\
    KeywordScanner.severityScores medium = 3%Z /\
    KeywordScanner.severityScores high = 6%Z /\
    KeywordScanner.severityScores critical = 10%Z) /\
  map (fun o => (snd (fst o), snd o))
      (Spec.occurrences KeywordScanner.categories "irs says: refund, refund, refund") =
    [("IRS", 0%nat); ("refund", 10%nat); ("refund", 18%nat); ("refund", 26%nat)] /\
  Spec.sumOfScores
    (Spec.occurrences KeywordScanner.categories "irs says: refund, refund, refund") = 108%Z.
Proof.
  split; [|split; vm_compute; reflexivity].
  apply (scan_score_sums_every_occurrence KeywordScanner.categories
                                          "irs says: refund, refund, refund" 40).
  - reflexivity.
  - cbn. lia.
Defined.

(** ** The heuristic evaluator *)

Section Heuristic.

Import AIClassifier.
Open Scope float_scope.

Lemma evaluateSignals_accumulate (message : string) :
  exists c1 c2 c3 c4 c5 c6 c7 long,
    evaluateSignals message = CombinerSpec.accumulate c1 c2 c3 c4 c5 c6 c7 long.
Proof. do 8 eexists. reflexivity. Qed.

(** Whatever triggers, the accumulated score capped at 1 lies in [0,1], and
    is at least 0.4 exactly when the score itself is. *)
Lemma accumulate_range (c1 c2 c3 c4 c5 c6 c7 long : bool) :
  let score := fst (CombinerSpec.accumulate c1 c2 c3 c4 c5 c6 c7 long) in
  (0 <=? Number.min score 1.0) = true /\
  (Number.min score 1.0 <=? 1) = true /\
  (0.4 <=? Number.min score 1.0) = (0.4 <=? score).
Proof.
  destruct c1, c2, c3, c4, c5, c6, c7, long; vm_compute; auto.
Qed.

Lemma accumulate_none (c1 c2 c3 c4 c5 c6 c7 long : bool) :
  snd (CombinerSpec.accumulate c1 c2 c3 c4 c5 c6 c7 long) = [] ->
  (0.4 <=? fst (CombinerSpec.accumulate c1 c2 c3 c4 c5 c6 c7 long)) = false.
Proof.
  destruct c1, c2, c3, c4, c5, c6, c7, long; vm_compute; congruence.
Qed.

(** The heuristic verdict has its confidence in [0,1]. *)
Lemma mockClassify_confidence_range (message : string) :
  (0 <=? AIVerdict.confidence (mockClassify message)) = true /\
  (AIVerdict.confidence (mockClassify message) <=? 1) = true.
Proof.
  destruct (evaluateSignals_accumulate message) as (c1 & c2 & c3 & c4 & c5 & c6 & c7 & l & H).
  unfold mockClassify. rewrite H.
  destruct (accumulate_range c1 c2 c3 c4 c5 c6 c7 l) as (H0 & H1 & _).
  destruct (CombinerSpec.accumulate _ _ _ _ _ _ _ _) as [score reasons].
  cbn in *. auto.
Qed.

End Heuristic.

(** ** The combined analysis *)

Section Combiners.

Open Scope float_scope.

Lemma ladder_cases (c h m : bool) :
  (CombinerSpec.ladder c h m = critical <-> c = true) /\
  (CombinerSpec.ladder c h m = high <-> c = false /\ h = true) /\
  (CombinerSpec.ladder c h m = medium <-> c = false /\ h = false /\ m = true) /\
  (CombinerSpec.ladder c h m = low <-> c = false /\ h = false /\ m = false).
Proof.
  destruct c, h, m; cbn; repeat split; try tauto; try discriminate;
    intros; repeat match goal with H : _ /\ _ |- _ => destruct H end; discriminate.
Qed.

(** On numbers, [a >= b] is [a > b || a == b]. *)
Lemma leb_ltb_eqb (a b : float) : (a <=? b) = (a <? b) || (a =? b).
Proof.
  rewrite leb_spec, ltb_spec, eqb_spec.
  unfold SFleb, SFltb, SFeqb. destruct (SFcompare _ _) as [[]|]; reflexivity.
Qed.

(** Away from the two thresholds themselves, [combineResults] follows the
    ladder of the specification. *)
Lemma combineResults_off_threshold (d : DetectionResult.t) (v : AIVerdict.t) :
  (0.8 =? AIVerdict.confidence v) = false ->
  (0.6 =? AIVerdict.confidence v) = false ->
  CombinedAnalysis.overallSeverity (BackgroundCombine.combineResults d v) =
  CombinerSpec.overallSeverity (DetectionResult.severity d) (AIVerdict.isSuspicious v)
                               (AIVerdict.confidence v).
Proof.
  intros H8 H6. unfold BackgroundCombine.combineResults, CombinerSpec.overallSeverity,
    CombinerSpec.ladder. cbn [CombinedAnalysis.overallSeverity].
  now rewrite !leb_ltb_eqb, H8, H6, !orb_false_r.
Qed.

End Combiners.

(** C3, amended. [combineResults] grades critical when the keyword severity
    is critical or the verdict is suspicious with confidence strictly above
    0.8; otherwise high when the keyword severity is high or the verdict is
    suspicious with confidence strictly above 0.6; otherwise medium when the
    keyword severity is medium or the verdict is suspicious; otherwise low.
    [analyzeText] of background.ts runs the ladder on the blended score:
    critical when the keyword severity is critical or the verdict is
    suspicious and the blended score is at least 0.8; otherwise high
    likewise at 0.6; otherwise medium when the keyword severity is medium or
    the blended score is at least 0.4; otherwise low. *)
Theorem overall_severity_ladders (d : DetectionResult.t) (v : AIVerdict.t) :
  let sev := DetectionResult.severity d in
  let suspicious := AIVerdict.isSuspicious v in
  let confidence := AIVerdict.confidence v in
  let blended := CombinedAnalysis.finalScore (Background.analyzeText d v) in
  CombinedAnalysis.overallSeverity (BackgroundCombine.combineResults d v) =
    CombinerSpec.ladder
      (Severity_eqb sev critical || (suspicious && (0.8 <? confidence)%float))
      (Severity_eqb sev high || (suspicious && (0.6 <? confidence)%float))
      (Severity_eqb sev medium || suspicious) /\
  CombinedAnalysis.overallSeverity (Background.analyzeText d v) =
    CombinerSpec.ladder
      (Severity_eqb sev critical || (suspicious && (0.8 <=? blended)%float))
      (Severity_eqb sev high || (suspicious && (0.6 <=? blended)%float))
      (Severity_eqb sev medium || (0.4 <=? blended)%float).
Proof.
  cbv zeta. split.
  - unfold BackgroundCombine.combineResults, CombinerSpec.ladder. reflexivity.
  - unfold Background.analyzeText, Background.determineOverallSeverity,
      CombinerSpec.ladder. reflexivity.
Qed.

(** C3 as stated fails: on the text below the scanner finds nothing, the
    heuristic verdict is suspicious with confidence exactly 0.8, so the
    stated ladder gives critical; [combineResults] gives high and
    [analyzeText] gives low. *)
Lemma overall_severity_at_threshold :
  exists r,
    KeywordScanner.scan 30 KeywordScanner.categories "urgently passwords" = Some r /\
    let v := AIClassifier.mockClassify "urgently passwords" in
    DetectionResult.severity r = low /\
    AIVerdict.isSuspicious v = true /\
    AIVerdict.confidence v = 0.8%float /\
    CombinerSpec.overallSeverity (DetectionResult.severity r) (AIVerdict.isSuspicious v)
                                 (AIVerdict.confidence v) = critical /\
    CombinedAnalysis.overallSeverity (BackgroundCombine.combineResults r v) = high /\
    CombinedAnalysis.overallSeverity (Background.analyzeText r v) = low.
Proof.
  eexists. split; [vm_compute; reflexivity|].
  vm_compute. repeat split.
Qed.

(** C4, amended. [analyzeText] of background.ts flags suspicion exactly when
    the blended score is at least 0.5, or the keyword severity is critical,
    or the verdict is suspicious. [combineResults] flags suspicion exactly
    when the keyword result is flagged, whatever its severity, or the
    verdict is suspicious. *)
Theorem is_suspicious_rules (d : DetectionResult.t) (v : AIVerdict.t) :
  (CombinedAnalysis.isSuspicious (Background.analyzeText d v) = true <->
   (0.5 <=? CombinedAnalysis.finalScore (Background.analyzeText d v))%float = true \/
   DetectionResult.severity d = critical \/
   AIVerdict.isSuspicious v = true) /\
  (CombinedAnalysis.isSuspicious (BackgroundCombine.combineResults d v) = true <->
   DetectionResult.flagged d = true \/ AIVerdict.isSuspicious v = true).
Proof.
  unfold Background.analyzeText, BackgroundCombine.combineResults.
  cbn [CombinedAnalysis.isSuspicious CombinedAnalysis.finalScore].
  rewrite !orb_true_iff, Severity_eqb_eq. tauto.
Qed.

(** C4 as stated fails: the text below is flagged with severity high, which
    the stated rule counts as suspicious whatever the threshold; the verdict
    is not suspicious, the blended score is 0.264, and [analyzeText] answers
    not suspicious. *)
Lemma is_suspicious_flagged_high :
  exists r,
    KeywordScanner.scan 30 KeywordScanner.categories "urgent" = Some r /\
    let v := AIClassifier.mockClassify "urgent" in
    DetectionResult.flagged r = true /\
    DetectionResult.severity r = high /\
    (forall crosses, CombinerSpec.isSuspicious r v crosses = true) /\
    CombinedAnalysis.isSuspicious (Background.analyzeText r v) = false.
Proof.
  eexists. split; [vm_compute; reflexivity|].
  cbv zeta. split; [reflexivity|]. split; [reflexivity|]. split.
  - intros crosses. reflexivity.
  - vm_compute. reflexivity.
Qed.

(** The two blends. [analyzeText] of background.ts blends on the scale
    [0,1]: 0.6 times the raw keyword score divided by 200 and capped at 1,
    plus 0.4 times the confidence. [combineResults] blends 0.6 times the raw
    keyword score, neither divided nor capped, plus 0.4 times the
    confidence multiplied by 100. *)
Lemma final_score_formulas (d : DetectionResult.t) (v : AIVerdict.t) :
  let raw := Number.ofZ (DetectionResult.score d) in
  let confidence := AIVerdict.confidence v in
  CombinedAnalysis.finalScore (Background.analyzeText d v) =
    (Number.min (raw / 200) 1 * 0.6 + confidence * 0.4)%float /\
  CombinedAnalysis.finalScore (BackgroundCombine.combineResults d v) =
    (raw * 0.6 + confidence * 100 * 0.4)%float.
Proof.
  cbv zeta. split.
  - unfold Background.analyzeText, Background.normalizeScore. reflexivity.
  - unfold BackgroundCombine.combineResults. reflexivity.
Qed.

(** C5. The two combiners do not compute the same final score: for the
    scan and the heuristic verdict of the text below (raw score 48,
    confidence 0.3), [analyzeText] of background.ts returns the normalised
    blend 0.6 * (48 / 200) + 0.4 * 0.3 = 0.264, and [combineResults]
    returns 0.6 * 48 + 0.4 * 30 = 40.8. *)
Lemma final_scores_differ :
  exists r,
    KeywordScanner.scan 30 KeywordScanner.categories "urgent" = Some r /\
    let v := AIClassifier.mockClassify "urgent" in
    let a := CombinedAnalysis.finalScore (Background.analyzeText r v) in
    let b := CombinedAnalysis.finalScore (BackgroundCombine.combineResults r v) in
    a = CombinerSpec.finalScore r v /\
    (b =? CombinerSpec.finalScore r v)%float = false /\
    (b =? a)%float = false /\
    b <> a.
Proof.
  eexists. split; [vm_compute; reflexivity|].
  cbv zeta. repeat split; try (vm_compute; reflexivity).
  intro H. apply (f_equal (fun x => (x =? 0.264)%float)) in H.
  vm_compute in H. discriminate.
Qed.

(** C6. The confidence of a delegated verdict is the number the service
    sent, whatever it is: with the classifier configured for a service that
    answers with confidence 5, [classifyWithAI] returns confidence 5, which
    lies outside [0,1]; a negative confidence passes likewise. The
    heuristic path caps its confidence ([mockClassify_confidence_range]). *)
Lemma delegated_confidence_unclamped :
  let settings := AIClassifier.configureAPI "https://classifier.example/v1" "key"
                                            AIClassifier.initialSettings in
  let answer c := AIClassifier.Response true
                    (AIClassifier.Json (AIClassifier.mkData (Some true) (Some "scam") (Some c))) in
  let high := AIClassifier.classifyWithAI settings "hello" (answer 5%float) in
  let negative := AIClassifier.classifyWithAI settings "hello" (answer (-1)%float) in
  AIVerdict.confidence high = 5%float /\
  (AIVerdict.confidence high <=? 1)%float = false /\
  AIVerdict.confidence negative = (-1)%float /\
  (0 <=? AIVerdict.confidence negative)%float = false.
Proof. vm_compute. repeat split. Qed.

(** C7, amended. For every message, the heuristic verdict has confidence
    the minimum of the accumulated score and 1; it is suspicious exactly
    when the confidence is at least 0.4; its reason is the joined list of
    the triggered fragments when it is suspicious, and the fixed
    nothing-detected message when it is not, in particular when no signal
    triggered. *)
Theorem mockClassify_verdict (message : string) :
  let score := fst (AIClassifier.evaluateSignals message) in
  let reasons := snd (AIClassifier.evaluateSignals message) in
  let v := AIClassifier.mockClassify message in
  AIVerdict.confidence v = Number.min score 1 /\
  AIVerdict.isSuspicious v = (0.4 <=? AIVerdict.confidence v)%float /\
  AIVerdict.reason v =
    (if AIVerdict.isSuspicious v then Js.join "; " reasons
     else AIClassifier.nothingDetected) /\
  (reasons = [] -> AIVerdict.reason v = AIClassifier.nothingDetected).
Proof.
  cbv zeta. unfold AIClassifier.mockClassify.
  destruct (evaluateSignals_accumulate message)
    as (c1 & c2 & c3 & c4 & c5 & c6 & c7 & l & H).
  rewrite H.
  destruct (accumulate_range c1 c2 c3 c4 c5 c6 c7 l) as (_ & _ & H4).
  pose proof (accumulate_none c1 c2 c3 c4 c5 c6 c7 l) as Hn.
  destruct (CombinerSpec.accumulate _ _ _ _ _ _ _ _) as [score reasons].
  cbn [fst snd AIVerdict.confidence AIVerdict.isSuspicious AIVerdict.reason] in *.
  repeat split; auto.
  intros Hr. now rewrite (Hn Hr).
Qed.

Lemma mockClassify_verdict_witness :
  AIVerdict.reason (AIClassifier.mockClassify "hello there") = AIClassifier.nothingDetected.
Proof.
  exact (proj2 (proj2 (proj2 (mockClassify_verdict "hello there"))) eq_refl).
Defined.

(** C7 as stated fails: in the message below one signal triggers, so the
    stated reason is its fragment; the score 0.3 is below 0.4 and the
    verdict carries the nothing-detected message. *)
Lemma mockClassify_reason_below_threshold :
  let v := AIClassifier.mockClassify "urgent" in
  snd (AIClassifier.evaluateSignals "urgent") = ["Uses urgent language"] /\
  CombinerSpec.reasonOf (snd (AIClassifier.evaluateSignals "urgent")) = "Uses urgent language" /\
  AIVerdict.reason v = "No significant suspicious patterns detected" /\
  AIVerdict.reason v <> CombinerSpec.reasonOf (snd (AIClassifier.evaluateSignals "urgent")).
Proof. vm_compute. repeat split. discriminate. Qed.

(** ** The delegated request *)

Section DelegatedRequest.

(** On a body of the declared types the two embeddings of
    [classifyWithAI] agree. *)
Lemma classifyWithAI_typed
      (s : AIClassifier.Settings) (message : string) (net : AIClassifier.Fetch) :
  Delegated.classifyWithAI s message (Delegated.ofFetch net) =
  Delegated.ofVerdict (AIClassifier.classifyWithAI s message net).
Proof.
  unfold Delegated.classifyWithAI, AIClassifier.classifyWithAI.
  destruct (_ || _); [reflexivity|].
  destruct net as [|[|] [| |[[b|] [r|] [c|]]]]; try reflexivity; cbn;
    unfold Delegated.ofVerdict; cbn;
    repeat match goal with
           | |- context [Number.truthy ?c] => destruct (Number.truthy c)
           | |- context [String.eqb ?r ""] => destruct (String.eqb r "")
           | b : bool |- _ => destruct b
           end; reflexivity.
Qed.

(** The [try] block throws on a transport error, a non-success status, a
    body that is not JSON and the body [null], and on nothing else. *)
Lemma tryRequest_throws (reply : Delegated.Reply) :
  if CombinerSpec.throws reply
  then exists e, Delegated.tryRequest reply = inl e
  else exists data,
      reply = Delegated.Answered true (Some data) /\
      Delegated.tryRequest reply = inr (CombinerSpec.fromFields data).
Proof.
  destruct reply as [|[|] [data|]]; cbn; eauto.
  destruct data; cbn; eauto.
Qed.

End DelegatedRequest.

(** C8 as stated fails. A response of success status with the body [[]],
    or with the body [{"isSuspicious": "no", "confidence": "high"}], is
    malformed, and the request does not fall back: for a message that the
    heuristic evaluator finds suspicious, [classifyWithAI] returns the
    defaults in the first case and the strings of the body in the second. *)
Lemma malformed_response_not_fallen_back :
  let s := AIClassifier.configureAPI "https://classifier.example/v1" "key"
                                     AIClassifier.initialSettings in
  let message := "pay with a gift card" in
  let heuristic := Delegated.ofVerdict (AIClassifier.mockClassify message) in
  let empty := Delegated.Answered true (Some (Json.JArray [])) in
  let mistyped :=
    Delegated.Answered true
      (Some (Json.JObject [("isSuspicious", Json.JString "no");
                           ("confidence", Json.JString "high")])) in
  CombinerSpec.failed empty = true /\
  CombinerSpec.failed mistyped = true /\
  heuristic = Delegated.mkVerdict (Json.JBool true)
                                  (Json.JString "Requests unusual payment method")
                                  (Json.JNumber 0.6) /\
  Delegated.classifyWithAI s message empty =
    Delegated.mkVerdict (Json.JBool false) (Json.JString "No explanation provided")
                        (Json.JNumber 0.5) /\
  Delegated.classifyWithAI s message mistyped =
    Delegated.mkVerdict (Json.JString "no") (Json.JString "No explanation provided")
                        (Json.JString "high") /\
  Delegated.classifyWithAI s message empty <> heuristic /\
  Delegated.classifyWithAI s message mistyped <> heuristic.
Proof.
  cbv zeta. repeat split; try (vm_compute; reflexivity);
    vm_compute; intro H; discriminate H.
Qed.

(** C8, amended. Whenever the delegated request fails by a transport
    error, a non-success status, a body that is not JSON, or the body
    [null], the [try] block throws and [classifyWithAI] returns the verdict
    of the heuristic evaluator for the same message. Any other response of
    success status is no failure, well formed or not: with mock mode off
    and an endpoint set, the verdict is read off the body's fields, with
    the defaults for those missing or falsy. *)
Theorem classifyWithAI_falls_back_on_throw
        (s : AIClassifier.Settings) (message : string) (reply : Delegated.Reply) :
  (CombinerSpec.throws reply = true ->
   (exists e, Delegated.tryRequest reply = inl e) /\
   Delegated.classifyWithAI s message reply =
     Delegated.ofVerdict (AIClassifier.mockClassify message)) /\
  (CombinerSpec.throws reply = false ->
   AIClassifier.mockMode s = false ->
   String.eqb (AIClassifier.apiEndpoint s) "" = false ->
   exists data,
     reply = Delegated.Answered true (Some data) /\
     Delegated.classifyWithAI s message reply = CombinerSpec.fromFields data).
Proof.
  pose proof (tryRequest_throws reply) as H. split.
  - intros Ht. rewrite Ht in H. split; [exact H|]. destruct H as [e He].
    unfold Delegated.classifyWithAI. rewrite He. now destruct (_ || _).
  - intros Ht Hm He. rewrite Ht in H. destruct H as (data & Hr & Hd).
    exists data. split; [exact Hr|].
    unfold Delegated.classifyWithAI. now rewrite Hm, He, Hd.
Qed.

Lemma classifyWithAI_falls_back_on_throw_witness :
  let s := AIClassifier.configureAPI "https://classifier.example/v1" "key"
                                     AIClassifier.initialSettings in
  ((exists e, Delegated.tryRequest (Delegated.Answered true (Some Json.JNull)) = inl e) /\
   Delegated.classifyWithAI s "verify your account"
                            (Delegated.Answered true (Some Json.JNull)) =
     Delegated.ofVerdict (AIClassifier.mockClassify "verify your account")) /\
  (exists data,
     Delegated.Answered true (Some (Json.JNumber 5)) =
       Delegated.Answered true (Some data) /\
     Delegated.classifyWithAI s "verify your account"
                              (Delegated.Answered true (Some (Json.JNumber 5))) =
       CombinerSpec.fromFields data).
Proof.
  split.
  - apply (proj1 (classifyWithAI_falls_back_on_throw
                    (AIClassifier.configureAPI "https://classifier.example/v1" "key"
                                               AIClassifier.initialSettings)
                    "verify your account" (Delegated.Answered true (Some Json.JNull)))).
    reflexivity.
  - apply (proj2 (classifyWithAI_falls_back_on_throw
                    (AIClassifier.configureAPI "https://classifier.example/v1" "key"
                                               AIClassifier.initialSettings)
                    "verify your account"
                    (Delegated.Answered true (Some (Json.JNumber 5)))));
      reflexivity.
Defined.

(** ** Whole words and the pattern of a keyword *)

Section WholeWords.

Import RegExp.
Open Scope nat_scope.

Local Ltac each_unit c :=
  destruct c as [[] [] [] [] [] [] [] []]; vm_compute; reflexivity.

Lemma canonicalize_toLowerUnit (c : ascii) :
  canonicalize (Js.toLowerUnit c) = canonicalize c.
Proof. each_unit c. Qed.

Lemma isWordChar_toLowerUnit (c : ascii) :
  isWordChar (Js.toLowerUnit c) = isWordChar c.
Proof. each_unit c. Qed.


Lemma sameCase_canonicalize (a b : ascii) :
  Js.toLowerUnit a = Js.toLowerUnit b -> canonicalize a = canonicalize b.
Proof.
  intro H. now rewrite <- (canonicalize_toLowerUnit a), H, canonicalize_toLowerUnit.
Qed.

Lemma sameCase_isWordChar (a b : ascii) :
  Js.toLowerUnit a = Js.toLowerUnit b -> isWordChar a = isWordChar b.
Proof.
  intro H. now rewrite <- (isWordChar_toLowerUnit a), H, isWordChar_toLowerUnit.
Qed.




Lemma nth_error_middle (pre : list ascii) (d : ascii) (rest : list ascii) :
  nth_error (pre ++ d :: rest) (List.length pre) = Some d.
Proof. induction pre; cbn; auto. Qed.

Lemma literalsAt_occurrence (l : list ascii) :
  forall pre occ post,
    Spec.sameUpToCase occ l ->
    Spec.literalsAt l (pre ++ occ ++ post) (List.length pre) = true.
Proof.
  unfold Spec.sameUpToCase.
  induction l as [|c l IH]; intros pre occ post H; [reflexivity|].
  destruct occ as [|d occ]; [discriminate|]. cbn [map] in H. injection H as Hd Ho.
  cbn [Spec.literalsAt app]. rewrite nth_error_middle.
  rewrite (sameCase_canonicalize _ _ Hd), Ascii.eqb_refl. cbn [andb].
  specialize (IH (pre ++ [d]) occ post Ho).
  rewrite <- app_assoc in IH. cbn [app] in IH.
  now rewrite length_app, Nat.add_1_r in IH.
Qed.

Lemma wordAt_middle (pre : list ascii) (d : ascii) (rest : list ascii) :
  wordAt (pre ++ d :: rest) (List.length pre) = isWordChar d.
Proof. unfold wordAt. now rewrite nth_error_middle. Qed.

Lemma wordAt_end (l : list ascii) : wordAt l (List.length l) = false.
Proof.
  unfold wordAt. now rewrite (proj2 (nth_error_None l (List.length l)) (le_n _)).
Qed.

(** Before the occurrence: a boundary, as the phrase starts with a word
    character and what precedes does not end with one. *)
Lemma isBoundary_before (pre : list ascii) (d : ascii) (rest : list ascii) :
  Spec.endsOutsideWord pre = true -> isWordChar d = true ->
  isBoundary (pre ++ d :: rest) (List.length pre) = true.
Proof.
  intros Hpre Hd. unfold isBoundary. rewrite wordAt_middle, Hd.
  destruct (List.length pre) as [|n] eqn:Hn; [reflexivity|].
  destruct (exists_last (l := pre)) as (pre' & c & ->); [now intros ->|].
  unfold Spec.endsOutsideWord in Hpre. rewrite rev_app_distr in Hpre. cbn in Hpre.
  rewrite length_app in Hn. cbn in Hn. assert (n = List.length pre') as -> by lia.
  rewrite <- app_assoc. cbn [app]. rewrite wordAt_middle.
  now destruct (isWordChar c).
Qed.

(** After the occurrence: a boundary, likewise. *)
Lemma isBoundary_after (front : list ascii) (d : ascii) (post : list ascii) :
  isWordChar d = true -> Spec.startsOutsideWord post = true ->
  isBoundary ((front ++ [d]) ++ post) (List.length (front ++ [d])) = true.
Proof.
  intros Hd Hpost. unfold isBoundary.
  rewrite length_app, Nat.add_1_r.
  replace (wordAt ((front ++ [d]) ++ post) (List.length front)) with true
    by (rewrite <- !app_assoc; cbn [app]; now rewrite wordAt_middle).
  replace (S (List.length front)) with (List.length (front ++ [d]))
    by (rewrite length_app; cbn; lia).
  destruct post as [|e post].
  - rewrite app_nil_r, wordAt_end. reflexivity.
  - rewrite wordAt_middle. cbn in Hpost. now destruct (isWordChar e).
Qed.

(** A whole-word occurrence of a phrase is a match of its pattern. *)
Lemma occursAt_wholeWord (keyword : string) (pre occ post : list ascii) :
  Spec.wordEdged keyword = true ->
  Spec.sameUpToCase occ (Js.units keyword) ->
  Spec.endsOutsideWord pre = true ->
  Spec.startsOutsideWord post = true ->
  Spec.occursAt keyword (pre ++ occ ++ post) (List.length pre) = true.
Proof.
  intros He Hs Hpre Hpost. unfold Spec.occursAt.
  rewrite (literalsAt_occurrence _ pre occ post Hs), andb_true_r.
  assert (Hlen : List.length occ = List.length (Js.units keyword)).
  { unfold Spec.sameUpToCase in Hs. apply (f_equal (@List.length _)) in Hs.
    now rewrite !length_map in Hs. }
  unfold Spec.wordEdged in He. apply andb_true_iff in He as [He1 He2].
  apply andb_true_iff. split.
  - destruct (Js.units keyword) as [|c l] eqn:Hk; [discriminate|].
    destruct occ as [|d occ]; [discriminate|].
    unfold Spec.sameUpToCase in Hs. cbn [map] in Hs. injection Hs as Hd _.
    cbn [app]. apply isBoundary_before; [exact Hpre|].
    now rewrite (sameCase_isWordChar _ _ Hd).
  - rewrite <- Hlen.
    destruct (exists_last (l := occ)) as (occ' & d & ->).
    { intros ->. destruct (Js.units keyword); [discriminate He1|discriminate Hlen]. }
    assert (Hd : isWordChar d = true).
    { unfold Spec.sameUpToCase in Hs. apply (f_equal (@rev _)) in Hs.
      rewrite <- !map_rev, rev_app_distr in Hs. cbn [rev app map] in Hs.
      destruct (rev (Js.units keyword)) as [|c l]; [discriminate|].
      cbn [map] in Hs. injection Hs as Hc _.
      now rewrite (sameCase_isWordChar _ _ Hc). }
    replace (pre ++ (occ' ++ [d]) ++ post) with (((pre ++ occ') ++ [d]) ++ post)
      by (now rewrite <- !app_assoc).
    replace (List.length pre + List.length (occ' ++ [d]))
      with (List.length ((pre ++ occ') ++ [d]))
      by (rewrite !length_app; cbn; lia).
    now apply isBoundary_after.
Qed.

Lemma containsWholeWord_occursAt (keyword phrase text : string) :
  Spec.wordEdged keyword = true ->
  Spec.sameUpToCase (Js.units keyword) (Js.units phrase) ->
  Spec.containsWholeWord phrase text ->
  exists p, p <= String.length text /\ Spec.occursAt keyword (Js.units text) p = true.
Proof.
  intros He Hs (pre & occ & post & Ht & Ho & Hpre & Hpost).
  exists (List.length pre). split.
  - rewrite <- length_units, Ht, length_app. lia.
  - rewrite Ht. apply occursAt_wholeWord; auto.
    unfold Spec.sameUpToCase in *. congruence.
Qed.

End WholeWords.

(** ** What a scan reports *)

Section ScanReports.

Import KeywordScanner.
Open Scope nat_scope.

Variable fuel : nat.
Variable text : string.

Lemma exec_finds (re : RegExp.t) (lastIndex p e : nat) :
  RegExp.matchAt re (Js.units text) p = Some e ->
  lastIndex <= p <= String.length text ->
  exists p' e', RegExp.exec re (Js.units text) lastIndex = Some (p', e').
Proof.
  intros Hm Hp. destruct (RegExp.exec re (Js.units text) lastIndex) as [[p' e']|] eqn:He.
  - eauto.
  - rewrite (exec_None _ _ _ He p) in Hm; [discriminate|].
    rewrite length_units. exact Hp.
Qed.

Lemma record_keeps (category : KeywordCategory.t) (keyword : string) (pos : nat)
      (st : ScanState) (d : MatchDetail.t) :
  In d (details st) -> In d (details (record text category keyword pos st)).
Proof. intro H. cbn. apply in_or_app. now left. Qed.

(** The loop of a keyword that occurs in the text records a detail for it. *)
Lemma whileExec_reports (category : KeywordCategory.t) (keyword : string)
      (p : nat) (st st' : ScanState) :
  Spec.occursAt keyword (Js.units text) p = true ->
  p <= String.length text ->
  whileExec fuel (Spec.wordPattern keyword) text category keyword 0 st = Some st' ->
  exists d,
    In d (details st') /\ MatchDetail.keyword d = keyword /\
    MatchDetail.severity d = KeywordCategory.severity category.
Proof.
  intros Ho Hp H. destruct fuel as [|n]; [discriminate|]. cbn [whileExec] in H.
  destruct (exec_finds (Spec.wordPattern keyword) 0 p (p + List.length (Js.units keyword)))
    as (p' & e' & He).
  { now rewrite matchAt_wordPattern, Ho. }
  { lia. }
  rewrite He in H.
  exists (MatchDetail.mk keyword (KeywordCategory.severity category) p'
                         (extractContext text p' (String.length keyword))).
  split; [|split; reflexivity].
  eapply whileExec_ind with (P := fun s => In _ (details s)); [| |exact H].
  - intros; now apply record_keeps.
  - cbn. apply in_or_app. right. now left.
Qed.

Lemma scanKeywords_keep (category : KeywordCategory.t) (kws : list string)
      (d : MatchDetail.t) (st st' : ScanState) :
  In d (details st) ->
  fold_left (scanKeyword fuel text category) kws (Some st) = Some st' ->
  In d (details st').
Proof.
  apply scanKeywords_ind with (P := fun s => In d (details s)).
  intros; now apply record_keeps.
Qed.

Lemma scanCategories_keep (cats : list KeywordCategory.t)
      (d : MatchDetail.t) (st st' : ScanState) :
  In d (details st) ->
  fold_left (scanCategory fuel text) cats (Some st) = Some st' ->
  In d (details st').
Proof.
  apply scanCategories_ind with (P := fun s => In d (details s)).
  intros; now apply record_keeps.
Qed.

Lemma scanKeywords_reports (category : KeywordCategory.t) (keyword : string) (p : nat)
      (kws : list string) :
  In keyword kws ->
  Spec.occursAt keyword (Js.units text) p = true ->
  p <= String.length text ->
  forall st st',
    fold_left (scanKeyword fuel text category) kws (Some st) = Some st' ->
    exists d,
      In d (details st') /\ MatchDetail.keyword d = keyword /\
      MatchDetail.severity d = KeywordCategory.severity category.
Proof.
  intros Hin Ho Hp. induction kws as [|k kws IH]; [contradiction|].
  intros st st' H. cbn [fold_left] in H. rewrite scanKeyword_step in H.
  destruct (whileExec fuel _ text category k 0 st) as [st1|] eqn:Hw;
    [|now rewrite scanKeywords_None in H].
  destruct Hin as [->|Hin].
  - destruct (whileExec_reports _ _ _ _ _ Ho Hp Hw) as (d & Hd & Hk & Hs).
    exists d. split; [|auto]. eapply scanKeywords_keep; eauto.
  - eapply IH; eauto.
Qed.

Lemma scanCategories_reports (category : KeywordCategory.t) (keyword : string) (p : nat)
      (cats : list KeywordCategory.t) :
  In category cats -> In keyword (KeywordCategory.keywords category) ->
  Spec.occursAt keyword (Js.units text) p = true ->
  p <= String.length text ->
  forall st st',
    fold_left (scanCategory fuel text) cats (Some st) = Some st' ->
    exists d,
      In d (details st') /\ MatchDetail.keyword d = keyword /\
      MatchDetail.severity d = KeywordCategory.severity category.
Proof.
  intros Hc Hk Ho Hp. induction cats as [|c cats IH]; [contradiction|].
  intros st st' H. cbn [fold_left] in H.
  destruct (scanCategory fuel text (Some st) c) as [st1|] eqn:Hs;
    [|now rewrite scanCategories_None in H].
  destruct Hc as [->|Hc].
  - destruct (scanKeywords_reports _ _ _ _ Hk Ho Hp _ _ Hs) as (d & Hd & Hkd & Hsd).
    exists d. split; [|auto]. eapply scanCategories_keep; eauto.
  - eapply IH; eauto.
Qed.

(** A stored phrase that occurs in the text as a whole word is reported. *)
Lemma scan_reports (cats : list KeywordCategory.t) (category : KeywordCategory.t)
      (keyword : string) (p : nat) (r : DetectionResult.t) :
  In category cats -> In keyword (KeywordCategory.keywords category) ->
  Spec.occursAt keyword (Js.units text) p = true ->
  p <= String.length text ->
  scan fuel cats text = Some r ->
  DetectionResult.flagged r = true /\
  exists d,
    In d (DetectionResult.details r) /\ MatchDetail.keyword d = keyword /\
    MatchDetail.severity d = KeywordCategory.severity category.
Proof.
  intros Hc Hk Ho Hp Hr. apply scan_Some in Hr as (st & Hst & ->).
  destruct (scanCategories_reports _ _ _ _ Hc Hk Ho Hp _ _ Hst) as (d & Hd & Hkd & Hsd).
  cbn. split; [|eauto].
  destruct (details st); [contradiction|reflexivity].
Qed.

(** Every reported detail is a whole-word occurrence of a stored phrase. *)
Lemma scan_sound (cats : list KeywordCategory.t) (r : DetectionResult.t) :
  scan fuel cats text = Some r ->
  forall d,
    In d (DetectionResult.details r) ->
    exists c,
      In c cats /\ In (MatchDetail.keyword d) (KeywordCategory.keywords c) /\
      MatchDetail.severity d = KeywordCategory.severity c /\
      Spec.occursAt (MatchDetail.keyword d) (Js.units text) (MatchDetail.position d) = true.
Proof.
  intros Hr. apply scan_Some in Hr as (st & Hst & ->). cbn.
  eapply scanCategories_ind
    with (P := fun s => forall d, In d (details s) ->
               exists c, In c cats /\ In (MatchDetail.keyword d) (KeywordCategory.keywords c) /\
                         MatchDetail.severity d = KeywordCategory.severity c /\
                         Spec.occursAt (MatchDetail.keyword d) (Js.units text)
                                       (MatchDetail.position d) = true);
    [| |exact Hst].
  - intros c k pos s Hc Hk Ho IH d Hd. cbn in Hd.
    apply in_app_or in Hd as [Hd|[<-|[]]]; [now apply IH|].
    exists c. cbn. auto.
  - intros d [].
Qed.

Lemma scan_flagged (cats : list KeywordCategory.t) (r : DetectionResult.t) :
  scan fuel cats text = Some r ->
  DetectionResult.flagged r = false -> DetectionResult.details r = [].
Proof.
  intros Hr. apply scan_Some in Hr as (st & _ & ->). cbn.
  now destruct (details st).
Qed.

Lemma scan_unflagged (cats : list KeywordCategory.t) (r : DetectionResult.t) :
  scan fuel cats text = Some r ->
  DetectionResult.details r = [] -> DetectionResult.flagged r = false.
Proof.
  intros Hr. apply scan_Some in Hr as (st & _ & ->). cbn.
  now intros ->.
Qed.

(** With the empty phrase the loop never ends: a match is empty and leaves
    [lastIndex] where it was. *)
Lemma whileExec_empty_keyword (category : KeywordCategory.t) (p : nat) :
  RegExp.matchAt (Spec.wordPattern "") (Js.units text) p = Some p ->
  p <= String.length text ->
  forall n st, whileExec n (Spec.wordPattern "") text category "" p st = None.
Proof.
  intros Hm Hp. induction n as [|n IH]; intro st; [reflexivity|].
  cbn [whileExec]. unfold RegExp.exec. rewrite length_units.
  destruct (Nat.ltb_spec (String.length text) p); [lia|].
  replace (S (String.length text) - p) with (S (String.length text - p)) by lia.
  cbn [RegExp.searchFrom]. rewrite Hm. apply IH.
Qed.

Lemma whileExec_empty_keyword_from (category : KeywordCategory.t) (lastIndex p e : nat) :
  RegExp.exec (Spec.wordPattern "") (Js.units text) lastIndex = Some (p, e) ->
  forall n st, whileExec n (Spec.wordPattern "") text category "" lastIndex st = None.
Proof.
  intros He [|n] st; [reflexivity|]. cbn [whileExec]. rewrite He.
  pose proof (exec_Some _ _ _ _ _ He) as (Hr & Hm & _).
  pose proof (exec_wordPattern _ _ _ _ _ He) as (_ & -> & _ & _).
  cbn [String.length] in *. rewrite Nat.add_0_r in *.
  apply whileExec_empty_keyword; [exact Hm|]. rewrite <- length_units. lia.
Qed.

Lemma scanKeywords_stuck (category : KeywordCategory.t) (kws : list string) (p e : nat) :
  In "" kws ->
  RegExp.exec (Spec.wordPattern "") (Js.units text) 0 = Some (p, e) ->
  forall st, fold_left (scanKeyword fuel text category) kws st = None.
Proof.
  intros Hin He. induction kws as [|k kws IH]; [contradiction|].
  intros [st|]; [|apply scanKeywords_None]. cbn [fold_left].
  destruct Hin as [->|Hin].
  - rewrite scanKeyword_step, (whileExec_empty_keyword_from _ _ _ _ He).
    apply scanKeywords_None.
  - now apply IH.
Qed.

(** [scan] does not return when a category holds the empty phrase and the
    text has a word boundary. *)
Lemma scan_empty_keyword (cats : list KeywordCategory.t) (category : KeywordCategory.t)
      (p e : nat) :
  In category cats -> In "" (KeywordCategory.keywords category) ->
  RegExp.exec (Spec.wordPattern "") (Js.units text) 0 = Some (p, e) ->
  scan fuel cats text = None.
Proof.
  intros Hc Hk He. unfold scan.
  assert (H : forall st, fold_left (scanCategory fuel text) cats st = None).
  { induction cats as [|c cats IH]; [contradiction|]. intros st. cbn [fold_left].
    destruct Hc as [->|Hc].
    - unfold scanCategory at 2. rewrite (scanKeywords_stuck _ _ _ _ Hk He).
      apply scanCategories_None.
    - now apply IH. }
  now rewrite H.
Qed.

End ScanReports.

(** ** Adding and removing keywords *)

Section Mutators.

Import KeywordScanner.
Open Scope nat_scope.

Lemma arrayIncludes_In (l : list string) (k : string) :
  Js.arrayIncludes l k = true <-> In k l.
Proof.
  unfold Js.arrayIncludes. rewrite existsb_exists. split.
  - intros (x & Hx & He). apply String.eqb_eq in He. now subst.
  - intros H. exists k. split; [exact H|apply String.eqb_refl].
Qed.

Lemma arrayIncludes_not_In (l : list string) (k : string) :
  Js.arrayIncludes l k = false <-> ~ In k l.
Proof.
  rewrite <- arrayIncludes_In. destruct (Js.arrayIncludes l k); split; congruence.
Qed.

Lemma stored_iff (cats : list KeywordCategory.t) (k : string) :
  Spec.stored cats k = true <->
  exists c, In c cats /\ In k (KeywordCategory.keywords c).
Proof.
  unfold Spec.stored. rewrite existsb_exists.
  split; intros (c & Hc & Hk); exists c; split; auto; now apply arrayIncludes_In.
Qed.

(** *** [addCustomKeyword] *)

Lemma pushToFound_stores (sev : Severity) (k : string) (cats : list KeywordCategory.t) :
  existsb (fun cat => Severity_eqb (KeywordCategory.severity cat) sev) cats = true ->
  exists c,
    In c (pushToFound sev k cats) /\ In k (KeywordCategory.keywords c) /\
    KeywordCategory.severity c = sev.
Proof.
  induction cats as [|a cats IH]; cbn [existsb pushToFound]; [discriminate|].
  destruct (Severity_eqb (KeywordCategory.severity a) sev) eqn:Hs.
  - intros _. apply Severity_eqb_eq in Hs.
    destruct (Js.arrayIncludes (KeywordCategory.keywords a) k) eqn:Hi.
    + exists a. split; [now left|]. split; [now apply arrayIncludes_In|exact Hs].
    + eexists. split; [now left|]. cbn. split; [|exact Hs].
      apply in_or_app. right. now left.
  - cbn [orb]. intros H. destruct (IH H) as (c & Hc & Hk & Hs').
    exists c. split; [now right|auto].
Qed.




Lemma addCustomKeyword_stores (keyword : string) (sev : Severity) (weight : option Z)
      (cats : list KeywordCategory.t) :
  exists c,
    In c (addCustomKeyword keyword sev weight cats) /\
    In (Js.toLowerCase keyword) (KeywordCategory.keywords c) /\
    KeywordCategory.severity c = sev.
Proof.
  unfold addCustomKeyword. apply pushToFound_stores.
  destruct (existsb _ cats) eqn:He; [exact He|].
  rewrite existsb_app. cbn. now rewrite Severity_eqb_refl, orb_true_r.
Qed.



(** *** [removeKeyword] *)

Lemma removeLoop_snd (n : string) (cats : list KeywordCategory.t) :
  snd (removeLoop n cats) = map (fun c => snd (removeFrom n c)) cats.
Proof.
  induction cats as [|c cats IH]; [reflexivity|]. cbn [removeLoop map].
  destruct (removeFrom n c) as [hit c']. destruct (removeLoop n cats) as [removed rest].
  cbn in *. now f_equal.
Qed.

Lemma removeLoop_fst (n : string) (cats : list KeywordCategory.t) :
  fst (removeLoop n cats) = existsb (fun c => fst (removeFrom n c)) cats.
Proof.
  induction cats as [|c cats IH]; [reflexivity|]. cbn [removeLoop existsb].
  destruct (removeFrom n c) as [hit c']. destruct (removeLoop n cats) as [removed rest].
  cbn in *. now f_equal.
Qed.

Lemma indexOf_None (l : list string) (k : string) :
  Js.indexOf l k = None <-> Js.arrayIncludes l k = false.
Proof.
  induction l as [|x l IH]; cbn; [tauto|].
  rewrite (String.eqb_sym k x). destruct (String.eqb x k); cbn.
  - split; discriminate.
  - rewrite <- IH. destruct (Js.indexOf l k); cbn; split; congruence.
Qed.

Lemma removeFrom_fst (n : string) (c : KeywordCategory.t) :
  fst (removeFrom n c) = Js.arrayIncludes (KeywordCategory.keywords c) n.
Proof.
  unfold removeFrom. destruct (Js.indexOf _ n) eqn:Hi; cbn.
  - destruct (Js.arrayIncludes _ n) eqn:Ha; [reflexivity|].
    apply indexOf_None in Ha. congruence.
  - symmetry. now apply indexOf_None.
Qed.

(** [removeKeyword] answers whether some category stored the lower-cased
    argument. *)
Lemma removeKeyword_fst (keyword : string) (cats : list KeywordCategory.t) :
  fst (removeKeyword keyword cats) = Spec.stored cats (Js.toLowerCase keyword).
Proof.
  unfold removeKeyword, Spec.stored. rewrite removeLoop_fst.
  induction cats as [|c cats IH]; [reflexivity|].
  cbn [existsb]. now rewrite removeFrom_fst, IH.
Qed.

Lemma removeFrom_unstored (n : string) (c : KeywordCategory.t) :
  Js.arrayIncludes (KeywordCategory.keywords c) n = false -> removeFrom n c = (false, c).
Proof.
  intros H. unfold removeFrom. apply indexOf_None in H. now rewrite H.
Qed.

Lemma removeLoop_unstored (n : string) (cats : list KeywordCategory.t) :
  Spec.stored cats n = false -> removeLoop n cats = (false, cats).
Proof.
  unfold Spec.stored. induction cats as [|c cats IH]; cbn [existsb removeLoop]; [reflexivity|].
  intros H. apply orb_false_iff in H as [Hc Hr].
  now rewrite (removeFrom_unstored _ _ Hc), (IH Hr).
Qed.



Lemma splice1_absent (l : list string) (k : string) :
  Spec.distinct l = true ->
  forall i, Js.indexOf l k = Some i -> Js.arrayIncludes (Js.splice1 l i) k = false.
Proof.
  induction l as [|x l IH]; cbn [Spec.distinct Js.indexOf]; [discriminate|].
  intros Hd i Hi. apply andb_true_iff in Hd as [Hx Hd]. apply negb_true_iff in Hx.
  destruct (String.eqb_spec x k) as [->|Hne].
  - inversion Hi; subst. exact Hx.
  - destruct (Js.indexOf l k) as [j|] eqn:Hj; [|discriminate].
    inversion Hi; subst. cbn [Js.splice1]. unfold Js.arrayIncludes. cbn [existsb].
    apply orb_false_iff. split.
    + apply String.eqb_neq. congruence.
    + now apply IH.
Qed.

(** After the removal a category without duplicates no longer holds the
    phrase. *)
Lemma removeFrom_absent (n : string) (c : KeywordCategory.t) :
  Spec.distinct (KeywordCategory.keywords c) = true ->
  ~ In n (KeywordCategory.keywords (snd (removeFrom n c))).
Proof.
  intros Hd. apply arrayIncludes_not_In. unfold removeFrom.
  destruct (Js.indexOf _ n) as [i|] eqn:Hi; cbn.
  - now apply splice1_absent.
  - now apply indexOf_None.
Qed.




Lemma removeKeyword_In (keyword : string) (cats : list KeywordCategory.t)
      (c' : KeywordCategory.t) :
  In c' (snd (removeKeyword keyword cats)) ->
  exists c, In c cats /\ c' = snd (removeFrom (Js.toLowerCase keyword) c).
Proof.
  unfold removeKeyword. rewrite removeLoop_snd, in_map_iff.
  intros (c & <- & Hc). eauto.
Qed.





End Mutators.

(** ** Adding a phrase, scanning, removing it *)

Section AddRemove.

Import KeywordScanner.
Open Scope nat_scope.


Lemma wordEdged_nonEmpty (s : string) : Spec.wordEdged s = true -> s <> "".
Proof. intros H ->. discriminate. Qed.


Lemma distinctKeywords_In (cats : list KeywordCategory.t) (c : KeywordCategory.t) :
  Spec.distinctKeywords cats = true -> In c cats ->
  Spec.distinct (KeywordCategory.keywords c) = true.
Proof.
  unfold Spec.distinctKeywords. rewrite forallb_forall. auto.
Qed.

End AddRemove.

(** Adding the empty phrase leaves the scanner unable to answer on any
    text with a word in it. *)
Lemma scan_after_adding_empty_phrase (fuel : nat) :
  KeywordScanner.scan fuel
    (KeywordScanner.addCustomKeyword "" low None KeywordScanner.categories) "hi" = None.
Proof.
  destruct (addCustomKeyword_stores "" low None KeywordScanner.categories)
    as (c & Hc & Hk & _).
  eapply scan_empty_keyword; [exact Hc|exact Hk|].
  vm_compute. reflexivity.
Qed.




(** ** The built-in phrases written with an upper-case letter *)

Section MixedCase.

Import KeywordScanner.
Open Scope nat_scope.




End MixedCase.



(** * Further properties of the code *)

(** ** The scanner *)

Section ScannerFacts.

Import KeywordScanner.
Open Scope nat_scope.

Lemma highest_rank (s : Severity) (l : list Severity) :
  Spec.rank s <= Spec.rank (Spec.highest l) <->
  s = low \/ exists x, In x l /\ Spec.rank s <= Spec.rank x.
Proof.
  induction l as [|a l IH].
  - cbn. split.
    + intros H. left. destruct s; cbn in H; try lia; reflexivity.
    + intros [->|(x & [] & _)]. cbn. lia.
  - change (Spec.highest (a :: l)) with (Spec.maxSeverity a (Spec.highest l)).
    assert (Hmax : Spec.rank (Spec.maxSeverity a (Spec.highest l))
                   = Nat.max (Spec.rank a) (Spec.rank (Spec.highest l)))
      by (now destruct a, (Spec.highest l)).
    rewrite Hmax. split.
    + intros H. apply Nat.max_le in H as [H|H].
      * right. exists a. split; [now left|exact H].
      * apply IH in H as [->|(x & Hx & Hr)]; [now left|].
        right. exists x. split; [now right|exact Hr].
    + intros [->|(x & [<-|Hx] & Hr)]; [cbn; lia|lia|].
      assert (Spec.rank s <= Spec.rank (Spec.highest l)) by (apply IH; eauto). lia.
Qed.

Lemma setAdd_In (l : list string) (k x : string) :
  In x (Js.setAdd l k) <-> In x l \/ x = k.
Proof.
  unfold Js.setAdd. destruct (Js.arrayIncludes l k) eqn:Hi.
  - apply arrayIncludes_In in Hi. split; [auto|]. intros [H| ->]; assumption.
  - rewrite in_app_iff. cbn. intuition congruence.
Qed.

Lemma setAdd_NoDup (l : list string) (k : string) : NoDup l -> NoDup (Js.setAdd l k).
Proof.
  intros H. unfold Js.setAdd. destruct (Js.arrayIncludes l k) eqn:Hi; [exact H|].
  apply arrayIncludes_not_In in Hi.
  apply NoDup_app; [exact H|repeat constructor; intros []|].
  intros x Hx [<-|[]]. contradiction.
Qed.

Lemma scan_state (fuel : nat) (cats : list KeywordCategory.t) (text : string)
      (r : DetectionResult.t) (P : ScanState -> Prop) :
  scan fuel cats text = Some r ->
  P initialState ->
  (forall category keyword pos st,
      In category cats -> In keyword (KeywordCategory.keywords category) ->
      Spec.occursAt keyword (Js.units text) pos = true ->
      P st -> P (record text category keyword pos st)) ->
  P (mkState (DetectionResult.details r) (DetectionResult.matches r)
             (DetectionResult.score r)).
Proof.
  intros Hr H0 Hstep. apply scan_Some in Hr as (st & Hst & ->). cbn.
  assert (HP : P st) by (eapply scanCategories_ind; eauto).
  now destruct st.
Qed.

End ScannerFacts.

(** X1. The escaping of [escapeRegex] and the regular expression syntax are
    inverse to each other: the escaped form of any string, metacharacters
    included, compiles, and to the pattern that matches exactly the
    string's characters one after the other. *)
Theorem escapeRegex_compiles_to_literals (str : string) :
  RegExp.compile (KeywordScanner.escapeRegex str)
  = Some (map RegExp.Literal (Js.units str)).
Proof.
  unfold RegExp.compile, KeywordScanner.escapeRegex. rewrite units_ofUnits.
  pose proof (compileUnits_escaped (Js.units str) []) as H.
  rewrite app_nil_r in H. rewrite H. cbn. now rewrite app_nil_r.
Qed.

(** X2. A scan is flagged exactly when some stored phrase occurs in the
    text at some offset, as the phrase's pattern matches there. *)
Theorem scan_flagged_iff_occurrence
        (fuel : nat) (cats : list KeywordCategory.t) (text : string)
        (r : DetectionResult.t) :
  KeywordScanner.scan fuel cats text = Some r ->
  (DetectionResult.flagged r = true <->
   exists c k p,
     In c cats /\ In k (KeywordCategory.keywords c) /\
     Spec.occursAt k (Js.units text) p = true).
Proof.
  intros Hr. split.
  - intros Hf. destruct (DetectionResult.details r) as [|d ds] eqn:Hd.
    + rewrite (scan_unflagged _ _ _ _ Hr Hd) in Hf. discriminate.
    + destruct (scan_sound _ _ _ _ Hr d) as (c & Hc & Hk & _ & Ho);
        [rewrite Hd; now left|]. eauto 6.
  - intros (c & k & p & Hc & Hk & Ho).
    assert (Hp : (p <= String.length text)%nat)
      by (rewrite <- length_units; eapply occursAt_le; eauto).
    now destruct (scan_reports _ _ _ _ _ _ _ Hc Hk Ho Hp Hr).
Qed.

Lemma scan_flagged_iff_occurrence_witness :
  exists r,
    KeywordScanner.scan 20 KeywordScanner.categories "Act now!" = Some r /\
    (DetectionResult.flagged r = true <->
     exists c k p,
       In c KeywordScanner.categories /\ In k (KeywordCategory.keywords c) /\
       Spec.occursAt k (Js.units "Act now!") p = true).
Proof.
  eexists. split; [vm_compute; reflexivity|].
  apply (scan_flagged_iff_occurrence 20 KeywordScanner.categories "Act now!").
  vm_compute. reflexivity.
Defined.

(** X3. The overall severity of a scan is read off the text: when no
    stored phrase is empty the scan returns a result, and its severity is
    at least [s] exactly when [s] is low or a phrase of a category of
    severity at least [s] occurs in the text. *)
Theorem scan_severity_by_occurrence
        (fuel : nat) (cats : list KeywordCategory.t) (text : string) :
  Spec.nonEmptyKeywords cats = true ->
  (String.length text < fuel)%nat ->
  exists r,
    KeywordScanner.scan fuel cats text = Some r /\
    forall s,
      (Spec.rank s <= Spec.rank (DetectionResult.severity r))%nat <->
      s = low \/ Props.occursFrom cats text s.
Proof.
  intros Hne Hf. destruct (scan_total fuel text cats Hne Hf) as [r Hr].
  exists r. split; [exact Hr|]. intro s.
  rewrite (scan_severity _ _ _ _ Hr), calculateOverallSeverity_escalate,
    escalate_highest, highest_rank.
  split; (intros [->|H]; [now left|right]).
  - destruct H as (x & Hx & Hrank). apply in_map_iff in Hx as (d & <- & Hd).
    destruct (scan_sound _ _ _ _ Hr d Hd) as (c & Hc & Hk & Hs & Ho).
    exists c, (MatchDetail.keyword d), (MatchDetail.position d).
    rewrite <- Hs. repeat split; auto.
    rewrite <- length_units. eapply occursAt_le; eauto.
  - destruct H as (c & k & p & Hc & Hk & Hrank & Hp & Ho).
    destruct (scan_reports _ _ _ _ _ _ _ Hc Hk Ho Hp Hr) as (_ & d & Hd & _ & Hs).
    exists (MatchDetail.severity d). split; [now apply in_map|]. now rewrite Hs.
Qed.

Lemma scan_severity_by_occurrence_witness :
  exists r,
    KeywordScanner.scan 30 KeywordScanner.categories "your refund is ready" = Some r /\
    forall s,
      (Spec.rank s <= Spec.rank (DetectionResult.severity r))%nat <->
      s = low \/ Props.occursFrom KeywordScanner.categories "your refund is ready" s.
Proof.
  apply (scan_severity_by_occurrence 30 KeywordScanner.categories "your refund is ready").
  - reflexivity.
  - cbn. lia.
Defined.

(** X4. The matched phrases of a scan hold no phrase twice, and are exactly
    the phrases of its details. *)
Theorem scan_matches_distinct
        (fuel : nat) (cats : list KeywordCategory.t) (text : string)
        (r : DetectionResult.t) :
  KeywordScanner.scan fuel cats text = Some r ->
  NoDup (DetectionResult.matches r) /\
  forall k, In k (DetectionResult.matches r) <->
            exists d, In d (DetectionResult.details r) /\ MatchDetail.keyword d = k.
Proof.
  intros Hr.
  apply (scan_state _ _ _ _
           (fun st => NoDup (KeywordScanner.matchedKeywords st) /\
                      forall k, In k (KeywordScanner.matchedKeywords st) <->
                                exists d, In d (KeywordScanner.details st) /\
                                          MatchDetail.keyword d = k) Hr).
  - split; [constructor|]. intros k. cbn. split; [intros []|intros (d & [] & _)].
  - intros c kw pos st _ _ _ [Hn Hi]. cbn. split; [now apply setAdd_NoDup|].
    intros k. rewrite setAdd_In, Hi. split.
    + intros [(d & Hd & Hk)| ->].
      * exists d. split; [apply in_or_app; now left|exact Hk].
      * eexists. split; [apply in_or_app; right; now left|reflexivity].
    + intros (d & Hd & Hk). apply in_app_or in Hd as [Hd|[<-|[]]]; [left; eauto|].
      right. now rewrite <- Hk.
Qed.

Lemma scan_matches_distinct_witness :
  exists r,
    KeywordScanner.scan 40 KeywordScanner.categories "urgent, urgent, URGENT refund" = Some r /\
    NoDup (DetectionResult.matches r) /\
    forall k, In k (DetectionResult.matches r) <->
              exists d, In d (DetectionResult.details r) /\ MatchDetail.keyword d = k.
Proof.
  eexists. split; [vm_compute; reflexivity|].
  apply (scan_matches_distinct 40 KeywordScanner.categories "urgent, urgent, URGENT refund").
  vm_compute. reflexivity.
Defined.

Section MatchedText.

Import KeywordScanner.
Open Scope nat_scope.

Local Ltac every_unit c :=
  destruct c as [[] [] [] [] [] [] [] []]; vm_compute; reflexivity.

Lemma toLowerUnit_canonicalize (c : ascii) :
  Js.toLowerUnit (RegExp.canonicalize c) = Js.toLowerUnit c.
Proof. every_unit c. Qed.

Lemma canonicalize_sameCase (a b : ascii) :
  RegExp.canonicalize a = RegExp.canonicalize b -> Js.toLowerUnit a = Js.toLowerUnit b.
Proof.
  intro H. now rewrite <- (toLowerUnit_canonicalize a), H, toLowerUnit_canonicalize.
Qed.

Lemma skipn_nth_error (l : list ascii) :
  forall p d, nth_error l p = Some d -> skipn p l = d :: skipn (S p) l.
Proof.
  induction l as [|x l IH]; intros [|p] d H; cbn in *; try discriminate.
  - now inversion H.
  - now apply IH.
Qed.

(** Where the literals of a phrase match, the text reads the phrase, up to
    case. *)
Lemma literalsAt_slice (l text : list ascii) :
  forall p,
    Spec.literalsAt l text p = true ->
    Spec.sameUpToCase (Props.slice text p (List.length l)) l.
Proof.
  unfold Spec.sameUpToCase, Props.slice.
  induction l as [|c l IH]; intros p H; [reflexivity|]. cbn [Spec.literalsAt] in H.
  destruct (nth_error text p) as [d|] eqn:Hn; [|discriminate].
  apply andb_true_iff in H as [Hc Hl]. apply Ascii.eqb_eq in Hc.
  rewrite (skipn_nth_error _ _ _ Hn). cbn [List.length firstn map].
  now rewrite (canonicalize_sameCase _ _ Hc), (IH (S p) Hl).
Qed.

Lemma occursAt_located (keyword : string) (text : string) (p : nat) :
  Spec.occursAt keyword (Js.units text) p = true ->
  p + String.length keyword <= String.length text /\
  Spec.sameUpToCase (Props.slice (Js.units text) p (String.length keyword))
                    (Js.units keyword).
Proof.
  intros Ho. pose proof (occursAt_le _ _ _ Ho) as Hp.
  unfold Spec.occursAt in Ho. apply andb_true_iff in Ho as [Ho _].
  apply andb_true_iff in Ho as [_ Hl]. split.
  - pose proof (literalsAt_bound _ _ _ Hl Hp) as Hb.
    now rewrite !length_units in Hb.
  - rewrite <- (length_units keyword). now apply literalsAt_slice.
Qed.

End MatchedText.

(** X5. Every detail of a scan lies inside the text: its offset plus the
    length of its phrase does not pass the end of the text, the text reads
    the phrase there up to the case of letters, and its context is the
    excerpt [extractContext] cuts around that offset. *)
Theorem scan_details_located
        (fuel : nat) (cats : list KeywordCategory.t) (text : string)
        (r : DetectionResult.t) (d : MatchDetail.t) :
  KeywordScanner.scan fuel cats text = Some r ->
  In d (DetectionResult.details r) ->
  (MatchDetail.position d + String.length (MatchDetail.keyword d)
   <= String.length text)%nat /\
  Spec.sameUpToCase
    (Props.slice (Js.units text) (MatchDetail.position d)
                 (String.length (MatchDetail.keyword d)))
    (Js.units (MatchDetail.keyword d)) /\
  MatchDetail.context d =
    KeywordScanner.extractContext text (MatchDetail.position d)
                                  (String.length (MatchDetail.keyword d)).
Proof.
  intros Hr Hd.
  destruct (scan_sound _ _ _ _ Hr d Hd) as (c & _ & _ & _ & Ho).
  destruct (occursAt_located _ _ _ Ho) as [Hb Hs].
  split; [exact Hb|]. split; [exact Hs|].
  clear c Ho Hb Hs. revert d Hd.
  apply (scan_state _ _ _ _
           (fun st => forall d, In d (KeywordScanner.details st) ->
                                MatchDetail.context d =
                                KeywordScanner.extractContext
                                  text (MatchDetail.position d)
                                  (String.length (MatchDetail.keyword d))) Hr).
  - intros d [].
  - intros c0 kw pos st _ _ _ IH d Hd. cbn in Hd.
    apply in_app_or in Hd as [Hd|[<-|[]]]; [now apply IH|reflexivity].
Qed.

Lemma scan_details_located_witness :
  exists r d,
    KeywordScanner.scan 40 KeywordScanner.categories "Send a GIFT CARD today" = Some r /\
    In d (DetectionResult.details r) /\
    (MatchDetail.position d + String.length (MatchDetail.keyword d)
     <= String.length "Send a GIFT CARD today")%nat /\
    Spec.sameUpToCase
      (Props.slice (Js.units "Send a GIFT CARD today") (MatchDetail.position d)
                   (String.length (MatchDetail.keyword d)))
      (Js.units (MatchDetail.keyword d)) /\
    MatchDetail.context d =
      KeywordScanner.extractContext "Send a GIFT CARD today" (MatchDetail.position d)
                                    (String.length (MatchDetail.keyword d)).
Proof.
  eexists. eexists. split; [vm_compute; reflexivity|].
  split; [left; reflexivity|].
  eapply (scan_details_located 40 KeywordScanner.categories "Send a GIFT CARD today").
  - vm_compute. reflexivity.
  - left. reflexivity.
Defined.

(** X6. When every category has a weight of at least 1, the score of a
    scan is at least the number of its details, and the scan is flagged
    exactly when its score is positive. *)
Theorem scan_score_positive
        (fuel : nat) (cats : list KeywordCategory.t) (text : string)
        (r : DetectionResult.t) :
  Props.positiveWeights cats = true ->
  KeywordScanner.scan fuel cats text = Some r ->
  (Z.of_nat (List.length (DetectionResult.details r)) <= DetectionResult.score r)%Z /\
  (DetectionResult.flagged r = true <-> (0 < DetectionResult.score r)%Z).
Proof.
  intros Hw Hr.
  assert (H : (Z.of_nat (List.length (DetectionResult.details r))
               <= DetectionResult.score r)%Z /\
              (DetectionResult.details r = [] -> DetectionResult.score r = 0%Z)).
  { apply (scan_state _ _ _ _
             (fun st => (Z.of_nat (List.length (KeywordScanner.details st))
                         <= KeywordScanner.totalScore st)%Z /\
                        (KeywordScanner.details st = [] ->
                         KeywordScanner.totalScore st = 0%Z)) Hr).
    - cbn. split; [lia|reflexivity].
    - intros c kw pos st Hc _ _ [Hl _]. cbn. split.
      + unfold Props.positiveWeights in Hw. rewrite forallb_forall in Hw.
        specialize (Hw c Hc). apply Z.leb_le in Hw.
        rewrite length_app. cbn.
        assert (1 <= KeywordScanner.severityScores (KeywordCategory.severity c))%Z
          by (destruct (KeywordCategory.severity c); cbn; lia).
        nia.
      + intros He. now apply app_eq_nil in He as [_ He]. }
  destruct H as [Hl H0]. split; [exact Hl|].
  destruct (DetectionResult.details r) as [|d ds] eqn:Hd.
  - rewrite (scan_unflagged _ _ _ _ Hr Hd), (H0 eq_refl). split; [discriminate|lia].
  - split; [intros _; cbn in Hl; lia|intros _].
    destruct (DetectionResult.flagged r) eqn:Hf; [reflexivity|].
    rewrite (scan_flagged _ _ _ _ Hr Hf) in Hd. discriminate.
Qed.

Lemma scan_score_positive_witness :
  exists r,
    KeywordScanner.scan 30 KeywordScanner.categories "verify, then verify" = Some r /\
    (Z.of_nat (List.length (DetectionResult.details r)) <= DetectionResult.score r)%Z /\
    (DetectionResult.flagged r = true <-> (0 < DetectionResult.score r)%Z).
Proof.
  eexists. split; [vm_compute; reflexivity|].
  apply (scan_score_positive 30 KeywordScanner.categories "verify, then verify").
  - reflexivity.
  - vm_compute. reflexivity.
Defined.

Section NoWords.

Import KeywordScanner.
Open Scope nat_scope.

Variable text : string.
Hypothesis Hnone : forallb (fun c => negb (RegExp.isWordChar c)) (Js.units text) = true.

Lemma wordAt_none (i : nat) : RegExp.wordAt (Js.units text) i = false.
Proof.
  unfold RegExp.wordAt. destruct (nth_error (Js.units text) i) as [c|] eqn:Hn; [|reflexivity].
  rewrite forallb_forall in Hnone. apply nth_error_In in Hn.
  now apply negb_true_iff, Hnone.
Qed.

Lemma exec_none (keyword : string) (lastIndex : nat) :
  RegExp.exec (Spec.wordPattern keyword) (Js.units text) lastIndex = None.
Proof.
  destruct (RegExp.exec _ _ lastIndex) as [[p e]|] eqn:He; [|reflexivity].
  apply exec_wordPattern in He as (_ & _ & _ & Ho).
  unfold Spec.occursAt, RegExp.isBoundary in Ho.
  rewrite wordAt_none in Ho. destruct p; [discriminate|].
  rewrite wordAt_none in Ho. discriminate.
Qed.

Lemma scanCategories_none (n : nat) (cats : list KeywordCategory.t) (st : ScanState) :
  fold_left (scanCategory (S n) text) cats (Some st) = Some st.
Proof.
  induction cats as [|c cats IH]; [reflexivity|]. cbn [fold_left].
  assert (Hc : scanCategory (S n) text (Some st) c = Some st).
  { unfold scanCategory. induction (KeywordCategory.keywords c) as [|k ks IHk];
      [reflexivity|].
    cbn [fold_left]. rewrite scanKeyword_step. cbn [whileExec].
    now rewrite exec_none. }
  now rewrite Hc.
Qed.

End NoWords.

(** X7. A text without any word character (no letter, digit or
    underscore; the empty text among them) is never flagged, whatever the
    categories hold: the scan returns the empty result with score 0 and
    severity low. *)
Theorem scan_text_without_words
        (fuel : nat) (cats : list KeywordCategory.t) (text : string) :
  (0 < fuel)%nat ->
  forallb (fun c => negb (RegExp.isWordChar c)) (Js.units text) = true ->
  KeywordScanner.scan fuel cats text = Some (DetectionResult.mk false 0 [] low []).
Proof.
  intros Hf Hn. destruct fuel as [|n]; [lia|].
  unfold KeywordScanner.scan. now rewrite (scanCategories_none text Hn).
Qed.

Lemma scan_text_without_words_witness :
  KeywordScanner.scan 1 KeywordScanner.categories "$$$ ... !!! %% ???"
  = Some (DetectionResult.mk false 0 [] low []).
Proof.
  apply (scan_text_without_words 1 KeywordScanner.categories "$$$ ... !!! %% ???").
  - lia.
  - reflexivity.
Defined.

Section WholeWordConverse.

Open Scope nat_scope.

Lemma firstn_last (l : list ascii) :
  forall q x, nth_error l q = Some x -> exists front, firstn (S q) l = front ++ [x].
Proof.
  induction l as [|a l IH]; intros [|q] x H; cbn in H; try discriminate.
  - inversion H; subst. exists []. reflexivity.
  - destruct (IH q x H) as [front Hf]. exists (a :: front).
    change (firstn (S (S q)) (a :: l)) with (a :: firstn (S q) l). now rewrite Hf.
Qed.

Lemma skipn_head (l : list ascii) :
  forall k x rest, skipn k l = x :: rest -> nth_error l k = Some x.
Proof.
  induction l as [|a l IH]; intros [|k] x rest H; cbn in *; try discriminate.
  - now inversion H.
  - eapply IH; eauto.
Qed.

Lemma wordAt_false (text : list ascii) (i : nat) (x : ascii) :
  RegExp.wordAt text i = false -> nth_error text i = Some x ->
  RegExp.isWordChar x = false.
Proof. unfold RegExp.wordAt. intros H Hn. now rewrite Hn in H. Qed.

(** A match of a word-edged phrase is a whole-word occurrence of it. *)
Lemma occursAt_containsWholeWord (keyword text : string) (p : nat) :
  Spec.wordEdged keyword = true ->
  Spec.occursAt keyword (Js.units text) p = true ->
  Spec.containsWholeWord keyword text.
Proof.
  intros He Ho. destruct (occursAt_located _ _ _ Ho) as [Hb Hs].
  pose proof (occursAt_le _ _ _ Ho) as Hp.
  set (t := Js.units text) in *. set (n := String.length keyword) in *.
  exists (firstn p t), (Props.slice t p n), (skipn (p + n) t).
  assert (Hn : 0 < n).
  { subst n. apply wordEdged_nonEmpty in He. destruct keyword; [congruence|cbn; lia]. }
  assert (Hlen : List.length (Props.slice t p n) = n).
  { unfold Props.slice. rewrite length_firstn, length_skipn. subst t.
    rewrite length_units. lia. }
  unfold Spec.occursAt in Ho. rewrite length_units in Ho. fold t n in Ho.
  apply andb_true_iff in Ho as [Ho Hend]. apply andb_true_iff in Ho as [Hstart _].
  unfold Spec.wordEdged in He. apply andb_true_iff in He as [He1 He2].
  (* the first and the last unit of the occurrence are word characters *)
  assert (Hfirst : RegExp.wordAt t p = true).
  { unfold Props.slice in Hs, Hlen. unfold RegExp.wordAt.
    destruct (nth_error t p) as [d|] eqn:Hd.
    - rewrite (skipn_nth_error _ _ _ Hd) in Hs. destruct n; [lia|]. cbn [firstn] in Hs.
      unfold Spec.sameUpToCase in Hs. destruct (Js.units keyword) as [|c l]; [discriminate|].
      cbn [map] in Hs. injection Hs as Hc _. now rewrite (sameCase_isWordChar _ _ Hc).
    - apply nth_error_None in Hd. subst t. rewrite length_units in Hd. lia. }
  assert (Hlast : RegExp.wordAt t (p + n - 1) = true).
  { destruct (exists_last (l := Props.slice t p n)) as (front & d & Hfd).
    { intros H0. rewrite H0 in Hlen. cbn in Hlen. lia. }
    assert (Hd : RegExp.isWordChar d = true).
    { unfold Spec.sameUpToCase in Hs. rewrite Hfd in Hs. apply (f_equal (@rev _)) in Hs.
      rewrite <- !map_rev, rev_app_distr in Hs. cbn [rev app map] in Hs.
      destruct (rev (Js.units keyword)) as [|c l]; [discriminate|].
      cbn [map] in Hs. injection Hs as Hc _. now rewrite (sameCase_isWordChar _ _ Hc). }
    assert (Hfl : List.length front = n - 1).
    { rewrite Hfd, length_app in Hlen. cbn in Hlen. lia. }
    assert (Ht : t = (firstn p t ++ front) ++ d :: skipn n (skipn p t)).
    { rewrite <- app_assoc. rewrite <- (firstn_skipn p t) at 1. f_equal.
      rewrite <- (firstn_skipn n (skipn p t)) at 1.
      unfold Props.slice in Hfd. rewrite Hfd, <- app_assoc. reflexivity. }
    pose proof (wordAt_middle (firstn p t ++ front) d (skipn n (skipn p t))) as Hw.
    rewrite <- Ht, Hd in Hw.
    replace (p + n - 1) with (List.length (firstn p t ++ front)); [exact Hw|].
    rewrite length_app, length_firstn, Hfl, (Nat.min_l _ _ Hp).
    clearbody t n. lia. }
  repeat split.
  - unfold Props.slice. change (Js.units text) with t.
    replace (p + n) with (n + p) by lia.
    now rewrite <- skipn_skipn, !firstn_skipn.
  - exact Hs.
  - unfold RegExp.isBoundary in Hstart. rewrite Hfirst in Hstart.
    unfold Spec.endsOutsideWord. destruct p as [|q]; [reflexivity|].
    destruct (nth_error t q) as [x|] eqn:Hx.
    + destruct (firstn_last _ _ _ Hx) as [front Hf]. rewrite Hf, rev_app_distr. cbn.
      rewrite (wordAt_false t q x); [reflexivity| |exact Hx].
      now destruct (RegExp.wordAt t q).
    + apply nth_error_None in Hx. lia.
  - unfold RegExp.isBoundary in Hend. replace (p + n) with (S (p + n - 1)) in Hend by lia.
    rewrite Hlast in Hend. replace (S (p + n - 1)) with (p + n) in Hend by lia.
    unfold Spec.startsOutsideWord.
    destruct (skipn (p + n) t) as [|x post] eqn:Hsk; [reflexivity|].
    pose proof (skipn_head _ _ _ _ Hsk) as Hx.
    rewrite (wordAt_false t (p + n) x); [reflexivity| |exact Hx].
    now destruct (RegExp.wordAt t (p + n)).
Qed.

End WholeWordConverse.

(** X8. For an ASCII phrase that begins and ends with a word character
    and an ASCII text, the source that [scan] builds for the phrase
    compiles to a pattern, and [exec] on that pattern finds a match in the
    text exactly when the text contains the phrase, up to the case of
    letters, with no word character next to it on either side. (The case
    folding of the embedding is that of the ASCII range, hence the two
    first hypotheses.) *)
Theorem pattern_matches_whole_words (keyword text : string) :
  Spec.isAscii keyword = true ->
  Spec.isAscii text = true ->
  Spec.wordEdged keyword = true ->
  exists regex,
    RegExp.compile (KeywordScanner.regexSource keyword) = Some regex /\
    ((exists position lastIndex,
         RegExp.exec regex (Js.units text) 0 = Some (position, lastIndex)) <->
     Spec.containsWholeWord keyword text).
Proof.
  intros _ _ He. exists (Spec.wordPattern keyword).
  split; [apply compile_regexSource|]. split.
  - intros (p & e & Hx). apply exec_wordPattern in Hx as (_ & _ & _ & Ho).
    eapply occursAt_containsWholeWord; eauto.
  - intros Hw.
    destruct (containsWholeWord_occursAt keyword keyword text He) as (p & Hp & Ho);
      [reflexivity|exact Hw|].
    apply (exec_finds text _ 0 p (p + List.length (Js.units keyword))); [|lia].
    now rewrite matchAt_wordPattern, Ho.
Qed.

Lemma pattern_matches_whole_words_witness :
  exists regex,
    RegExp.compile (KeywordScanner.regexSource "wire transfer") = Some regex /\
    ((exists position lastIndex,
         RegExp.exec regex (Js.units "a Wire Transfer, please") 0
         = Some (position, lastIndex)) <->
     Spec.containsWholeWord "wire transfer" "a Wire Transfer, please").
Proof.
  apply (pattern_matches_whole_words "wire transfer" "a Wire Transfer, please");
    reflexivity.
Defined.

Section CaseInsensitive.

Import KeywordScanner.
Open Scope nat_scope.

Variables text text' : string.
Hypothesis Hcase : Spec.sameUpToCase (Js.units text) (Js.units text').

Lemma sameCase_length : List.length (Js.units text) = List.length (Js.units text').
Proof.
  unfold Spec.sameUpToCase in Hcase. apply (f_equal (@List.length _)) in Hcase.
  now rewrite !length_map in Hcase.
Qed.

Lemma sameCase_nth (i : nat) :
  option_map Js.toLowerUnit (nth_error (Js.units text) i)
  = option_map Js.toLowerUnit (nth_error (Js.units text') i).
Proof. rewrite <- !nth_error_map. now rewrite Hcase. Qed.

Lemma sameCase_wordAt (i : nat) :
  RegExp.wordAt (Js.units text) i = RegExp.wordAt (Js.units text') i.
Proof.
  unfold RegExp.wordAt. pose proof (sameCase_nth i) as H.
  destruct (nth_error (Js.units text) i), (nth_error (Js.units text') i);
    cbn in H; try discriminate; [|reflexivity].
  injection H as H. now apply sameCase_isWordChar.
Qed.

Lemma sameCase_matchAt (re : RegExp.t) :
  forall pos, RegExp.matchAt re (Js.units text) pos = RegExp.matchAt re (Js.units text') pos.
Proof.
  induction re as [|[|c] re IH]; intros pos; cbn [RegExp.matchAt]; [reflexivity| |].
  - unfold RegExp.isBoundary. rewrite (sameCase_wordAt pos).
    destruct pos as [|q]; [|rewrite (sameCase_wordAt q)]; now rewrite IH.
  - pose proof (sameCase_nth pos) as H.
    destruct (nth_error (Js.units text) pos), (nth_error (Js.units text') pos);
      cbn in H; try discriminate; [|reflexivity].
    injection H as H. now rewrite (sameCase_canonicalize _ _ H), IH.
Qed.

Lemma sameCase_exec (re : RegExp.t) (lastIndex : nat) :
  RegExp.exec re (Js.units text) lastIndex = RegExp.exec re (Js.units text') lastIndex.
Proof.
  unfold RegExp.exec. rewrite <- sameCase_length.
  destruct (_ <? _); [reflexivity|].
  generalize (S (List.length (Js.units text)) - lastIndex) as n. intros n. revert lastIndex.
  induction n as [|n IH]; intros i; cbn [RegExp.searchFrom]; [reflexivity|].
  now rewrite sameCase_matchAt, IH.
Qed.

Lemma sameCase_record (c : KeywordCategory.t) (k : string) (pos : nat) (st st' : ScanState) :
  Props.sameState st st' ->
  Props.sameState (record text c k pos st) (record text' c k pos st').
Proof.
  intros (Hs & Hm & Hd). unfold Props.sameState. cbn. rewrite Hs, Hm.
  repeat split. apply Forall2_app; [exact Hd|]. repeat constructor.
Qed.

Lemma sameCase_whileExec (re : RegExp.t) (c : KeywordCategory.t) (k : string) (n : nat) :
  forall lastIndex st st',
    Props.sameState st st' ->
    Props.sameRun (whileExec n re text c k lastIndex st)
                  (whileExec n re text' c k lastIndex st').
Proof.
  induction n as [|n IH]; intros li st st' H; cbn [whileExec]; [exact I|].
  rewrite <- sameCase_exec. destruct (RegExp.exec re (Js.units text) li) as [[p e]|].
  - apply IH. now apply sameCase_record.
  - exact H.
Qed.

Lemma sameCase_scanKeywords (fuel : nat) (c : KeywordCategory.t) (kws : list string) :
  forall o o',
    Props.sameRun o o' ->
    Props.sameRun (fold_left (scanKeyword fuel text c) kws o)
                  (fold_left (scanKeyword fuel text' c) kws o').
Proof.
  induction kws as [|k kws IH]; intros o o' H; [exact H|]. cbn [fold_left]. apply IH.
  destruct o as [st|], o' as [st'|]; cbn [Props.sameRun] in H; try contradiction;
    [|exact I].
  unfold scanKeyword. destruct (RegExp.compile (regexSource k)); [|exact I].
  now apply sameCase_whileExec.
Qed.

Lemma sameCase_scanCategories (fuel : nat) (cats : list KeywordCategory.t) :
  forall o o',
    Props.sameRun o o' ->
    Props.sameRun (fold_left (scanCategory fuel text) cats o)
                  (fold_left (scanCategory fuel text') cats o').
Proof.
  induction cats as [|c cats IH]; intros o o' H; [exact H|]. cbn [fold_left]. apply IH.
  now apply sameCase_scanKeywords.
Qed.

End CaseInsensitive.

Lemma sameMatch_severities (ds ds' : list MatchDetail.t) :
  Forall2 Props.sameMatch ds ds' ->
  map MatchDetail.severity ds = map MatchDetail.severity ds'.
Proof.
  induction 1 as [|d d' ds ds' (_ & Hs & _) _ IH]; cbn; [reflexivity|now f_equal].
Qed.

(** X9. The scan does not depend on the case of the letters of the text:
    two texts that differ only in case yield the same flag, score, matched
    phrases and severity, and details with the same phrase, severity and
    offset one by one (the contexts quote each text as it is written). *)
Theorem scan_case_insensitive
        (fuel : nat) (cats : list KeywordCategory.t) (text text' : string)
        (r : DetectionResult.t) :
  Spec.sameUpToCase (Js.units text) (Js.units text') ->
  KeywordScanner.scan fuel cats text = Some r ->
  exists r',
    KeywordScanner.scan fuel cats text' = Some r' /\
    DetectionResult.flagged r' = DetectionResult.flagged r /\
    DetectionResult.score r' = DetectionResult.score r /\
    DetectionResult.matches r' = DetectionResult.matches r /\
    DetectionResult.severity r' = DetectionResult.severity r /\
    Forall2 Props.sameMatch (DetectionResult.details r) (DetectionResult.details r').
Proof.
  intros Hc Hr. apply scan_Some in Hr as (st & Hst & ->).
  pose proof (sameCase_scanCategories text text' Hc fuel cats
                (Some KeywordScanner.initialState) (Some KeywordScanner.initialState)) as H.
  assert (H0 : Props.sameRun (Some KeywordScanner.initialState)
                             (Some KeywordScanner.initialState))
    by (repeat split; constructor).
  specialize (H H0). rewrite Hst in H. unfold KeywordScanner.scan.
  destruct (fold_left (KeywordScanner.scanCategory fuel text') cats _) as [st'|];
    [|exact (False_ind _ H)].
  destruct H as (Hs & Hm & Hd).
  eexists. split; [reflexivity|]. cbn.
  rewrite !calculateOverallSeverity_escalate, (sameMatch_severities _ _ Hd),
    (Forall2_length Hd), Hs, Hm. auto.
Qed.

Lemma scan_case_insensitive_witness :
  exists r r',
    KeywordScanner.scan 40 KeywordScanner.categories "Urgent: Verify Your Account" = Some r /\
    KeywordScanner.scan 40 KeywordScanner.categories "URGENT: verify your ACCOUNT" = Some r' /\
    DetectionResult.flagged r' = DetectionResult.flagged r /\
    DetectionResult.score r' = DetectionResult.score r /\
    DetectionResult.matches r' = DetectionResult.matches r /\
    DetectionResult.severity r' = DetectionResult.severity r /\
    Forall2 Props.sameMatch (DetectionResult.details r) (DetectionResult.details r').
Proof.
  eexists.
  destruct (scan_case_insensitive 40 KeywordScanner.categories
              "Urgent: Verify Your Account" "URGENT: verify your ACCOUNT" _
              eq_refl eq_refl) as (r' & H).
  exists r'. split; [reflexivity|exact H].
Defined.

(** ** The context of a match *)

Section Contexts.

Open Scope nat_scope.

Lemma length_ofUnits (l : list ascii) : String.length (Js.ofUnits l) = List.length l.
Proof. now rewrite <- length_units, units_ofUnits. Qed.

Lemma firstn_add (A : Type) (m n : nat) (l : list A) :
  firstn (m + n) l = firstn m l ++ firstn n (skipn m l).
Proof.
  revert l. induction m as [|m IH]; intros [|a l]; cbn; try reflexivity.
  - now rewrite firstn_nil.
  - now rewrite IH.
Qed.

Lemma slice_split (l : list ascii) (a m n : nat) :
  Props.slice l a (m + n) = Props.slice l a m ++ Props.slice l (a + m) n.
Proof.
  unfold Props.slice. rewrite firstn_add, skipn_skipn. do 3 f_equal. lia.
Qed.

Lemma slice_length (l : list ascii) (a n : nat) : List.length (Props.slice l a n) <= n.
Proof. unfold Props.slice. rewrite length_firstn. lia. Qed.

End Contexts.

(** X10. A text short enough to fit the window is its own context: when
    the match starts within the first 30 characters and the text ends
    within 30 characters after the match, [extractContext] returns the
    whole text, with no ellipsis. *)
Theorem extractContext_short_text (text : string) (position length : nat) :
  (position <= 30)%nat ->
  (String.length text <= position + length + 30)%nat ->
  KeywordScanner.extractContext text position length = text.
Proof.
  intros Hp Hl. unfold KeywordScanner.extractContext, Js.substring.
  replace (Nat.max 0 (position - 30)) with 0%nat by lia.
  replace (Nat.min (String.length text) (position + length + 30))
    with (String.length text) by lia.
  rewrite Nat.ltb_irrefl. cbn [Nat.ltb Nat.leb Nat.min Nat.max].
  rewrite Nat.min_id, Nat.sub_0_r. cbn [skipn].
  rewrite <- length_units, firstn_all. apply ofUnits_units.
Qed.

Lemma extractContext_short_text_witness :
  KeywordScanner.extractContext "please verify now" 7 6 = "please verify now".
Proof.
  apply (extractContext_short_text "please verify now" 7 6); cbn; lia.
Defined.

(** X11. The context of a match that lies inside the text quotes the
    matched characters, with at most 33 characters before them and at most
    33 after them (30 of the text and an ellipsis of 3). *)
Theorem extractContext_quotes_match (text : string) (position length : nat) :
  (position + length <= String.length text)%nat ->
  exists pre post,
    Js.units (KeywordScanner.extractContext text position length)
    = pre ++ Props.slice (Js.units text) position length ++ post /\
    (List.length pre <= 33)%nat /\ (List.length post <= 33)%nat.
Proof.
  intros Hb. unfold KeywordScanner.extractContext, Js.substring.
  set (L := String.length text) in *.
  set (start := Nat.max 0 (position - 30)).
  set (stop := Nat.min L (position + length + 30)).
  assert (Hs : (start <= position)%nat) by (subst start; lia).
  assert (He : (position + length <= stop <= L)%nat) by (subst stop; lia).
  replace (Nat.min (Nat.min start L) (Nat.min stop L)) with start by lia.
  replace (Nat.max (Nat.min start L) (Nat.min stop L)) with stop by lia.
  change (firstn (stop - start) (skipn start (Js.units text)))
    with (Props.slice (Js.units text) start (stop - start)).
  replace (stop - start)%nat
    with ((position - start) + (length + (stop - (position + length))))%nat by lia.
  rewrite !slice_split.
  replace (start + (position - start))%nat with position by lia.
  set (before := Props.slice (Js.units text) start (position - start)).
  set (after := Props.slice (Js.units text) (position + length)
                            (stop - (position + length))).
  assert (Hbl : (List.length before <= 30)%nat).
  { subst before. etransitivity; [apply slice_length|]. subst start. lia. }
  assert (Hal : (List.length after <= 30)%nat).
  { subst after. etransitivity; [apply slice_length|]. subst stop. lia. }
  exists ((if (0 <? start)%nat then Js.units "..." else []) ++ before),
         (after ++ (if (stop <? L)%nat then Js.units "..." else [])).
  split.
  - destruct (0 <? start)%nat, (stop <? L)%nat;
      rewrite ?units_append, ?units_ofUnits, <- ?app_assoc; cbn [app];
      rewrite ?app_nil_r; reflexivity.
  - rewrite !length_app. destruct (0 <? start)%nat, (stop <? L)%nat; cbn; lia.
Qed.

Lemma extractContext_quotes_match_witness :
  exists pre post,
    Js.units (KeywordScanner.extractContext
                "Dear customer, we noticed unusual activity on your account yesterday evening."
                26 16)
    = pre ++ Props.slice
               (Js.units "Dear customer, we noticed unusual activity on your account yesterday evening.")
               26 16 ++ post /\
    (List.length pre <= 33)%nat /\ (List.length post <= 33)%nat.
Proof.
  apply (extractContext_quotes_match
           "Dear customer, we noticed unusual activity on your account yesterday evening."
           26 16).
  cbn. lia.
Defined.

(** ** More on the two mutators *)

Section MutatorFacts.

Import KeywordScanner.
Open Scope nat_scope.

Lemma category_eta (c : KeywordCategory.t) :
  KeywordCategory.mk (KeywordCategory.keywords c) (KeywordCategory.severity c)
                     (KeywordCategory.weight c) = c.
Proof. now destruct c. Qed.

Lemma pushToFound_skeleton (sev : Severity) (k : string) (cats : list KeywordCategory.t) :
  Props.skeleton (pushToFound sev k cats) = Props.skeleton cats.
Proof.
  unfold Props.skeleton. induction cats as [|c cats IH]; [reflexivity|].
  cbn [pushToFound]. destruct (Severity_eqb _ sev).
  - now destruct (Js.arrayIncludes _ k).
  - cbn [map]. now rewrite IH.
Qed.

Lemma removeKeyword_skeleton (keyword : string) (cats : list KeywordCategory.t) :
  Props.skeleton (snd (removeKeyword keyword cats)) = Props.skeleton cats.
Proof.
  unfold Props.skeleton, removeKeyword. rewrite removeLoop_snd, map_map.
  apply map_ext. intros c. unfold removeFrom. now destruct (Js.indexOf _ _).
Qed.

Lemma hasSeverity_skeleton (sev : Severity) (cats : list KeywordCategory.t) :
  existsb (fun cat => Severity_eqb (KeywordCategory.severity cat) sev) cats
  = existsb (fun p => Severity_eqb (fst p) sev) (Props.skeleton cats).
Proof.
  unfold Props.skeleton. induction cats as [|c cats IH]; [reflexivity|].
  cbn. now rewrite IH.
Qed.

Lemma pushToFound_idem (sev : Severity) (k : string) (cats : list KeywordCategory.t) :
  pushToFound sev k (pushToFound sev k cats) = pushToFound sev k cats.
Proof.
  induction cats as [|c cats IH]; [reflexivity|]. cbn [pushToFound].
  destruct (Severity_eqb (KeywordCategory.severity c) sev) eqn:Hs.
  - destruct (Js.arrayIncludes (KeywordCategory.keywords c) k) eqn:Hi;
      cbn [pushToFound KeywordCategory.severity KeywordCategory.keywords];
      rewrite Hs.
    + now rewrite Hi.
    + assert (Hin : Js.arrayIncludes (KeywordCategory.keywords c ++ [k]) k = true)
        by (apply arrayIncludes_In, in_or_app; right; now left).
      now rewrite Hin.
  - cbn [pushToFound]. now rewrite Hs, IH.
Qed.

Lemma indexOf_snoc (l : list string) (k : string) :
  Js.arrayIncludes l k = false -> Js.indexOf (l ++ [k]) k = Some (List.length l).
Proof.
  induction l as [|x l IH]; cbn [app Js.indexOf List.length]; intros H.
  - now rewrite String.eqb_refl.
  - unfold Js.arrayIncludes in H. cbn [existsb] in H.
    apply orb_false_iff in H as [Hx Hl]. rewrite String.eqb_sym in Hx.
    rewrite Hx, (IH Hl). reflexivity.
Qed.

Lemma splice1_snoc (l : list string) (k : string) :
  Js.splice1 (l ++ [k]) (List.length l) = l.
Proof. induction l as [|x l IH]; cbn; [reflexivity|now rewrite IH]. Qed.

Lemma removeLoop_pushToFound (sev : Severity) (n : string) (cats : list KeywordCategory.t) :
  Spec.stored cats n = false ->
  existsb (fun cat => Severity_eqb (KeywordCategory.severity cat) sev) cats = true ->
  removeLoop n (pushToFound sev n cats) = (true, cats).
Proof.
  unfold Spec.stored. induction cats as [|c cats IH]; cbn [existsb pushToFound];
    [discriminate|].
  intros Hst Hex. apply orb_false_iff in Hst as [Hc Hr].
  destruct (Severity_eqb (KeywordCategory.severity c) sev) eqn:Hs.
  - rewrite Hc. cbn [removeLoop]. unfold removeFrom at 1.
    cbn [KeywordCategory.keywords KeywordCategory.severity KeywordCategory.weight].
    rewrite (indexOf_snoc _ _ Hc), splice1_snoc, category_eta.
    now rewrite (removeLoop_unstored n cats Hr).
  - cbn [orb] in Hex. cbn [removeLoop].
    now rewrite (removeFrom_unstored _ _ Hc), (IH Hr Hex).
Qed.

Lemma splice1_length (l : list string) (k : string) (i : nat) :
  Js.indexOf l k = Some i -> S (List.length (Js.splice1 l i)) = List.length l.
Proof.
  revert i. induction l as [|x l IH]; intros i H; cbn [Js.indexOf] in H; [discriminate|].
  destruct (String.eqb x k).
  - now inversion H.
  - destruct (Js.indexOf l k) as [j|]; [|discriminate]. inversion H; subst.
    cbn. now rewrite (IH j eq_refl).
Qed.

Lemma removeFrom_same (n : string) (c : KeywordCategory.t) :
  snd (removeFrom n c) = c -> fst (removeFrom n c) = false.
Proof.
  unfold removeFrom. destruct (Js.indexOf _ n) as [i|] eqn:Hi; [|reflexivity].
  cbn. intros H. apply (f_equal KeywordCategory.keywords) in H. cbn in H.
  apply splice1_length in Hi. rewrite H in Hi. lia.
Qed.

End MutatorFacts.

(** X12. Adding a phrase twice, in whatever case it is written, is adding
    it once. *)
Theorem addCustomKeyword_idempotent
        (k k' : string) (sev : Severity) (w w' : option Z)
        (cats : list KeywordCategory.t) :
  Js.toLowerCase k = Js.toLowerCase k' ->
  KeywordScanner.addCustomKeyword k sev w (KeywordScanner.addCustomKeyword k' sev w' cats)
  = KeywordScanner.addCustomKeyword k' sev w' cats.
Proof.
  intros Hk. unfold KeywordScanner.addCustomKeyword at 1. rewrite Hk.
  assert (Hex : existsb (fun cat => Severity_eqb (KeywordCategory.severity cat) sev)
                        (KeywordScanner.addCustomKeyword k' sev w' cats) = true).
  { destruct (addCustomKeyword_stores k' sev w' cats) as (c & Hc & _ & Hs).
    apply existsb_exists. exists c. split; [exact Hc|]. now apply Severity_eqb_eq. }
  rewrite Hex. unfold KeywordScanner.addCustomKeyword. apply pushToFound_idem.
Qed.

Lemma addCustomKeyword_idempotent_witness :
  KeywordScanner.addCustomKeyword "FREE MONEY" low None
    (KeywordScanner.addCustomKeyword "Free Money" low (Some 9%Z) KeywordScanner.categories)
  = KeywordScanner.addCustomKeyword "Free Money" low (Some 9%Z) KeywordScanner.categories.
Proof.
  apply (addCustomKeyword_idempotent "FREE MONEY" "Free Money" low None (Some 9%Z)
                                     KeywordScanner.categories).
  reflexivity.
Defined.

(** X13. Starting from the built-in categories, no sequence of
    [addCustomKeyword] and [removeKeyword] calls changes the number, the
    order, the severity or the weight of the categories: a category of
    each severity is there from the start, so none is ever created and the
    weight passed to [addCustomKeyword] is never used. *)
Theorem builtin_skeleton_kept (ops : list Props.Op) :
  Props.skeleton (Props.run ops KeywordScanner.categories)
  = Props.skeleton KeywordScanner.categories /\
  forall k sev w w',
    KeywordScanner.addCustomKeyword k sev w (Props.run ops KeywordScanner.categories)
    = KeywordScanner.addCustomKeyword k sev w' (Props.run ops KeywordScanner.categories).
Proof.
  assert (Hall : forall cats sev,
             Props.skeleton cats = Props.skeleton KeywordScanner.categories ->
             existsb (fun cat => Severity_eqb (KeywordCategory.severity cat) sev) cats = true).
  { intros cats sev H. rewrite hasSeverity_skeleton, H. now destruct sev. }
  assert (Hrun : forall cats,
             Props.skeleton cats = Props.skeleton KeywordScanner.categories ->
             Props.skeleton (Props.run ops cats) = Props.skeleton KeywordScanner.categories).
  { unfold Props.run. induction ops as [|op ops IH]; intros cats H; [exact H|].
    cbn [fold_left]. apply IH. destruct op as [k sev w|k]; cbn [Props.apply].
    - unfold KeywordScanner.addCustomKeyword. rewrite (Hall cats sev H).
      now rewrite pushToFound_skeleton.
    - now rewrite removeKeyword_skeleton. }
  split; [now apply Hrun|].
  intros k sev w w'. unfold KeywordScanner.addCustomKeyword.
  now rewrite (Hall _ sev (Hrun _ eq_refl)).
Qed.

(** X14. Adding a phrase that no category stores yet and removing it again
    gives back the category list as it was, provided a category of that
    severity exists; [removeKeyword] answers true. *)
Theorem add_then_remove_restores
        (k : string) (sev : Severity) (w : option Z) (cats : list KeywordCategory.t) :
  Spec.stored cats (Js.toLowerCase k) = false ->
  existsb (fun cat => Severity_eqb (KeywordCategory.severity cat) sev) cats = true ->
  KeywordScanner.removeKeyword k (KeywordScanner.addCustomKeyword k sev w cats)
  = (true, cats).
Proof.
  intros Hst Hex. unfold KeywordScanner.removeKeyword, KeywordScanner.addCustomKeyword.
  rewrite Hex. now apply removeLoop_pushToFound.
Qed.

Lemma add_then_remove_restores_witness :
  KeywordScanner.removeKeyword "Lucky Draw"
    (KeywordScanner.addCustomKeyword "Lucky Draw" medium None KeywordScanner.categories)
  = (true, KeywordScanner.categories).
Proof.
  apply (add_then_remove_restores "Lucky Draw" medium None KeywordScanner.categories);
    reflexivity.
Defined.

(** X15. [removeKeyword] answers false exactly when it leaves the category
    list as it was, and that is exactly when no category stores the
    lower-cased argument. *)
Theorem removeKeyword_false_iff_unchanged (k : string) (cats : list KeywordCategory.t) :
  (fst (KeywordScanner.removeKeyword k cats) = false <->
   snd (KeywordScanner.removeKeyword k cats) = cats) /\
  (fst (KeywordScanner.removeKeyword k cats) = false <->
   Spec.stored cats (Js.toLowerCase k) = false).
Proof.
  split; [|now rewrite removeKeyword_fst].
  split.
  - rewrite removeKeyword_fst. intros H. unfold KeywordScanner.removeKeyword.
    now rewrite (removeLoop_unstored _ _ H).
  - unfold KeywordScanner.removeKeyword. rewrite removeLoop_snd, removeLoop_fst.
    induction cats as [|c cats IH]; [reflexivity|]. cbn [map existsb].
    intros H. injection H as Hc Hr.
    now rewrite (removeFrom_same _ _ Hc), (IH Hr).
Qed.

(** X16. On categories without duplicate phrases, a second [removeKeyword]
    of the same phrase, in whatever case it is written, finds nothing and
    answers false. *)
Theorem removeKeyword_twice
        (k k' : string) (cats : list KeywordCategory.t) :
  Spec.distinctKeywords cats = true ->
  Js.toLowerCase k' = Js.toLowerCase k ->
  KeywordScanner.removeKeyword k' (snd (KeywordScanner.removeKeyword k cats))
  = (false, snd (KeywordScanner.removeKeyword k cats)).
Proof.
  intros Hd Hk. unfold KeywordScanner.removeKeyword at 1. rewrite Hk.
  apply removeLoop_unstored.
  destruct (Spec.stored _ _) eqn:Hs; [|reflexivity].
  apply stored_iff in Hs as (c' & Hc' & Hin).
  apply removeKeyword_In in Hc' as (c & Hc & ->).
  exfalso. revert Hin. apply removeFrom_absent. now apply (distinctKeywords_In cats).
Qed.

Lemma removeKeyword_twice_witness :
  KeywordScanner.removeKeyword "PASSWORD"
    (snd (KeywordScanner.removeKeyword "Password" KeywordScanner.categories))
  = (false, snd (KeywordScanner.removeKeyword "Password" KeywordScanner.categories)).
Proof.
  apply (removeKeyword_twice "Password" "PASSWORD" KeywordScanner.categories);
    reflexivity.
Defined.

Section Listing.

Import KeywordScanner.

Lemma getAllKeywords_fold (cats : list KeywordCategory.t) :
  forall (result : Severity -> list string) (s : Severity),
    fold_left (fun result category =>
                 pushAll result (KeywordCategory.severity category)
                         (KeywordCategory.keywords category)) cats result s
    = result s ++
      flat_map KeywordCategory.keywords
               (filter (fun c => Severity_eqb s (KeywordCategory.severity c)) cats).
Proof.
  induction cats as [|c cats IH]; intros result s; cbn [fold_left filter flat_map].
  - now rewrite app_nil_r.
  - rewrite IH. unfold pushAll.
    destruct (Severity_eqb s (KeywordCategory.severity c)); cbn [flat_map];
      now rewrite ?app_assoc.
Qed.

End Listing.

(** X17. [getAllKeywords] lists under each severity the phrases of the
    categories of that severity, category after category in their order:
    every stored phrase is listed, under the severity of its category and
    as often as it is stored. *)
Theorem getAllKeywords_by_severity (cats : list KeywordCategory.t) (s : Severity) :
  KeywordScanner.getAllKeywords cats s
  = flat_map KeywordCategory.keywords
             (filter (fun c => Severity_eqb s (KeywordCategory.severity c)) cats).
Proof.
  unfold KeywordScanner.getAllKeywords. now rewrite getAllKeywords_fold.
Qed.

(** ** More on the classifier *)

Section ClassifierFacts.

Import AIClassifier.
Open Scope float_scope.

Lemma evaluateSignals_tests (message : string) :
  let m := Props.mentions message in
  evaluateSignals message =
  CombinerSpec.accumulate
    (m "urgent" || m "immediate")
    (m "click" && m "link")
    (m "verify" || m "confirm")
    (m "account" && (m "suspend" || m "lock"))
    (m "password" || m "credit card" || m "ssn")
    (m "gift card" || m "wire transfer")
    (2 <=? countUrls 0 (Js.units message))%nat
    (500 <? String.length message)%nat.
Proof. reflexivity. Qed.

(** The verdict computed from an accumulation. *)
Lemma mockClassify_accumulate (message : string) (c1 c2 c3 c4 c5 c6 c7 l : bool) :
  evaluateSignals message = CombinerSpec.accumulate c1 c2 c3 c4 c5 c6 c7 l ->
  mockClassify message =
  let acc := CombinerSpec.accumulate c1 c2 c3 c4 c5 c6 c7 l in
  AIVerdict.mk (0.4 <=? fst acc)
               (if 0.4 <=? fst acc then Js.join "; " (snd acc) else nothingDetected)
               (Number.min (fst acc) 1.0).
Proof.
  intros H. unfold mockClassify. rewrite H.
  now destruct (CombinerSpec.accumulate _ _ _ _ _ _ _ _).
Qed.

Lemma strong_signal (c1 c2 c3 c4 c5 c6 c7 l : bool) :
  c4 || c5 || c6 = true ->
  let acc := CombinerSpec.accumulate c1 c2 c3 c4 c5 c6 c7 l in
  (0.4 <=? fst acc) = true /\
  (c5 = true -> (0.5 <=? Number.min (fst acc) 1.0) = true) /\
  (c6 = true -> (0.6 <=? Number.min (fst acc) 1.0) = true).
Proof.
  destruct c1, c2, c3, c4, c5, c6, c7, l; cbn [orb]; intros H;
    try discriminate; vm_compute; repeat split; intros; congruence.
Qed.

Lemma reason_of_accumulate (c1 c2 c3 c4 c5 c6 c7 l : bool) :
  let acc := CombinerSpec.accumulate c1 c2 c3 c4 c5 c6 c7 l in
  (0.4 <=? fst acc) = true ->
  String.eqb (Js.join "; " (snd acc)) nothingDetected = false /\
  forallb (Js.includes (Js.join "; " (snd acc))) (snd acc) = true /\
  negb (Nat.eqb (List.length (snd acc)) 0) = true.
Proof.
  destruct c1, c2, c3, c4, c5, c6, c7, l; vm_compute; intros H;
    try discriminate; repeat split.
Qed.

End ClassifierFacts.

(** X18. A message that asks for a password, a credit card or an SSN, or
    for a gift card or a wire transfer, or that speaks of an account
    together with suspending or locking, is always classified suspicious by
    the heuristic evaluator, whatever else it says; the confidence is at
    least 0.5 in the first case and at least 0.6 in the second. *)
Theorem strong_signal_is_suspicious (message : string) :
  let m := Props.mentions message in
  let suspension := m "account" && (m "suspend" || m "lock") in
  let sensitive := m "password" || m "credit card" || m "ssn" in
  let payment := m "gift card" || m "wire transfer" in
  suspension || sensitive || payment = true ->
  let v := AIClassifier.mockClassify message in
  AIVerdict.isSuspicious v = true /\
  (sensitive = true -> (0.5 <=? AIVerdict.confidence v)%float = true) /\
  (payment = true -> (0.6 <=? AIVerdict.confidence v)%float = true).
Proof.
  cbv zeta. intros H.
  rewrite (mockClassify_accumulate _ _ _ _ _ _ _ _ _ (evaluateSignals_tests message)).
  cbv zeta. cbn [AIVerdict.isSuspicious AIVerdict.confidence].
  now apply strong_signal.
Qed.

Lemma strong_signal_is_suspicious_witness :
  let v := AIClassifier.mockClassify "Kindly send the GIFT CARD codes" in
  AIVerdict.isSuspicious v = true /\
  (Props.mentions "Kindly send the GIFT CARD codes" "password"
   || Props.mentions "Kindly send the GIFT CARD codes" "credit card"
   || Props.mentions "Kindly send the GIFT CARD codes" "ssn" = true ->
   (0.5 <=? AIVerdict.confidence v)%float = true) /\
  (Props.mentions "Kindly send the GIFT CARD codes" "gift card"
   || Props.mentions "Kindly send the GIFT CARD codes" "wire transfer" = true ->
   (0.6 <=? AIVerdict.confidence v)%float = true).
Proof.
  apply (strong_signal_is_suspicious "Kindly send the GIFT CARD codes").
  reflexivity.
Defined.

(** X19. The reason of a heuristic verdict is the nothing-detected message
    exactly when the verdict is not suspicious. *)
Theorem mockClassify_reason_iff (message : string) :
  AIVerdict.reason (AIClassifier.mockClassify message) = AIClassifier.nothingDetected <->
  AIVerdict.isSuspicious (AIClassifier.mockClassify message) = false.
Proof.
  destruct (evaluateSignals_accumulate message)
    as (c1 & c2 & c3 & c4 & c5 & c6 & c7 & l & H).
  rewrite (mockClassify_accumulate _ _ _ _ _ _ _ _ _ H). cbv zeta.
  cbn [AIVerdict.isSuspicious AIVerdict.reason].
  pose proof (reason_of_accumulate c1 c2 c3 c4 c5 c6 c7 l) as Hr. cbv zeta in Hr.
  destruct (0.4 <=? fst (CombinerSpec.accumulate c1 c2 c3 c4 c5 c6 c7 l))%float.
  - destruct (Hr eq_refl) as (Hne & _). apply String.eqb_neq in Hne.
    split; [contradiction|discriminate].
  - split; reflexivity.
Qed.

(** X20. The reason of a suspicious heuristic verdict names every signal
    that triggered: each fragment pushed to [reasons] occurs in it, and
    there is at least one. *)
Theorem mockClassify_reason_lists_signals (message : string) :
  AIVerdict.isSuspicious (AIClassifier.mockClassify message) = true ->
  snd (AIClassifier.evaluateSignals message) <> [] /\
  forall fragment,
    In fragment (snd (AIClassifier.evaluateSignals message)) ->
    Js.includes (AIVerdict.reason (AIClassifier.mockClassify message)) fragment = true.
Proof.
  destruct (evaluateSignals_accumulate message)
    as (c1 & c2 & c3 & c4 & c5 & c6 & c7 & l & H).
  rewrite (mockClassify_accumulate _ _ _ _ _ _ _ _ _ H), H. cbv zeta.
  cbn [AIVerdict.isSuspicious AIVerdict.reason]. intros Hs.
  pose proof (reason_of_accumulate c1 c2 c3 c4 c5 c6 c7 l Hs) as (_ & Hall & Hn).
  rewrite Hs. split.
  - intros He. rewrite He in Hn. discriminate.
  - intros fragment Hin. rewrite forallb_forall in Hall. now apply Hall.
Qed.

Lemma mockClassify_reason_lists_signals_witness :
  snd (AIClassifier.evaluateSignals "URGENT: confirm your password") <> [] /\
  forall fragment,
    In fragment (snd (AIClassifier.evaluateSignals "URGENT: confirm your password")) ->
    Js.includes (AIVerdict.reason (AIClassifier.mockClassify "URGENT: confirm your password"))
                fragment = true.
Proof.
  apply (mockClassify_reason_lists_signals "URGENT: confirm your password").
  reflexivity.
Defined.

(** X21. With mock mode off and an endpoint set, a response of success
    status whose body is any JSON value but [null] yields a verdict whose
    fields are never falsy, [isSuspicious] being [false] at the least: a
    field of the body that is truthy is passed on as it is, whatever its
    type, and one that is missing or falsy is replaced by its default
    ([false], "No explanation provided", 0.5). The message itself plays
    no part in it. *)
Theorem delegated_verdict_fields
        (s : AIClassifier.Settings) (message : string) (data : Json.t) :
  AIClassifier.mockMode s = false ->
  String.eqb (AIClassifier.apiEndpoint s) "" = false ->
  data <> Json.JNull ->
  let reply := Delegated.Answered true (Some data) in
  let v := Delegated.classifyWithAI s message reply in
  (Delegated.isSuspicious v = Json.JBool false \/
   Json.truthy (Delegated.isSuspicious v) = true) /\
  Json.truthy (Delegated.reason v) = true /\
  Json.truthy (Delegated.confidence v) = true /\
  (forall x, Json.truthy x = true ->
     (Json.field data "isSuspicious" = Some x -> Delegated.isSuspicious v = x) /\
     (Json.field data "reason" = Some x -> Delegated.reason v = x) /\
     (Json.field data "confidence" = Some x -> Delegated.confidence v = x)) /\
  (Props.falsy (Json.field data "isSuspicious") = true ->
   Delegated.isSuspicious v = Json.JBool false) /\
  (Props.falsy (Json.field data "reason") = true ->
   Delegated.reason v = Json.JString "No explanation provided") /\
  (Props.falsy (Json.field data "confidence") = true ->
   Delegated.confidence v = Json.JNumber 0.5) /\
  forall other, Delegated.classifyWithAI s other reply = v.
Proof.
  intros Hm He Hn. cbv zeta.
  assert (Hv : forall m, Delegated.classifyWithAI s m (Delegated.Answered true (Some data))
                         = CombinerSpec.fromFields data).
  { intro m. unfold Delegated.classifyWithAI. rewrite Hm, He.
    destruct data; try reflexivity. now contradiction Hn. }
  rewrite Hv. unfold CombinerSpec.fromFields, Json.orDefault, Props.falsy.
  cbn [Delegated.isSuspicious Delegated.reason Delegated.confidence].
  repeat split.
  - destruct (Json.field data "isSuspicious") as [x|]; [|now left].
    destruct (Json.truthy x) eqn:Hx; [now right|now left].
  - destruct (Json.field data "reason") as [x|]; [|reflexivity].
    destruct (Json.truthy x) eqn:Hx; [exact Hx|reflexivity].
  - destruct (Json.field data "confidence") as [x|]; [|reflexivity].
    destruct (Json.truthy x) eqn:Hx; [exact Hx|reflexivity].
  - intros ->. now rewrite H.
  - intros ->. now rewrite H.
  - intros ->. now rewrite H.
  - destruct (Json.field data "isSuspicious") as [x|]; [|reflexivity].
    destruct (Json.truthy x); [discriminate|reflexivity].
  - destruct (Json.field data "reason") as [x|]; [|reflexivity].
    destruct (Json.truthy x); [discriminate|reflexivity].
  - destruct (Json.field data "confidence") as [x|]; [|reflexivity].
    destruct (Json.truthy x); [discriminate|reflexivity].
  - intro other. apply Hv.
Qed.

Lemma delegated_verdict_fields_witness :
  let s := AIClassifier.configureAPI "https://classifier.example/v1" "key"
                                     AIClassifier.initialSettings in
  let data := Json.JObject [("isSuspicious", Json.JNumber 0); ("reason", Json.JArray []);
                            ("confidence", Json.JString "0")] in
  let reply := Delegated.Answered true (Some data) in
  let v := Delegated.classifyWithAI s "hello" reply in
  (Delegated.isSuspicious v = Json.JBool false \/
   Json.truthy (Delegated.isSuspicious v) = true) /\
  Json.truthy (Delegated.reason v) = true /\
  Json.truthy (Delegated.confidence v) = true /\
  (forall x, Json.truthy x = true ->
     (Json.field data "isSuspicious" = Some x -> Delegated.isSuspicious v = x) /\
     (Json.field data "reason" = Some x -> Delegated.reason v = x) /\
     (Json.field data "confidence" = Some x -> Delegated.confidence v = x)) /\
  (Props.falsy (Json.field data "isSuspicious") = true ->
   Delegated.isSuspicious v = Json.JBool false) /\
  (Props.falsy (Json.field data "reason") = true ->
   Delegated.reason v = Json.JString "No explanation provided") /\
  (Props.falsy (Json.field data "confidence") = true ->
   Delegated.confidence v = Json.JNumber 0.5) /\
  forall other, Delegated.classifyWithAI s other reply = v.
Proof.
  apply (delegated_verdict_fields
           (AIClassifier.configureAPI "https://classifier.example/v1" "key"
                                      AIClassifier.initialSettings)
           "hello"
           (Json.JObject [("isSuspicious", Json.JNumber 0); ("reason", Json.JArray []);
                          ("confidence", Json.JString "0")]));
    [reflexivity|reflexivity|discriminate].
Defined.

(** ** More on the combiners and on what they store *)

Section CombinerFacts.

Open Scope nat_scope.

Lemma scan_severity_flagged (fuel : nat) (cats : list KeywordCategory.t) (text : string)
      (r : DetectionResult.t) :
  KeywordScanner.scan fuel cats text = Some r ->
  DetectionResult.severity r <> low -> DetectionResult.flagged r = true.
Proof.
  intros Hr Hs. destruct (DetectionResult.flagged r) eqn:Hf; [reflexivity|].
  exfalso. apply Hs. rewrite (scan_severity _ _ _ _ Hr), (scan_flagged _ _ _ _ Hr Hf).
  reflexivity.
Qed.

Lemma saveToHistory_firstn (E : Type) (e : E) (stored : option (list E)) :
  Background.saveToHistory e stored
  = firstn 100 (e :: match stored with Some h => h | None => [] end).
Proof.
  unfold Background.saveToHistory.
  destruct (Nat.ltb_spec 100 (List.length (e :: match stored with Some h => h | None => [] end)));
    [reflexivity|].
  symmetry. now apply firstn_all2.
Qed.

Lemma firstn_cons_firstn (E : Type) (e : E) (l : list E) :
  firstn 100 (e :: firstn 100 l) = firstn 100 (e :: l).
Proof.
  change (firstn 100 (e :: firstn 100 l)) with (e :: firstn 99 (firstn 100 l)).
  rewrite firstn_firstn. reflexivity.
Qed.

Lemma recordAll_from (entries : list Background.StoredAnalysis) :
  forall (l : list Background.StoredAnalysis) (t c : Z),
    Props.recordAll entries
      (Background.mkStorage (Some (firstn 100 l)) (Some t) (Some c))
    = Background.mkStorage
        (Some (firstn 100 (rev entries ++ l)))
        (Some (t + Z.of_nat (List.length entries))%Z)
        (Some (c + Z.of_nat (Props.suspiciousCount entries))%Z).
Proof.
  unfold Props.recordAll, Props.suspiciousCount.
  induction entries as [|[a id] entries IH]; intros l t c; cbn [fold_left].
  - cbn. now rewrite !Z.add_0_r.
  - unfold Background.record at 2.
    cbn [Background.scanHistory Background.totalScans Background.scamsDetected
         Background.updateStats Background.orZero fst snd].
    rewrite saveToHistory_firstn, firstn_cons_firstn, IH.
    cbn [rev filter fst List.length]. rewrite <- app_assoc. cbn [app].
    f_equal; f_equal; destruct (CombinedAnalysis.isSuspicious a); cbn [List.length]; lia.
Qed.

End CombinerFacts.

(** X22. In both combiners the overall severity is never below the keyword
    severity; in [combineResults] it is low exactly when the keyword
    severity is low and the verdict is not suspicious. *)
Theorem overall_severity_not_below_keywords (d : DetectionResult.t) (v : AIVerdict.t) :
  (Spec.rank (DetectionResult.severity d)
   <= Spec.rank (CombinedAnalysis.overallSeverity (BackgroundCombine.combineResults d v)))%nat /\
  (Spec.rank (DetectionResult.severity d)
   <= Spec.rank (CombinedAnalysis.overallSeverity (Background.analyzeText d v)))%nat /\
  (CombinedAnalysis.overallSeverity (BackgroundCombine.combineResults d v) = low <->
   DetectionResult.severity d = low /\ AIVerdict.isSuspicious v = false).
Proof.
  unfold BackgroundCombine.combineResults, Background.analyzeText,
    Background.determineOverallSeverity.
  cbn [CombinedAnalysis.overallSeverity].
  destruct (DetectionResult.severity d), (AIVerdict.isSuspicious v);
    cbn [Severity_eqb orb andb];
    repeat match goal with
           | |- context [if ?b then _ else _] => destruct b
           end;
    cbn; repeat split; try lia; try tauto; try discriminate;
    intros; repeat match goal with H : _ /\ _ |- _ => destruct H end; discriminate.
Qed.

(** X23. For the result of a scan, [combineResults] notifies exactly when
    the overall severity is not low: whenever it is medium or more, the
    combined analysis is suspicious too. *)
Theorem combineResults_notifies_iff
        (fuel : nat) (cats : list KeywordCategory.t) (text : string)
        (r : DetectionResult.t) (v : AIVerdict.t) :
  KeywordScanner.scan fuel cats text = Some r ->
  BackgroundCombine.notifies (BackgroundCombine.combineResults r v)
  = negb (Severity_eqb
            (CombinedAnalysis.overallSeverity (BackgroundCombine.combineResults r v)) low).
Proof.
  intros Hr. pose proof (scan_severity_flagged _ _ _ _ Hr) as Hf.
  unfold BackgroundCombine.notifies, BackgroundCombine.combineResults.
  cbn [CombinedAnalysis.isSuspicious CombinedAnalysis.overallSeverity].
  destruct (AIVerdict.isSuspicious v); [now rewrite orb_true_r|].
  rewrite orb_false_r. cbn [andb orb]. rewrite !orb_false_r.
  destruct (DetectionResult.severity r) eqn:Hs; cbn [Severity_eqb negb];
    rewrite ?andb_false_r, ?andb_true_r; try reflexivity;
    apply Hf; discriminate.
Qed.

Lemma combineResults_notifies_iff_witness :
  exists r,
    KeywordScanner.scan 30 KeywordScanner.categories "claim your prize" = Some r /\
    BackgroundCombine.notifies
      (BackgroundCombine.combineResults r (AIClassifier.mockClassify "claim your prize"))
    = negb (Severity_eqb
              (CombinedAnalysis.overallSeverity
                 (BackgroundCombine.combineResults
                    r (AIClassifier.mockClassify "claim your prize"))) low).
Proof.
  eexists. split; [vm_compute; reflexivity|].
  apply (combineResults_notifies_iff 30 KeywordScanner.categories "claim your prize").
  vm_compute. reflexivity.
Defined.

(** X24. A scan of critical severity always notifies, with overall severity
    critical, in both versions of the background script, whatever the
    classifier says. *)
Theorem critical_scan_notifies
        (fuel : nat) (cats : list KeywordCategory.t) (text : string)
        (r : DetectionResult.t) (v : AIVerdict.t) :
  KeywordScanner.scan fuel cats text = Some r ->
  DetectionResult.severity r = critical ->
  Background.notifies (Background.analyzeText r v) = true /\
  CombinedAnalysis.overallSeverity (Background.analyzeText r v) = critical /\
  BackgroundCombine.notifies (BackgroundCombine.combineResults r v) = true /\
  CombinedAnalysis.overallSeverity (BackgroundCombine.combineResults r v) = critical.
Proof.
  intros Hr Hs.
  assert (Hf : DetectionResult.flagged r = true)
    by (apply (scan_severity_flagged _ _ _ _ Hr); rewrite Hs; discriminate).
  unfold Background.notifies, BackgroundCombine.notifies, Background.analyzeText,
    BackgroundCombine.combineResults, Background.determineOverallSeverity.
  cbn [CombinedAnalysis.isSuspicious CombinedAnalysis.overallSeverity].
  rewrite Hs, Hf. cbn [Severity_eqb orb andb negb].
  now rewrite orb_true_r.
Qed.

Lemma critical_scan_notifies_witness :
  exists r,
    KeywordScanner.scan 30 KeywordScanner.categories "your password" = Some r /\
    let v := AIClassifier.mockClassify "hello" in
    Background.notifies (Background.analyzeText r v) = true /\
    CombinedAnalysis.overallSeverity (Background.analyzeText r v) = critical /\
    BackgroundCombine.notifies (BackgroundCombine.combineResults r v) = true /\
    CombinedAnalysis.overallSeverity (BackgroundCombine.combineResults r v) = critical.
Proof.
  eexists. split; [vm_compute; reflexivity|].
  apply (critical_scan_notifies 30 KeywordScanner.categories "your password").
  - vm_compute. reflexivity.
  - reflexivity.
Defined.

(** X25. [saveToHistory] of background.ts never writes more than 100
    entries, whatever the store held: the new entry comes first and is
    followed by the newest of the old ones, the oldest being dropped. *)
Theorem saveToHistory_capped (E : Type) (newEntry : E) (stored : option (list E)) :
  let old := match stored with Some h => h | None => [] end in
  Background.saveToHistory newEntry stored = newEntry :: firstn 99 old /\
  (List.length (Background.saveToHistory newEntry stored) <= 100)%nat.
Proof.
  cbv zeta. rewrite saveToHistory_firstn. split; [reflexivity|].
  rewrite length_firstn. lia.
Qed.

(** X26. On a stored history of at most 100 entries the two versions of
    [saveToHistory] write the same history. *)
Theorem saveToHistory_versions_agree (E : Type) (entry : E) (h : list E) :
  (List.length h <= 100)%nat ->
  BackgroundCombine.saveToHistory entry (Some h) = Background.saveToHistory entry (Some h).
Proof.
  intros Hl. rewrite saveToHistory_firstn. unfold BackgroundCombine.saveToHistory.
  destruct (Nat.ltb_spec 100 (List.length (entry :: h))) as [Hgt|Hle].
  - cbn [List.length] in Hgt. assert (Hh : List.length h = 100%nat) by lia.
    destruct (exists_last (l := h)) as (front & x & ->); [intros ->; discriminate|].
    rewrite length_app in Hh. cbn in Hh.
    change (entry :: front ++ [x]) with ((entry :: front) ++ [x]).
    rewrite removelast_last, firstn_app.
    replace (100 - List.length (entry :: front))%nat with 0%nat
      by (cbn [List.length]; lia).
    rewrite firstn_O, app_nil_r. symmetry. apply firstn_all2.
    cbn [List.length]. lia.
  - symmetry. now apply firstn_all2.
Qed.

Lemma saveToHistory_versions_agree_witness :
  BackgroundCombine.saveToHistory 7%nat (Some (seq 0 100))
  = Background.saveToHistory 7%nat (Some (seq 0 100)).
Proof.
  apply (saveToHistory_versions_agree nat 7%nat (seq 0 100)).
  rewrite length_seq. lia.
Defined.

(** X27. [saveToHistory] of the sibling version removes one entry only: a
    stored history that already holds more than 100 entries keeps its
    length, above the cap, while its oldest entry is replaced. *)
Theorem saveToHistory_pop_keeps_excess (E : Type) (entry : E) (h : list E) :
  (100 <= List.length h)%nat ->
  List.length (BackgroundCombine.saveToHistory entry (Some h)) = List.length h /\
  BackgroundCombine.saveToHistory entry (Some h) = entry :: removelast h.
Proof.
  intros Hl. unfold BackgroundCombine.saveToHistory.
  destruct (Nat.ltb_spec 100 (List.length (entry :: h))) as [_|Hle];
    [|cbn [List.length] in Hle; lia].
  destruct h as [|a h]; [cbn in Hl; lia|].
  change (removelast (entry :: a :: h)) with (entry :: removelast (a :: h)).
  split; [|reflexivity].
  destruct (exists_last (l := a :: h)) as (front & x & Hfx); [discriminate|].
  rewrite Hfx, removelast_last, length_app. cbn. lia.
Qed.

Lemma saveToHistory_pop_keeps_excess_witness :
  List.length (BackgroundCombine.saveToHistory 7%nat (Some (seq 0 150)))
  = List.length (seq 0 150) /\
  BackgroundCombine.saveToHistory 7%nat (Some (seq 0 150)) = 7%nat :: removelast (seq 0 150).
Proof.
  apply (saveToHistory_pop_keeps_excess nat 7%nat (seq 0 150)).
  rewrite length_seq. lia.
Defined.

(** X28. After any sequence of analyses recorded on a cleared store, the
    history holds the 100 most recent analyses, newest first; the count of
    scans is the number of analyses and the count of scams the number of
    suspicious ones among them, so it never exceeds the count of scans, and
    the history is as long as the smaller of 100 and the count of scans. *)
Theorem recorded_analyses (entries : list Background.StoredAnalysis) :
  let s := Props.recordAll entries Background.cleared in
  Background.scanHistory s = Some (firstn 100 (rev entries)) /\
  Background.totalScans s = Some (Z.of_nat (List.length entries)) /\
  Background.scamsDetected s = Some (Z.of_nat (Props.suspiciousCount entries)) /\
  (Props.suspiciousCount entries <= List.length entries)%nat /\
  List.length (firstn 100 (rev entries)) = Nat.min 100 (List.length entries).
Proof.
  cbv zeta. unfold Background.cleared.
  change (Some (@nil Background.StoredAnalysis)) with (Some (firstn 100 (@nil Background.StoredAnalysis))).
  rewrite recordAll_from, app_nil_r. cbn [Background.scanHistory Background.totalScans
                                          Background.scamsDetected].
  repeat split.
  - unfold Props.suspiciousCount. apply filter_length_le.
  - now rewrite length_firstn, length_rev.
Qed.

(** ** The empty phrase *)

Section EmptyPhrase.

Open Scope nat_scope.

Lemma first_word_char (l : list ascii) :
  existsb RegExp.isWordChar l = true ->
  exists pre c rest,
    l = pre ++ c :: rest /\ RegExp.isWordChar c = true /\
    Spec.endsOutsideWord pre = true.
Proof.
  induction l as [|a l IH]; cbn [existsb]; [discriminate|].
  destruct (RegExp.isWordChar a) eqn:Ha.
  - intros _. exists [], a, l. repeat split. exact Ha.
  - cbn [orb]. intros H. destruct (IH H) as (pre & c & rest & -> & Hc & Hp).
    exists (a :: pre), c, rest. repeat split; [exact Hc|].
    unfold Spec.endsOutsideWord in *. cbn [rev].
    destruct (rev pre) as [|x r]; cbn [app]; [now rewrite Ha|exact Hp].
Qed.

Lemma empty_pattern_matches (text : string) :
  existsb RegExp.isWordChar (Js.units text) = true ->
  exists p e, RegExp.exec (Spec.wordPattern "") (Js.units text) 0 = Some (p, e).
Proof.
  intros H. destruct (first_word_char _ H) as (pre & c & rest & Ht & Hc & Hp).
  apply (exec_finds text (Spec.wordPattern "") 0 (List.length pre)
                    (List.length pre + List.length (Js.units ""))).
  - rewrite matchAt_wordPattern. unfold Spec.occursAt.
    cbn [Js.units list_ascii_of_string Spec.literalsAt List.length].
    rewrite Nat.add_0_r, Ht, (isBoundary_before pre c rest Hp Hc). reflexivity.
  - rewrite <- length_units, Ht, length_app. lia.
Qed.

End EmptyPhrase.

(** X29. Once a category stores the empty phrase, [scan] never returns on
    a text that holds a word character: the empty match leaves [lastIndex]
    where it was, and the loop goes on for ever. *)
Theorem scan_hangs_on_empty_phrase
        (fuel : nat) (cats : list KeywordCategory.t) (text : string) :
  Spec.stored cats "" = true ->
  existsb RegExp.isWordChar (Js.units text) = true ->
  KeywordScanner.scan fuel cats text = None.
Proof.
  intros Hs Hw. apply stored_iff in Hs as (c & Hc & Hk).
  destruct (empty_pattern_matches text Hw) as (p & e & He).
  eapply scan_empty_keyword; eauto.
Qed.

Lemma scan_hangs_on_empty_phrase_witness :
  KeywordScanner.scan 1000
    (KeywordScanner.addCustomKeyword "" high None KeywordScanner.categories)
    "hello" = None.
Proof.
  apply (scan_hangs_on_empty_phrase
           1000 (KeywordScanner.addCustomKeyword "" high None KeywordScanner.categories)
           "hello"); reflexivity.
Defined.
